(** * Mass updater: match, diff, batch execution and undo pipeline

    A shallow embedding of [server/routes.ts] and [server/storage.ts]
    (with the types of [shared/schema.ts]).  JavaScript objects are
    association lists of their own properties in insertion order, each name
    once; what they inherit from [Object.prototype] is read through
    [Js.read].  Possibly-undefined strings are [option string], asynchronous
    functions that may throw are computations in a state-and-exception monad
    whose state holds the storage, the rate limiter, the outside world and a
    log of the effects performed. *)

From Stdlib Require Import List String Ascii ZArith Bool Arith Lia.
Import ListNotations.
Local Open Scope string_scope.
Local Open Scope list_scope.

(** ** JavaScript values and operators *)

Module Js.

(** Truthiness of a value that is a string, [undefined] or [null]. *)
Definition truthy (v : option string) : bool :=
  match v with
  | Some s => negb (s =? "")
  | None => false
  end.

(** [a || b] on such values. *)
Definition or (a b : option string) : option string :=
  if truthy a then a else b.

(** [a || 'literal']. *)
Definition orString (a : option string) (d : string) : string :=
  match a with
  | Some s => if s =? "" then d else s
  | None => d
  end.

(** [a || null]. *)
Definition orNull (a : option string) : option string :=
  if truthy a then a else None.

(** The own property [k] of an object whose own properties are listed in
    insertion order: [o[k]] when [k] is known to be one of them, as for
    [k] in [Object.keys(o)]. *)
Fixpoint get {V : Type} (o : list (string * V)) (k : string) : option V :=
  match o with
  | [] => None
  | (k', v) :: o' => if k' =? k then Some v else get o' k
  end.

(** The number a string of decimal digits stands for. *)
Fixpoint digits (s : string) (acc : N) : option N :=
  match s with
  | EmptyString => Some acc
  | String c rest =>
      let n := N_of_ascii c in
      if ((48 <=? n) && (n <=? 57))%N
      then digits rest (10 * acc + (n - 48))%N
      else None
  end.

(** The array index a property name stands for, if any: a decimal numeral
    without sign or leading zero, below [2^32 - 1]. *)
Definition arrayIndex (k : string) : option N :=
  match k with
  | EmptyString => None
  | String c rest =>
      if Ascii.eqb c "0" && negb (rest =? "") then None
      else match digits k 0 with
           | Some n => if (n <? 4294967295)%N then Some n else None
           | None => None
           end
  end.

Definition isArrayIndex (k : string) : bool :=
  match arrayIndex k with
  | Some _ => true
  | None => false
  end.

(** Insertion of a name into a list sorted by array index. *)
Fixpoint insertIndex (x : N * string) (l : list (N * string))
  : list (N * string) :=
  match l with
  | [] => [x]
  | y :: l' => if (fst x <=? fst y)%N then x :: l else y :: insertIndex x l'
  end.

(** [Object.keys(o)]: the names that are array indices in ascending order,
    then the others in insertion order. *)
Definition keys {V : Type} (o : list (string * V)) : list string :=
  map snd
      (fold_right insertIndex []
         (flat_map (fun k => match arrayIndex k with
                             | Some n => [(n, k)]
                             | None => []
                             end)
                   (map fst o)))
  ++ filter (fun k => negb (isArrayIndex k)) (map fst o).

(** What [o[k]] gives on such an object for any [k]: a string when [k] is
    an own property, and otherwise, for a name that every object inherits
    from [Object.prototype], the inherited function or object. *)
Inductive Value :=
| Text (s : string)
| Inherited (name : string).

(** The properties of [Object.prototype]. *)
Definition prototypeNames : list string :=
  ["constructor"; "__defineGetter__"; "__defineSetter__"; "hasOwnProperty";
   "__lookupGetter__"; "__lookupSetter__"; "isPrototypeOf";
   "propertyIsEnumerable"; "toString"; "valueOf"; "__proto__";
   "toLocaleString"].

(** [o[k]]; [None] is [undefined]. *)
Definition read (o : list (string * string)) (k : string) : option Value :=
  match get o k with
  | Some s => Some (Text s)
  | None =>
      if existsb (String.eqb k) prototypeNames then Some (Inherited k)
      else None
  end.

(** Truthiness of what was read: functions and objects are truthy. *)
Definition truthyValue (v : option Value) : bool :=
  match v with
  | Some (Text s) => negb (s =? "")
  | Some (Inherited _) => true
  | None => false
  end.

(** What was read, inside a template literal: a built-in function shows
    its source, [Object.prototype] shows as any plain object. *)
Definition showValue (v : option Value) : string :=
  match v with
  | Some (Text s) => s
  | Some (Inherited name) =>
      if name =? "__proto__" then "[object Object]"
      else if name =? "constructor" then "function Object() { [native code] }"
      else "function " ++ name ++ "() { [native code] }"
  | None => "undefined"
  end.

(** [l.includes(x)] for an array of strings. *)
Definition includes (l : list string) (x : string) : bool :=
  existsb (String.eqb x) l.

(** [l.includes(x)] when [x] may be [undefined]: an array of strings
    holds no [undefined]. *)
Definition includesValue (l : list string) (x : option string) : bool :=
  match x with
  | Some s => includes l s
  | None => false
  end.

(** [s.startsWith(p)]. *)
Definition startsWith (s p : string) : bool := String.prefix p s.

(** [s.split(',')]. *)
Fixpoint split_comma (s : string) : list string :=
  match s with
  | EmptyString => [""]
  | String c rest =>
      if Ascii.eqb c "," then "" :: split_comma rest
      else match split_comma rest with
           | h :: t => String c h :: t
           | [] => [String c ""]
           end
  end.

(** [l.slice(i, j)]. *)
Definition slice {A : Type} (l : list A) (i j : nat) : list A :=
  firstn (j - i) (skipn i l).

(** [l.slice(start, end)] for any integers: a negative index counts from
    the end of the array. *)
Definition sliceZ {A : Type} (l : list A) (start final : Z) : list A :=
  let len := Z.of_nat (List.length l) in
  let relative x :=
    if (x <? 0)%Z then Z.max (len + x) 0 else Z.min x len in
  let k := relative start in
  firstn (Z.to_nat (relative final - k)) (skipn (Z.to_nat k) l).

(** [parseInt(x) || d], for [parseInt(x)] an integer or [NaN] ([None]). *)
Definition orInt (v : option Z) (d : Z) : Z :=
  match v with
  | Some z => if (z =? 0)%Z then d else z
  | None => d
  end.

(** [Math.ceil(a / b)] for integers, [b] not 0. *)
Definition ceilDiv (a b : Z) : Z := (- ((- a) / b))%Z.

End Js.

(** ** Security middleware ([validateSecurity], routes.ts 43-68) *)

Module Security.

(** [process.env]. *)
Record Env := {
  APP_SECRET_TOKEN : option string;
  ALLOWED_DOMAINS : option string;
  BITRIX_WEBHOOK_URL : option string
}.

(** The parts of the request the middleware reads. *)
Record Request := {
  query_token : option string;
  header_x_auth_token : option string;
  query_domain : option string;
  header_x_bitrix_domain : option string
}.

(** What the middleware does: call [next()] with [req.bitrixDomain] set,
    or answer with a status code and a message. *)
Inductive Outcome :=
| Next (bitrixDomain : option string)
| Reply (code : nat) (message : string).

(** [process.env.ALLOWED_DOMAINS?.split(',') || []]. *)
Definition allowedDomains (env : Env) : list string :=
  match ALLOWED_DOMAINS env with
  | Some s => Js.split_comma s
  | None => []
  end.

Definition validateSecurity (env : Env) (req : Request) : Outcome :=
  let token := Js.or (query_token req) (header_x_auth_token req) in
  let domain := Js.or (query_domain req) (header_x_bitrix_domain req) in
  let secretToken := APP_SECRET_TOKEN env in
  let allowed := allowedDomains env in
  if negb (Js.truthy secretToken) then
    Reply 500 "APP_SECRET_TOKEN not configured"
  else if negb (match token, secretToken with
                | Some t, Some s => t =? s
                | _, _ => false
                end) then
    Reply 401 "Invalid or missing token"
  else if (0 <? List.length allowed)%nat && negb (Js.includesValue allowed domain) then
    Reply 403 "Domain not authorized"
  else Next domain.

(** A route registered as [app.METHOD(path, validateSecurity, handler)]:
    the handler runs only when the middleware calls [next()]. *)
Definition guarded {S A : Type} (env : Env)
    (handler : option string -> S -> A * S)
    (rejected : nat -> string -> A) (req : Request) (s : S) : A * S :=
  match validateSecurity env req with
  | Next domain => handler domain s
  | Reply code message => (rejected code message, s)
  end.

(** What [POST /api/validate-security] answers: a status code and the
    [valid] and [message] properties of the body. *)
Inductive Verdict :=
| Valid
| Invalid (code : nat) (message : string).

(** The handler of [POST /api/validate-security] (routes.ts 141-169).
    [body] is what [securitySchema.parse(req.body)] returns, [None] when it
    throws. *)
Definition post_api_validate_security (env : Env)
    (body : option (string * string)) : Verdict :=
  match body with
  | None => Invalid 400 "Invalid request data"
  | Some (token, domain) =>
      let secretToken := APP_SECRET_TOKEN env in
      let allowed := allowedDomains env in
      if negb (Js.truthy secretToken)
         || negb (match secretToken with
                  | Some s => token =? s
                  | None => false
                  end) then
        Invalid 401 "Invalid token"
      else if (0 <? List.length allowed)%nat
              && negb (Js.includes allowed domain) then
        Invalid 403 "Domain not authorized"
      else Valid
  end.

End Security.

(** ** Rate limiter ([rateLimiter], routes.ts 71-86) *)

Module RateLimiter.

Record t := {
  lastCall : Z;
  minInterval : Z
}.

Definition initial : t := {| lastCall := 0; minInterval := 500 |}.

(** The part of [wait()] that runs before the [await]: the delay to sleep
    for, or [None] when the test fails and nothing is awaited. *)
Definition waitTime (rl : t) (now : Z) : option Z :=
  let timeSinceLastCall := (now - lastCall rl)%Z in
  if (timeSinceLastCall <? minInterval rl)%Z
  then Some (minInterval rl - timeSinceLastCall)%Z
  else None.

(** The last statement of [wait()]: [this.lastCall = Date.now()]. *)
Definition stamp (rl : t) (now : Z) : t :=
  {| lastCall := now; minInterval := minInterval rl |}.

(** *** One caller at a time

    [wait()] run to completion before anything else touches the limiter.
    [late] is by how much the timer overshoots the requested delay. *)
Definition wait (rl : t) (now late : Z) : t * Z :=
  match waitTime rl now with
  | Some d => let now' := (now + d + late)%Z in (stamp rl now', now')
  | None => (stamp rl now, now)
  end.

(** One use of [callBitrixAPI] by a lone caller: it is invoked [idle]
    milliseconds after the previous call started (the time that request
    took, and whatever the caller did next), and the timer is [late]. *)
Record Call := {
  idle : Z;
  late : Z
}.

(** The start times of a series of calls made one after the other, with the
    limiter after the last one. *)
Fixpoint callBitrixAPI_series (rl : t) (now : Z) (calls : list Call)
  : list Z * t :=
  match calls with
  | [] => ([], rl)
  | c :: rest =>
      let '(rl1, started) := wait rl (now + idle c)%Z (late c) in
      let '(starts, rl2) := callBitrixAPI_series rl1 started rest in
      (started :: starts, rl2)
  end.

(** *** Several callers

    Background tasks of different sessions share the limiter: a caller
    suspended at the [await] inside [wait()] lets others run.  A schedule
    lists what the event loop runs, in order. *)
Inductive Step :=
| Invoke (caller : nat) (now : Z)       (* a task calls callBitrixAPI *)
| TimerFires (caller : nat) (now : Z).  (* its setTimeout resolves *)

Record Loop := {
  limiter : t;
  clock : Z;
  sleeping : list (nat * Z);   (* caller, time its timer is due *)
  started : list (nat * Z)     (* caller, time its request was sent *)
}.

Definition boot : Loop :=
  {| limiter := initial; clock := 0; sleeping := []; started := [] |}.

Fixpoint due (sl : list (nat * Z)) (caller : nat) : option Z :=
  match sl with
  | [] => None
  | (c, d) :: sl' => if Nat.eqb c caller then Some d else due sl' caller
  end.

Definition wake (sl : list (nat * Z)) (caller : nat) : list (nat * Z) :=
  filter (fun e => negb (Nat.eqb (fst e) caller)) sl.

(** One step of the event loop; [None] when the schedule is impossible
    (time running backwards, a caller invoking while asleep, a timer firing
    early or for nobody). *)
Definition step (l : Loop) (s : Step) : option Loop :=
  match s with
  | Invoke caller now =>
      if (now <? clock l)%Z then None else
      match due (sleeping l) caller with
      | Some _ => None
      | None =>
          match waitTime (limiter l) now with
          | Some d =>
              Some {| limiter := limiter l; clock := now;
                      sleeping := sleeping l ++ [(caller, (now + d)%Z)];
                      started := started l |}
          | None =>
              Some {| limiter := stamp (limiter l) now; clock := now;
                      sleeping := sleeping l;
                      started := started l ++ [(caller, now)] |}
          end
      end
  | TimerFires caller now =>
      if (now <? clock l)%Z then None else
      match due (sleeping l) caller with
      | None => None
      | Some d =>
          if (now <? d)%Z then None else
          Some {| limiter := stamp (limiter l) now; clock := now;
                  sleeping := wake (sleeping l) caller;
                  started := started l ++ [(caller, now)] |}
      end
  end.

Fixpoint run (l : Loop) (schedule : list Step) : option Loop :=
  match schedule with
  | [] => Some l
  | s :: rest =>
      match step l s with
      | Some l' => run l' rest
      | None => None
      end
  end.

(** No two requests of a log start less than [gap] apart. *)
Fixpoint spaced (gap : Z) (starts : list Z) : Prop :=
  match starts with
  | [] => True
  | a :: rest =>
      match rest with
      | [] => True
      | b :: _ => (gap <= b - a)%Z /\ spaced gap rest
      end
  end.

(** No caller invokes [callBitrixAPI] while another is suspended inside
    [wait()]: the schedule of tasks that never overlap. *)
Fixpoint oneAtATime (l : Loop) (schedule : list Step) : bool :=
  match schedule with
  | [] => true
  | s :: rest =>
      match s, sleeping l with
      | Invoke _ _, _ :: _ => false
      | _, _ =>
          match step l s with
          | Some l' => oneAtATime l' rest
          | None => true
          end
      end
  end.

(** What holds of the event loop as long as callers do not overlap: the
    requests sent so far are spaced, none is later than the limiter's stamp,
    and the one caller that may be asleep is due no earlier than an interval
    after the stamp. *)
Definition in_turn (l : Loop) : Prop :=
  minInterval (limiter l) = 500%Z
  /\ spaced 500 (map snd (started l))
  /\ (forall a, In a (map snd (started l)) -> (a <= lastCall (limiter l))%Z)
  /\ (sleeping l = []
      \/ exists c d,
           sleeping l = [(c, d)] /\ (lastCall (limiter l) + 500 <= d)%Z).

End RateLimiter.

(** ** Data model ([shared/schema.ts]) *)

(** Identifiers drawn with [randomUUID()].  The storage holds the next one
    to be drawn. *)
Definition uuid := nat.

(** [z.enum(["contacts", "companies", "both"])]. *)
Inductive TargetType := contacts | companies | both.

(** A text read where a value is expected is that text. *)
Coercion Js.Text : string >-> Js.Value.

(** A row of the uploaded file: column header to cell.  The cells are text,
    as [Papa.parse] gives them for every CSV file; a sheet whose cells are
    numbers or booleans is not a [Row]. *)
Definition Row := list (string * string).

Record UploadSession := {
  us_id : uuid;
  fileName : string;
  fileSize : nat;
  totalRows : nat;
  targetType : TargetType;
  keyColumns : list string;
  originalData : list Row;
  processedData : option (list Row);
  us_status : string
}.

(** A Pending Change Entry. *)
Record RecordResult := {
  rr_id : uuid;
  sessionId : uuid;
  rowIndex : nat;
  searchKey : string;
  bitrixId : option string;
  field : string;
  currentValue : option string;
  newValue : string;
  action : string;
  status : string;
  errorMessage : option string;
  selected : bool
}.

(** The argument of [createRecordResult]: optional properties may be left
    out. *)
Record InsertRecordResult := {
  i_sessionId : uuid;
  i_rowIndex : nat;
  i_searchKey : string;
  i_bitrixId : option string;
  i_field : string;
  i_currentValue : option string;
  i_newValue : string;
  i_action : option string;
  i_status : option string;
  i_errorMessage : option string;
  i_selected : option bool
}.

(** [Partial<RecordResult>]: the properties an update carries. *)
Record Patch := {
  p_id : option uuid;
  p_sessionId : option uuid;
  p_rowIndex : option nat;
  p_searchKey : option string;
  p_bitrixId : option (option string);
  p_field : option string;
  p_currentValue : option (option string);
  p_newValue : option string;
  p_action : option string;
  p_status : option string;
  p_errorMessage : option (option string);
  p_selected : option bool
}.

Definition override {A : Type} (old : A) (new : option A) : A :=
  match new with
  | Some a => a
  | None => old
  end.

(** [{ ...result, ...updates }]. *)
Definition spread (r : RecordResult) (u : Patch) : RecordResult :=
  {| rr_id := override (rr_id r) (p_id u);
     sessionId := override (sessionId r) (p_sessionId u);
     rowIndex := override (rowIndex r) (p_rowIndex u);
     searchKey := override (searchKey r) (p_searchKey u);
     bitrixId := override (bitrixId r) (p_bitrixId u);
     field := override (field r) (p_field u);
     currentValue := override (currentValue r) (p_currentValue u);
     newValue := override (newValue r) (p_newValue u);
     action := override (action r) (p_action u);
     status := override (status r) (p_status u);
     errorMessage := override (errorMessage r) (p_errorMessage u);
     selected := override (selected r) (p_selected u) |}.

Record ExecutionBatch := {
  eb_id : uuid;
  eb_sessionId : uuid;
  batchNumber : nat;
  recordIds : list uuid;
  eb_status : string;
  errors : option (list string)
}.

(** ** Storage ([MemStorage], storage.ts 263-435)

    A [Map] is its entries in insertion order; [FileStorage] keeps the same
    entries as the properties of an object, listed in the same order. *)

Module Map.

Fixpoint get {V : Type} (m : list (uuid * V)) (k : uuid) : option V :=
  match m with
  | [] => None
  | (k', v) :: m' => if Nat.eqb k' k then Some v else get m' k
  end.

(** [m.set(k, v)]: an existing key keeps its place. *)
Fixpoint set {V : Type} (m : list (uuid * V)) (k : uuid) (v : V)
  : list (uuid * V) :=
  match m with
  | [] => [(k, v)]
  | (k', v') :: m' =>
      if Nat.eqb k' k then (k, v) :: m' else (k', v') :: set m' k v
  end.

Definition values {V : Type} (m : list (uuid * V)) : list V := map snd m.

(** [m.delete(k)]. *)
Definition delete {V : Type} (m : list (uuid * V)) (k : uuid)
  : list (uuid * V) :=
  filter (fun kv => negb (Nat.eqb (fst kv) k)) m.

(** [Array.from(m.keys())]. *)
Definition keys {V : Type} (m : list (uuid * V)) : list uuid := map fst m.

End Map.

Record Storage := {
  sessions : list (uuid * UploadSession);
  recordResults : list (uuid * RecordResult);
  executionBatches : list (uuid * ExecutionBatch);
  randomUUID : uuid
}.

Definition emptyStorage : Storage :=
  {| sessions := []; recordResults := []; executionBatches := [];
     randomUUID := 0 |}.

(** ** The outside world: the CRM behind [fetch] *)

(** An entity of a search result, as the matcher reads it: [searchResult.id]
    and [searchResult.fields], each of which the reply may leave out; the
    identifier is text and [fields] an object of text properties. *)
Record Entity := {
  id : option string;
  fields : option (list (string * string))
}.

(** What [searchInBitrix24] returns when it finds something:
    [results[0]], or [{ ...results[0], isDuplicate: true }]. *)
Record Match := {
  entity : Entity;
  isDuplicate : bool
}.

(** One command of a bulk call or the body of a single update:
    [{ id: result.bitrixId, fields: { [result.field]: result.newValue } }]. *)
Record UpdateData := {
  u_id : string;
  u_field : string;
  u_value : string
}.

(** The [params] of [callBitrixAPI].  The commands of a bulk call are kept
    in the order of their keys [contact_0], [contact_1], ... *)
Inductive Params :=
| ListParams (filterField : string) (filterValue : Js.Value)
| BatchParams (cmd : list UpdateData)
| UpdateParams (data : UpdateData).

(** The response of [fetch]: [response.ok], the status line and the
    [result] property of the parsed body. *)
Record Response := {
  ok : bool;
  statusCode : string;
  statusText : string;
  result : option (list Entity)
}.

(** What is observed of a run, in order. *)
Inductive Event :=
| EvCall (domain : option string) (method : string) (params : Params)
| EvConsoleError (label : string)
| EvCreateRecordResult (r : RecordResult)
| EvUpdateRecordResult (rid : uuid) (updates : Patch)
| EvCreateExecutionBatch (b : ExecutionBatch)
| EvUpdateSessionStatus (sid : uuid) (st : string).

(** A value held by a property of a reply object. *)
Inductive JsVal :=
| JString (v : string)
| JNumber (n : nat)
| JRecords (l : list RecordResult).

(** [v.length]: [undefined] on a number. *)
Definition JsVal_length (v : JsVal) : option nat :=
  match v with
  | JString s => Some (String.length s)
  | JNumber _ => None
  | JRecords l => Some (List.length l)
  end.

(** ** Storage operations ([MemStorage]) *)

Module MemStorage.

Definition getSession (s : Storage) (sid : uuid) : option UploadSession :=
  Map.get (sessions s) sid.

(** [createSession]: the caller's properties, a fresh [id], and
    [processedData: null] ([createdAt] is left out of the model). *)
Definition createSession (insertSession : UploadSession) (s : Storage)
  : UploadSession * Storage :=
  let new_id := randomUUID s in
  let session :=
    {| us_id := new_id;
       fileName := fileName insertSession;
       fileSize := fileSize insertSession;
       totalRows := totalRows insertSession;
       targetType := targetType insertSession;
       keyColumns := keyColumns insertSession;
       originalData := originalData insertSession;
       processedData := None;
       us_status := Js.orString (Some (us_status insertSession)) "uploaded" |} in
  (session,
   {| sessions := Map.set (sessions s) new_id session;
      recordResults := recordResults s;
      executionBatches := executionBatches s;
      randomUUID := S new_id |}).

(** [updateSessionStatus(id, status)]: [processedData] is not passed by any
    caller, so it becomes [null]. *)
Definition updateSessionStatus (sid : uuid) (st : string) (s : Storage)
  : Storage :=
  match Map.get (sessions s) sid with
  | Some session =>
      let updated :=
        {| us_id := us_id session;
           fileName := fileName session;
           fileSize := fileSize session;
           totalRows := totalRows session;
           targetType := targetType session;
           keyColumns := keyColumns session;
           originalData := originalData session;
           processedData := None;
           us_status := st |} in
      {| sessions := Map.set (sessions s) sid updated;
         recordResults := recordResults s;
         executionBatches := executionBatches s;
         randomUUID := randomUUID s |}
  | None => s
  end.

Definition createRecordResult (insertResult : InsertRecordResult)
    (s : Storage) : RecordResult * Storage :=
  let new_id := randomUUID s in
  let result :=
    {| rr_id := new_id;
       sessionId := i_sessionId insertResult;
       rowIndex := i_rowIndex insertResult;
       searchKey := i_searchKey insertResult;
       bitrixId := Js.orNull (i_bitrixId insertResult);
       field := i_field insertResult;
       currentValue := Js.orNull (i_currentValue insertResult);
       newValue := i_newValue insertResult;
       action := Js.orString (i_action insertResult) "update";
       status := Js.orString (i_status insertResult) "pending";
       errorMessage := Js.orNull (i_errorMessage insertResult);
       selected := match i_selected insertResult with
                   | Some b => b
                   | None => true
                   end |} in
  (result,
   {| sessions := sessions s;
      recordResults := Map.set (recordResults s) new_id result;
      executionBatches := executionBatches s;
      randomUUID := S new_id |}).

Definition getRecordResults (s : Storage) (sid : uuid) : list RecordResult :=
  filter (fun r => Nat.eqb (sessionId r) sid) (Map.values (recordResults s)).

Definition updateRecordResult (rid : uuid) (updates : Patch) (s : Storage)
  : Storage :=
  match Map.get (recordResults s) rid with
  | Some r =>
      {| sessions := sessions s;
         recordResults := Map.set (recordResults s) rid (spread r updates);
         executionBatches := executionBatches s;
         randomUUID := randomUUID s |}
  | None => s
  end.

(** [updateRecordResults]: one [updateRecordResult] per element. *)
Fixpoint updateRecordResults (updates : list (uuid * Patch)) (s : Storage)
  : Storage :=
  match updates with
  | [] => s
  | (rid, data) :: rest =>
      updateRecordResults rest (updateRecordResult rid data s)
  end.

(** [createExecutionBatch]: [processedAt] is left out of the model. *)
Definition createExecutionBatch (sid : uuid) (number : nat)
    (ids : list uuid) (st : string) (s : Storage)
  : ExecutionBatch * Storage :=
  let new_id := randomUUID s in
  let batch :=
    {| eb_id := new_id; eb_sessionId := sid; batchNumber := number;
       recordIds := ids; eb_status := Js.orString (Some st) "pending";
       errors := None |} in
  (batch,
   {| sessions := sessions s;
      recordResults := recordResults s;
      executionBatches := Map.set (executionBatches s) new_id batch;
      randomUUID := S new_id |}).

Definition getExecutionBatches (s : Storage) (sid : uuid)
  : list ExecutionBatch :=
  filter (fun b => Nat.eqb (eb_sessionId b) sid)
         (Map.values (executionBatches s)).

Definition count_status (st : string) (l : list RecordResult) : nat :=
  List.length (filter (fun r => status r =? st) l).

(** [getExecutionResults]: the object literal of storage.ts 410-420, one
    pair per property. *)
Definition getExecutionResults (s : Storage) (sid : uuid)
  : option (list (string * JsVal)) :=
  match getSession s sid with
  | None => None
  | Some session =>
      let results := getRecordResults s sid in
      let batches := getExecutionBatches s sid in
      let successful := count_status "success" results in
      let failed := count_status "error" results in
      let pending := count_status "pending" results in
      Some [ ("sessionId", JNumber sid);
             ("status", JString (us_status session));
             ("totalRows", JNumber (List.length results));
             ("processedRows", JNumber (List.length results));
             ("successful", JNumber successful);
             ("failed", JNumber failed);
             ("pending", JNumber pending);
             ("batches", JNumber (List.length batches));
             ("completedBatches",
              JNumber (List.length
                         (filter (fun b => eb_status b =? "completed")
                                 batches))) ]
  end.

(** [deleteSession] (storage.ts 423-434): the session goes, and with it,
    key by key, the entries and the batches that name it. *)
Definition deleteSession (sid : uuid) (s : Storage) : Storage :=
  {| sessions := Map.delete (sessions s) sid;
     recordResults :=
       fold_left (fun m kv => Map.delete m (fst kv))
         (filter (fun kv => Nat.eqb (sessionId (snd kv)) sid)
                 (recordResults s))
         (recordResults s);
     executionBatches :=
       fold_left (fun m kv => Map.delete m (fst kv))
         (filter (fun kv => Nat.eqb (eb_sessionId (snd kv)) sid)
                 (executionBatches s))
         (executionBatches s);
     randomUUID := randomUUID s |}.

(** A percentage the code computes in floating point as
    [(num / den) * 100]; the model keeps the two operands. *)
Inductive Percent :=
| PercentOf (num den : nat)
| PercentZero.

(** The object [getProcessingStatus] returns (storage.ts 368-375). *)
Record ProcessingStatus := {
  ps_sessionId : uuid;
  ps_status : string;
  ps_progress : Percent;
  ps_processedRows : nat;
  ps_totalRows : nat;
  ps_errors : nat
}.

Definition getProcessingStatus (s : Storage) (sid : uuid)
  : option ProcessingStatus :=
  match getSession s sid with
  | None => None
  | Some session =>
      let results := getRecordResults s sid in
      Some {| ps_sessionId := sid;
              ps_status := us_status session;
              ps_progress := PercentOf (List.length results)
                                       (totalRows session);
              ps_processedRows := List.length results;
              ps_totalRows := totalRows session;
              ps_errors := count_status "error" results |}
  end.

(** The object [getExecutionProgress] returns (storage.ts 388-396). *)
Record ExecutionProgress := {
  ep_sessionId : uuid;
  ep_status : string;
  ep_progress : Percent;
  ep_completedBatches : nat;
  ep_totalBatches : nat;
  ep_processedRows : nat;
  ep_totalRows : nat
}.

Definition getExecutionProgress (s : Storage) (sid : uuid)
  : option ExecutionProgress :=
  match getSession s sid with
  | None => None
  | Some session =>
      let batches := getExecutionBatches s sid in
      let results := getRecordResults s sid in
      let completedBatches :=
        List.length (filter (fun b => eb_status b =? "completed") batches) in
      let totalBatches := List.length batches in
      Some {| ep_sessionId := sid;
              ep_status := us_status session;
              ep_progress :=
                if (0 <? totalBatches)%nat
                then PercentOf completedBatches totalBatches
                else PercentZero;
              ep_completedBatches := completedBatches;
              ep_totalBatches := totalBatches;
              ep_processedRows := List.length results;
              ep_totalRows := totalRows session |}
  end.

End MemStorage.

(** ** Report download ([GET /api/download/:sessionId/:type]) *)

Inductive HttpReply :=
| JsonReply (code : nat) (message : string)
| CsvReply (filename : string) (data : JsVal).

(** The handler behind [validateSecurity].  [data.length] on a property
    that the object does not have throws a [TypeError], which the handler's
    [catch] turns into a 500 carrying the error's message. *)
Definition download (s : Storage) (sid : uuid) (type : string) : HttpReply :=
  match MemStorage.getExecutionResults s sid with
  | None => JsonReply 404 "Session not found"
  | Some results =>
      let chosen :=
        if type =? "not-found"
        then Some (Js.get results "notFoundRecords", "not-found-")
        else if type =? "duplicates"
        then Some (Js.get results "duplicateRecords", "duplicates-")
        else if type =? "errors"
        then Some (Js.get results "errorRecords", "errors-")
        else None in
      match chosen with
      | None => JsonReply 400 "Invalid download type"
      | Some (None, _) =>
          JsonReply 500
            "Cannot read properties of undefined (reading 'length')"
      | Some (Some data, filename) =>
          match JsVal_length data with
          | Some 0 => JsonReply 404 "No data available for download"
          | _ => CsvReply filename data
          end
      end
  end.

(** ** Preview ([GET /api/preview/:sessionId], routes.ts 265-315) *)

Section Preview.

(** [s.toLowerCase()] and [s.includes(t)] on strings. *)
Variable toLowerCase : string -> string.
Variable contains : string -> string -> bool.

Record Pagination := {
  pg_page : Z;
  pg_limit : Z;
  pg_total : nat;
  pg_totalPages : Z
}.

(** The [filter] query parameter applied. *)
Definition previewFilter (filter : option string)
    (results : list RecordResult) : list RecordResult :=
  match filter with
  | None => results
  | Some f =>
      if (f =? "") || (f =? "all") then results
      else
        List.filter
          (fun r =>
             if f =? "update" then action r =? "update"
             else if f =? "ignore" then action r =? "ignore"
             else if f =? "not_found" then status r =? "not_found"
             else if f =? "duplicates" then status r =? "duplicate"
             else true)
          results
  end.

(** The [search] query parameter applied. *)
Definition previewSearch (search : option string)
    (results : list RecordResult) : list RecordResult :=
  match search with
  | None => results
  | Some q =>
      if q =? "" then results
      else
        let searchLower := toLowerCase q in
        List.filter
          (fun r =>
             contains (toLowerCase (searchKey r)) searchLower
             || contains (toLowerCase (newValue r)) searchLower
             || match currentValue r with
                | Some c =>
                    negb (c =? "") && contains (toLowerCase c) searchLower
                | None => false
                end)
          results
  end.

(** The handler: [page] and [limit] are what [parseInt] makes of the query
    parameters. *)
Definition get_api_preview (s : Storage) (sid : uuid)
    (page limit : option Z) (filter search : option string)
  : list RecordResult * Pagination :=
  let page := Js.orInt page 1 in
  let limit := Js.orInt limit 50 in
  let results :=
    previewSearch search
      (previewFilter filter (MemStorage.getRecordResults s sid)) in
  let total := List.length results in
  let offset := ((page - 1) * limit)%Z in
  (Js.sliceZ results offset (offset + limit),
   {| pg_page := page; pg_limit := limit; pg_total := total;
      pg_totalPages := Js.ceilDiv (Z.of_nat total) limit |}).

End Preview.

(** ** The storage kept in files ([FileStorage], storage.ts 43-260)

    Each of the three files holds one object, read whole before an operation
    and written whole after it; the model is of files that can be read and
    written, and of keys drawn with [randomUUID()].  (A key that a request
    makes up and every object inherits, such as "constructor", is found by
    [results[id]] here and not by [Map.get]; such keys are not [uuid]s.)
    The operation below is written differently from that of [MemStorage]. *)

Module FileStorage.

(** [deleteSession]: the entries and the batches that name the session are
    filtered out. *)
Definition deleteSession (sid : uuid) (s : Storage) : Storage :=
  {| sessions := Map.delete (sessions s) sid;
     recordResults :=
       filter (fun kv => negb (Nat.eqb (sessionId (snd kv)) sid))
              (recordResults s);
     executionBatches :=
       filter (fun kv => negb (Nat.eqb (eb_sessionId (snd kv)) sid))
              (executionBatches s);
     randomUUID := randomUUID s |}.

End FileStorage.

(** ** The pipeline ([routes.ts] 89-111 and 430-681) *)

(** An [async] function either returns or throws an [Error] with a
    message. *)
Inductive Result (A : Type) :=
| Ok (a : A)
| Throw (message : string).

Arguments Ok {A} a.
Arguments Throw {A} message.

(** What the server runs against: the state of everything outside it, the
    clock [Date.now()], a timer ([setTimeout], awaited), [fetch] (given the
    webhook URL, the domain, the method and the parameters; it answers with
    a response or rejects with a message) and [process.env]. *)
Class Outside := {
  World : Type;
  Date_now : World -> Z;
  setTimeout : Z -> World -> World;
  fetch :
    string -> option string -> string -> Params -> World ->
    (string + Response) * World;
  env : Security.Env
}.

Section Pipeline.

Context {outside : Outside}.

Record State := {
  storage : Storage;
  rateLimiter : RateLimiter.t;
  world : World;
  log : list Event
}.

Definition M (A : Type) : Type := State -> Result A * State.

Definition ret {A : Type} (a : A) : M A := fun s => (Ok a, s).

Definition bind {A B : Type} (m : M A) (k : A -> M B) : M B :=
  fun s =>
    match m s with
    | (Ok a, s') => k a s'
    | (Throw e, s') => (Throw e, s')
    end.

Definition throw {A : Type} (message : string) : M A :=
  fun s => (Throw message, s).

(** An expression that returns or throws without any effect. *)
Definition lift {A : Type} (r : Result A) : M A := fun s => (r, s).

(** [try { m } catch (error) { handler(error.message) }]: what [m] did
    before it threw stays done. *)
Definition try_catch {A : Type} (m : M A) (handler : string -> M A) : M A :=
  fun s =>
    match m s with
    | (Ok a, s') => (Ok a, s')
    | (Throw e, s') => handler e s'
    end.

Notation "x <- m ;; k" := (bind m (fun x => k))
  (at level 61, m at next level, right associativity).
Notation "m ;; k" := (bind m (fun _ => k))
  (at level 61, right associativity).

Definition emit (e : Event) : M unit :=
  fun s =>
    (Ok tt, {| storage := storage s; rateLimiter := rateLimiter s;
               world := world s; log := log s ++ [e] |}).

Definition console_error (label : string) : M unit :=
  emit (EvConsoleError label).

(** [for (const x of l) { body(x) }]. *)
Fixpoint forEach {A : Type} (l : list A) (body : A -> M unit) : M unit :=
  match l with
  | [] => ret tt
  | x :: rest => body x ;; forEach rest body
  end.

Definition with_storage {A : Type} (f : Storage -> A * Storage) : M A :=
  fun s =>
    let '(a, st) := f (storage s) in
    (Ok a, {| storage := st; rateLimiter := rateLimiter s;
              world := world s; log := log s |}).

Definition read_storage {A : Type} (f : Storage -> A) : M A :=
  fun s => (Ok (f (storage s)), s).

(** *** [storage.*] as the pipeline calls it *)

Definition storage_createRecordResult (insertResult : InsertRecordResult)
  : M RecordResult :=
  r <- with_storage (MemStorage.createRecordResult insertResult) ;;
  emit (EvCreateRecordResult r) ;;
  ret r.

Definition storage_updateRecordResult (rid : uuid) (updates : Patch)
  : M unit :=
  with_storage (fun st => (tt, MemStorage.updateRecordResult rid updates st)) ;;
  emit (EvUpdateRecordResult rid updates).

Definition storage_updateSessionStatus (sid : uuid) (st : string) : M unit :=
  with_storage (fun s => (tt, MemStorage.updateSessionStatus sid st s)) ;;
  emit (EvUpdateSessionStatus sid st).

Definition storage_createExecutionBatch (sid : uuid) (number : nat)
    (ids : list uuid) (st : string) : M ExecutionBatch :=
  b <- with_storage (MemStorage.createExecutionBatch sid number ids st) ;;
  emit (EvCreateExecutionBatch b) ;;
  ret b.

(** *** [rateLimiter.wait()] and [callBitrixAPI] *)

Definition rateLimiter_wait : M unit :=
  fun s =>
    let now := Date_now (world s) in
    let w :=
      match RateLimiter.waitTime (rateLimiter s) now with
      | Some delay => setTimeout delay (world s)
      | None => world s
      end in
    (Ok tt, {| storage := storage s;
               rateLimiter := RateLimiter.stamp (rateLimiter s) (Date_now w);
               world := w; log := log s |}).

Definition do_fetch (webhookUrl : string) (domain : option string)
    (method : string) (params : Params) : M Response :=
  fun s =>
    let '(r, w) := fetch webhookUrl domain method params (world s) in
    let s' := {| storage := storage s; rateLimiter := rateLimiter s;
                 world := w; log := log s |} in
    match r with
    | inl message => (Throw message, s')
    | inr response => (Ok response, s')
    end.

(** Returns the parsed body, of which the callers read [result] only. *)
Definition callBitrixAPI (domain : option string) (method : string)
    (params : Params) : M (option (list Entity)) :=
  emit (EvCall domain method params) ;;
  rateLimiter_wait ;;
  match Security.BITRIX_WEBHOOK_URL env with
  | None => throw "BITRIX_WEBHOOK_URL not configured"
  | Some webhookUrl =>
      if webhookUrl =? "" then throw "BITRIX_WEBHOOK_URL not configured"
      else
        response <- do_fetch webhookUrl domain method params ;;
        if negb (ok response) then
          throw ("Bitrix API error: " ++ statusCode response ++ " "
                 ++ statusText response)
        else ret (result response)
  end.

(** [x.result || []]. *)
Definition result_or_empty (body : option (list Entity)) : list Entity :=
  match body with
  | Some l => l
  | None => []
  end.

(** *** [searchInBitrix24] *)

Definition searchInBitrix24 (searchValue : Js.Value) (keyColumn : string)
    (target : TargetType) (domain : option string) : M (option Match) :=
  results <-
    match target with
    | both =>
        results1 <-
          try_catch
            (contactResult <-
               callBitrixAPI domain "crm.contact.list"
                 (ListParams keyColumn searchValue) ;;
             ret ([] ++ result_or_empty contactResult)%list)
            (fun _ => console_error "Contact search error:" ;; ret []) ;;
        try_catch
          (companyResult <-
             callBitrixAPI domain "crm.company.list"
               (ListParams keyColumn searchValue) ;;
           ret (results1 ++ result_or_empty companyResult)%list)
          (fun _ => console_error "Company search error:" ;; ret results1)
    | contacts =>
        body <- callBitrixAPI domain "crm.contact.list"
                  (ListParams keyColumn searchValue) ;;
        ret (result_or_empty body)
    | companies =>
        body <- callBitrixAPI domain "crm.company.list"
                  (ListParams keyColumn searchValue) ;;
        ret (result_or_empty body)
    end ;;
  match results with
  | [] => ret None
  | first :: _ :: _ => ret (Some {| entity := first; isDuplicate := true |})
  | first :: [] => ret (Some {| entity := first; isDuplicate := false |})
  end.

(** *** [processFileInBackground] *)

(** [Object.keys(row).filter(key => !keyColumns.includes(key))]. *)
Definition fieldsToUpdate (row : Row) (keyCols : list string) : list string :=
  filter (fun key => negb (Js.includes keyCols key)) (Js.keys row).

(** The entry passed to [createRecordResult] for a field of a matched row,
    given the object [searchResult.fields]; its current value is that of a
    column that is not named like a property of [Object.prototype]. *)
Definition foundEntry (sid : uuid) (i : nat) (keyCol : string)
    (searchValue : Js.Value) (searchResult : Match)
    (resultFields : list (string * string)) (row : Row) (fld : string)
  : InsertRecordResult :=
  {| i_sessionId := sid;
     i_rowIndex := i;
     i_searchKey := keyCol ++ ": " ++ Js.showValue (Some searchValue);
     i_bitrixId := id (entity searchResult);
     i_field := fld;
     i_currentValue := Some (Js.orString (Js.get resultFields fld) "");
     i_newValue := Js.orString (Js.get row fld) "";
     i_action := Some "update";
     i_status := Some "found";
     i_errorMessage := None;
     i_selected := Some true |}.

(** The object literal passed to [createRecordResult] for a field of a
    matched row: [searchResult.fields[field]] throws when the entity has no
    [fields]. *)
Definition foundRecord (sid : uuid) (i : nat) (keyCol : string)
    (searchValue : Js.Value) (searchResult : Match) (row : Row) (fld : string)
  : Result InsertRecordResult :=
  match fields (entity searchResult) with
  | Some resultFields =>
      Ok (foundEntry sid i keyCol searchValue searchResult resultFields row fld)
  | None =>
      Throw ("Cannot read properties of undefined (reading '" ++ fld ++ "')")
  end.

(** The entry passed to [createRecordResult] for a field of a row that no
    key column matched. *)
Definition notFoundRecord (sid : uuid) (i : nat) (keyCols : list string)
    (row : Row) (fld : string) : InsertRecordResult :=
  {| i_sessionId := sid;
     i_rowIndex := i;
     i_searchKey :=
       String.concat ", "
         (map (fun col => (col ++ ": " ++ Js.showValue (Js.read row col))%string)
              keyCols);
     i_bitrixId := None;
     i_field := fld;
     i_currentValue := None;
     i_newValue := Js.orString (Js.get row fld) "";
     i_action := Some "ignore";
     i_status := Some "not_found";
     i_errorMessage := None;
     i_selected := Some false |}.

(** The loop [for (const keyCol of keyColumns)] from [remaining] on;
    returns [found]. *)
Fixpoint tryKeyColumns (sid : uuid) (i : nat) (row : Row)
    (target : TargetType) (keyCols : list string) (domain : option string)
    (remaining : list string) : M bool :=
  match remaining with
  | [] => ret false
  | keyCol :: rest =>
      match Js.read row keyCol with
      | None => tryKeyColumns sid i row target keyCols domain rest
      | Some searchValue =>
          if negb (Js.truthyValue (Some searchValue)) then
            tryKeyColumns sid i row target keyCols domain rest
          else
            found <-
              try_catch
                (searchResult <-
                   searchInBitrix24 searchValue keyCol target domain ;;
                 match searchResult with
                 | Some m =>
                     forEach (fieldsToUpdate row keyCols)
                       (fun fld =>
                          insertResult <-
                            lift (foundRecord sid i keyCol searchValue m row
                                    fld) ;;
                          storage_createRecordResult insertResult ;;
                          ret tt) ;;
                     ret true
                 | None => ret false
                 end)
                (fun _ =>
                   console_error
                     ("Error searching for "
                      ++ Js.showValue (Some searchValue) ++ ":") ;;
                   ret false) ;;
            if found : bool then ret true
            else tryKeyColumns sid i row target keyCols domain rest
      end
  end.

(** The body of the loop over the rows. *)
Definition processRow (sid : uuid) (target : TargetType)
    (keyCols : list string) (domain : option string) (i : nat) (row : Row)
  : M unit :=
  found <- tryKeyColumns sid i row target keyCols domain keyCols ;;
  if found : bool then ret tt
  else
    forEach (fieldsToUpdate row keyCols)
      (fun fld =>
         storage_createRecordResult (notFoundRecord sid i keyCols row fld) ;;
         ret tt).

(** [for (let i = 0; i < data.length; i++)], from row [i] on. *)
Fixpoint processRows (sid : uuid) (target : TargetType)
    (keyCols : list string) (domain : option string) (i : nat)
    (data : list Row) : M unit :=
  match data with
  | [] => ret tt
  | row :: rest =>
      processRow sid target keyCols domain i row ;;
      processRows sid target keyCols domain (S i) rest
  end.

Definition processFileInBackground (sid : uuid) (data : list Row)
    (target : TargetType) (keyCols : list string) (domain : option string)
  : M unit :=
  try_catch
    (processRows sid target keyCols domain 0 data ;;
     storage_updateSessionStatus sid "preview")
    (fun _ =>
       console_error "Processing error:" ;;
       storage_updateSessionStatus sid "error").

(** *** [executeUpdatesInBackground] *)

Definition batchSize : nat := 50.

(** [recordIds.includes(r.id)]. *)
Definition includes_id (ids : list uuid) (x : uuid) : bool :=
  existsb (Nat.eqb x) ids.

(** The entries to execute: those named by the request, or else those
    selected, to be updated and matched. *)
Definition selectResults (recordIds : option (list uuid))
    (all : list RecordResult) : list RecordResult :=
  match recordIds with
  | Some ids => filter (fun r => includes_id ids (rr_id r)) all
  | None =>
      filter (fun r => selected r && (action r =? "update")
                       && Js.truthy (bitrixId r)) all
  end.

(** [for (let i = 0; i < results.length; i += batchSize)] from [i] on;
    returns what the loop pushes on [batches].  [fuel] bounds the number of
    iterations; the caller gives enough. *)
Fixpoint createBatches (fuel : nat) (sid : uuid) (results : list RecordResult)
    (i : nat) : M (list (list uuid)) :=
  match fuel with
  | O => ret []
  | S fuel' =>
      if (i <? List.length results)%nat then
        let batchRecords := Js.slice results i (i + batchSize) in
        storage_createExecutionBatch sid (i / batchSize + 1)
          (map rr_id batchRecords) "pending" ;;
        rest <- createBatches fuel' sid results (i + batchSize) ;;
        ret (map rr_id batchRecords :: rest)
      else ret []
  end.

(** The loop that sorts the entries of a batch into [contactUpdates] and
    [companyUpdates]; [startsWith] on a [null] identifier throws. *)
Fixpoint groupUpdates (batchResults : list RecordResult)
    (contactUpdates companyUpdates : list UpdateData)
  : Result (list UpdateData * list UpdateData) :=
  match batchResults with
  | [] => Ok (contactUpdates, companyUpdates)
  | r :: rest =>
      match bitrixId r with
      | None => Throw "Cannot read properties of null (reading 'startsWith')"
      | Some b =>
          let updateData :=
            {| u_id := b; u_field := field r; u_value := newValue r |} in
          if Js.startsWith b "C"
          then groupUpdates rest contactUpdates (companyUpdates ++ [updateData])
          else groupUpdates rest (contactUpdates ++ [updateData]) companyUpdates
      end
  end.

Definition completed_updates : Patch :=
  {| p_id := None; p_sessionId := None; p_rowIndex := None;
     p_searchKey := None; p_bitrixId := None; p_field := None;
     p_currentValue := None; p_newValue := None; p_action := None;
     p_status := Some "completed"; p_errorMessage := None;
     p_selected := None |}.

Definition error_updates (message : string) : Patch :=
  {| p_id := None; p_sessionId := None; p_rowIndex := None;
     p_searchKey := None; p_bitrixId := None; p_field := None;
     p_currentValue := None; p_newValue := None; p_action := None;
     p_status := Some "error"; p_errorMessage := Some (Some message);
     p_selected := None |}.

(** The body of [for (const batchRecordIds of batches)]. *)
Definition processBatch (results : list RecordResult)
    (domain : option string) (batchRecordIds : list uuid) : M unit :=
  let batchResults :=
    filter (fun r => includes_id batchRecordIds (rr_id r)) results in
  try_catch
    (updates <- lift (groupUpdates batchResults [] []) ;;
     let contactUpdates := fst updates in
     let companyUpdates := snd updates in
     (if (0 <? List.length contactUpdates)%nat
      then callBitrixAPI domain "crm.contact.batch"
             (BatchParams contactUpdates) ;; ret tt
      else ret tt) ;;
     (if (0 <? List.length companyUpdates)%nat
      then callBitrixAPI domain "crm.company.batch"
             (BatchParams companyUpdates) ;; ret tt
      else ret tt) ;;
     forEach batchResults
       (fun r => storage_updateRecordResult (rr_id r) completed_updates))
    (fun message =>
       console_error "Batch execution error:" ;;
       forEach batchResults
         (fun r => storage_updateRecordResult (rr_id r)
                     (error_updates message))).

Definition executeUpdatesInBackground (sid : uuid)
    (recordIds : option (list uuid)) (domain : option string) : M unit :=
  try_catch
    (all <- read_storage (fun st => MemStorage.getRecordResults st sid) ;;
     let results := selectResults recordIds all in
     batches <- createBatches (List.length results) sid results 0 ;;
     forEach batches (processBatch results domain) ;;
     storage_updateSessionStatus sid "completed")
    (fun _ =>
       console_error "Execution error:" ;;
       storage_updateSessionStatus sid "error").

(** *** [revertChangesInBackground] and the undo route *)

Definition reverted_updates (value : string) : Patch :=
  {| p_id := None; p_sessionId := None; p_rowIndex := None;
     p_searchKey := None; p_bitrixId := None; p_field := None;
     p_currentValue := None; p_newValue := Some value; p_action := None;
     p_status := Some "found"; p_errorMessage := None;
     p_selected := None |}.

Definition revertChangesInBackground (sid : uuid)
    (updatedRecords : list RecordResult) (domain : option string) : M unit :=
  try_catch
    (forEach updatedRecords
       (fun record =>
          match currentValue record with
          | Some value =>
              match bitrixId record with
              | None =>
                  throw "Cannot read properties of null (reading 'startsWith')"
              | Some b =>
                  callBitrixAPI domain
                    (if Js.startsWith b "C" then "crm.company.update"
                     else "crm.contact.update")
                    (UpdateParams {| u_id := b; u_field := field record;
                                     u_value := value |}) ;;
                  storage_updateRecordResult (rr_id record)
                    (reverted_updates value)
              end
          | None => ret tt
          end))
    (fun _ => console_error "Undo error:").

(** The entries the undo route hands to [revertChangesInBackground]:
    [results.filter(r => r.status === 'updated' && r.bitrixId)]. *)
Definition updatedRecordsOf (results : list RecordResult)
  : list RecordResult :=
  filter (fun r => (status r =? "updated") && Js.truthy (bitrixId r)) results.

(** *** The handlers behind [validateSecurity]

    A background task started by a handler is run to its end here, as when
    no other request arrives meanwhile. *)

(** [POST /api/undo/:sessionId]. *)
Definition post_api_undo (sid : uuid) (domain : option string)
  : M HttpReply :=
  try_catch
    (session <- read_storage (fun st => MemStorage.getSession st sid) ;;
     match session with
     | None => ret (JsonReply 404 "Session not found")
     | Some _ =>
         results <- read_storage (fun st => MemStorage.getRecordResults st sid) ;;
         revertChangesInBackground sid (updatedRecordsOf results) domain ;;
         ret (JsonReply 200 "Undo process started")
     end)
    (fun message => ret (JsonReply 500 message)).

(** [POST /api/process]. *)
Definition post_api_process (sid : uuid) (target : TargetType)
    (keyCols : list string) (domain : option string) : M HttpReply :=
  try_catch
    (session <- read_storage (fun st => MemStorage.getSession st sid) ;;
     match session with
     | None => ret (JsonReply 404 "Session not found")
     | Some session =>
         storage_updateSessionStatus sid "processing" ;;
         processFileInBackground sid (originalData session) target keyCols
           domain ;;
         ret (JsonReply 200 "Processing started")
     end)
    (fun message => ret (JsonReply 400 message)).

(** [POST /api/execute]. *)
Definition post_api_execute (sid : uuid) (recordIds : option (list uuid))
    (domain : option string) : M HttpReply :=
  try_catch
    (session <- read_storage (fun st => MemStorage.getSession st sid) ;;
     match session with
     | None => ret (JsonReply 404 "Session not found")
     | Some _ =>
         storage_updateSessionStatus sid "executing" ;;
         executeUpdatesInBackground sid recordIds domain ;;
         ret (JsonReply 200 "Execution started")
     end)
    (fun message => ret (JsonReply 400 message)).

(** [PATCH /api/preview/:sessionId]. *)
Definition patch_api_preview (updates : list (uuid * Patch)) : M HttpReply :=
  with_storage (fun st => (tt, MemStorage.updateRecordResults updates st)) ;;
  ret (JsonReply 200 "Records updated successfully").

(** [POST /api/upload], once the file is parsed and checked. *)
Definition post_api_upload (name : string) (size : nat) (target : TargetType)
    (keyCols : list string) (fileData : list Row) : M HttpReply :=
  with_storage
    (MemStorage.createSession
       {| us_id := 0; fileName := name; fileSize := size;
          totalRows := List.length fileData; targetType := target;
          keyColumns := keyCols; originalData := fileData;
          processedData := None; us_status := "uploaded" |}) ;;
  ret (JsonReply 200 "uploaded").

(** The requests that reach a handler, and a server run on a series of
    them. *)
Inductive Op :=
| Upload (name : string) (size : nat) (target : TargetType)
    (keyCols : list string) (fileData : list Row)
| Process (sid : uuid) (target : TargetType) (keyCols : list string)
    (domain : option string)
| Preview (updates : list (uuid * Patch))
| Execute (sid : uuid) (recordIds : option (list uuid))
    (domain : option string)
| Undo (sid : uuid) (domain : option string).

Definition handle (op : Op) : M HttpReply :=
  match op with
  | Upload name size target keyCols fileData =>
      post_api_upload name size target keyCols fileData
  | Process sid target keyCols domain =>
      post_api_process sid target keyCols domain
  | Preview updates => patch_api_preview updates
  | Execute sid recordIds domain => post_api_execute sid recordIds domain
  | Undo sid domain => post_api_undo sid domain
  end.

Fixpoint serve (ops : list Op) (s : State) : State :=
  match ops with
  | [] => s
  | op :: rest => serve rest (snd (handle op s))
  end.

(** *** Reading the log *)

Definition project {A : Type} (f : Event -> option A) (l : list Event)
  : list A :=
  flat_map (fun e => match f e with Some a => [a] | None => [] end) l.

(** The calls to [callBitrixAPI]: method and parameters. *)
Definition calls : list Event -> list (string * Params) :=
  project (fun e => match e with
                    | EvCall _ method params => Some (method, params)
                    | _ => None
                    end).

(** The entries created. *)
Definition created : list Event -> list RecordResult :=
  project (fun e => match e with
                    | EvCreateRecordResult r => Some r
                    | _ => None
                    end).

(** The entries updated, each with the update applied. *)
Definition updated : list Event -> list (uuid * Patch) :=
  project (fun e => match e with
                    | EvUpdateRecordResult rid updates => Some (rid, updates)
                    | _ => None
                    end).

(** The batch records created. *)
Definition batchesCreated : list Event -> list ExecutionBatch :=
  project (fun e => match e with
                    | EvCreateExecutionBatch b => Some b
                    | _ => None
                    end).

(** *** Words for the statements *)

(** The calls one search makes. *)
Definition searchCalls (target : TargetType) (keyCol : string)
    (searchValue : Js.Value) : list (string * Params) :=
  match target with
  | contacts => [("crm.contact.list", ListParams keyCol searchValue)]
  | companies => [("crm.company.list", ListParams keyCol searchValue)]
  | both => [("crm.contact.list", ListParams keyCol searchValue);
             ("crm.company.list", ListParams keyCol searchValue)]
  end.

(** [r] is the entry [createRecordResult] stores for [insertResult]. *)
Definition stored_as (insertResult : InsertRecordResult) (r : RecordResult)
  : Prop :=
  exists st, r = fst (MemStorage.createRecordResult insertResult st).

(** The loop that creates the entries of a matched row. *)
Definition createFoundRecords (sid : uuid) (i : nat) (row : Row)
    (keyCols : list string) (keyCol : string) (searchValue : Js.Value)
    (m : Match) : M unit :=
  forEach (fieldsToUpdate row keyCols)
    (fun fld =>
       insertResult <- lift (foundRecord sid i keyCol searchValue m row fld) ;;
       storage_createRecordResult insertResult ;;
       ret tt).

(** The key column has a value to search for in the row: [row[keyCol]] is
    truthy. *)
Definition hasValue (row : Row) (keyCol : string) : bool :=
  Js.truthyValue (Js.read row keyCol).

(** The value searched for under a key column that has one. *)
Definition searchValueOf (row : Row) (keyCol : string) : Js.Value :=
  match Js.read row keyCol with
  | Some v => v
  | None => Js.Text ""
  end.

(** The entries of the row can be built from the match: the entity has a
    [fields] object to read, or the row has no column to update. *)
Definition readable (row : Row) (keyCols : list string) (m : Match) : bool :=
  match fields (entity m), fieldsToUpdate row keyCols with
  | None, _ :: _ => false
  | _, _ => true
  end.

(** The loop over the key columns without the entries it creates: where it
    stops, if it does (the key column, the value searched for and the match
    returned by that search), and the state in which the entries are then
    created. *)
Fixpoint findMatch (row : Row) (target : TargetType) (keyCols : list string)
    (domain : option string) (remaining : list string)
  : M (option (string * Js.Value * Match)) :=
  match remaining with
  | [] => ret None
  | keyCol :: rest =>
      if hasValue row keyCol then
        fun s =>
          match searchInBitrix24 (searchValueOf row keyCol) keyCol target
                  domain s with
          | (Ok (Some m), s1) =>
              if readable row keyCols m
              then (Ok (Some (keyCol, searchValueOf row keyCol, m)), s1)
              else
                findMatch row target keyCols domain rest
                  (snd (console_error
                          ("Error searching for "
                           ++ Js.showValue (Some (searchValueOf row keyCol))
                           ++ ":") s1))
          | (Ok None, s1) => findMatch row target keyCols domain rest s1
          | (Throw _, s1) =>
              findMatch row target keyCols domain rest
                (snd (console_error
                        ("Error searching for "
                         ++ Js.showValue (Some (searchValueOf row keyCol))
                         ++ ":") s1))
          end
      else findMatch row target keyCols domain rest
  end.

(** The name is not one that every object inherits: [fields[fld]] is then
    the entity's own value or [undefined]. *)
Definition ownName (fld : string) : bool :=
  negb (Js.includes Js.prototypeNames fld).

(** What is stored for a field of a matched row. *)
Definition matched_entry (sid : uuid) (i : nat) (row : Row) (m : Match)
    (fld : string) (r : RecordResult) : Prop :=
  sessionId r = sid /\ rowIndex r = i /\ field r = fld
  /\ action r = "update" /\ status r = "found" /\ selected r = true
  /\ bitrixId r = Js.orNull (id (entity m))
  /\ (exists resultFields,
        fields (entity m) = Some resultFields
        /\ (ownName fld = true ->
            currentValue r = Js.orNull (Js.get resultFields fld)))
  /\ Js.get row fld = Some (newValue r).

(** What is stored for a field of a row that was not found. *)
Definition unmatched_entry (sid : uuid) (i : nat) (row : Row)
    (fld : string) (r : RecordResult) : Prop :=
  sessionId r = sid /\ rowIndex r = i /\ field r = fld
  /\ action r = "ignore" /\ status r = "not_found" /\ selected r = false
  /\ bitrixId r = None /\ currentValue r = None
  /\ Js.get row fld = Some (newValue r).

(** [ceil(n / batchSize)]. *)
Definition batchCount (n : nat) : nat := (n + (batchSize - 1)) / batchSize.

(** The identifiers of the entries [batchSize * k, batchSize * (k + 1)). *)
Definition batchIds (results : list RecordResult) (k : nat) : list uuid :=
  map rr_id (firstn batchSize (skipn (batchSize * k) results)).

(** The events of a loop that applies one update to each entry. *)
Definition updateEvents (updates : Patch) (l : list RecordResult)
  : list Event :=
  map (fun r => EvUpdateRecordResult (rr_id r) updates) l.

(** The part of a batch that comes before the statuses are written: the
    entries are sorted by kind and one bulk call is made per kind that has
    entries. *)
Definition bulkCalls (domain : option string)
    (batchResults : list RecordResult) : M unit :=
  updates <- lift (groupUpdates batchResults [] []) ;;
  (if (0 <? List.length (fst updates))%nat
   then callBitrixAPI domain "crm.contact.batch" (BatchParams (fst updates)) ;;
        ret tt
   else ret tt) ;;
  (if (0 <? List.length (snd updates))%nat
   then callBitrixAPI domain "crm.company.batch" (BatchParams (snd updates)) ;;
        ret tt
   else ret tt).

(** The update a batch writes on its entries. *)
Definition batchPatch (outcome : option string) : Patch :=
  match outcome with
  | None => completed_updates
  | Some message => error_updates message
  end.

(** The entries of a batch, as the executor picks them. *)
Definition batchResultsOf (results : list RecordResult) (ids : list uuid)
  : list RecordResult :=
  filter (fun r => includes_id ids (rr_id r)) results.

(** The updates written by the batches [batches], given the update each
    one writes. *)
Definition batchUpdates (results : list RecordResult)
    (batches : list (list uuid)) (outcomes : list (option string))
  : list (uuid * Patch) :=
  List.concat
    (map (fun bo =>
            map (fun r => (rr_id r, batchPatch (snd bo)))
                (batchResultsOf results (fst bo)))
         (combine batches outcomes)).

(** What became of the bulk calls of a batch: nothing when they went
    through, the message of what was thrown otherwise. *)
Definition outcomeOf {A : Type} (r : Result A) : option string :=
  match r with
  | Ok _ => None
  | Throw message => Some message
  end.

(** What became of the bulk calls of each of the batches [batches], run one
    after the other from [s]. *)
Fixpoint batchOutcomes (results : list RecordResult) (domain : option string)
    (batches : list (list uuid)) (s : State) : list (option string) :=
  match batches with
  | [] => []
  | batchRecordIds :: rest =>
      outcomeOf (fst (bulkCalls domain (batchResultsOf results batchRecordIds)
                        s))
      :: batchOutcomes results domain rest
           (snd (processBatch results domain batchRecordIds s))
  end.

(** What a loop that writes [updates] on the entries [ids] leaves under the
    identifier [x], given what was there. *)
Definition patched (ids : list uuid) (updates : Patch) (x : uuid)
    (before : option RecordResult) : option RecordResult :=
  if includes_id ids x
  then option_map (fun r => spread r updates) before
  else before.

(** What the undo loop does with one entry. *)
Definition revertOne (domain : option string) (record : RecordResult)
  : M unit :=
  match currentValue record with
  | Some value =>
      match bitrixId record with
      | None =>
          throw "Cannot read properties of null (reading 'startsWith')"
      | Some b =>
          callBitrixAPI domain
            (if Js.startsWith b "C" then "crm.company.update"
             else "crm.contact.update")
            (UpdateParams {| u_id := b; u_field := field record;
                             u_value := value |}) ;;
          storage_updateRecordResult (rr_id record) (reverted_updates value)
      end
  | None => ret tt
  end.

(** No entry of the storage has status [bad]. *)
Definition never (bad : string) (st : Storage) : Prop :=
  Forall (fun kv => status (snd kv) <> bad) (recordResults st).

(** [m] keeps it so. *)
Definition keeps (bad : string) {A : Type} (m : M A) : Prop :=
  forall s, never bad (storage s) -> never bad (storage (snd (m s))).

(** An update that does not write [bad]. *)
Definition harmless (bad : string) (updates : Patch) : bool :=
  match p_status updates with
  | Some st => negb (st =? bad)%string
  | None => true
  end.

(** A request whose body, if it is an edit of the preview, writes no
    [bad]. *)
Definition clean (bad : string) (op : Op) : bool :=
  match op with
  | Preview updates => forallb (fun u => harmless bad (snd u)) updates
  | _ => true
  end.

(** *** Words for what a run does to the storage *)

(** [m] takes every state to one that [R] relates to it. *)
Definition respects (R : State -> State -> Prop) {A : Type} (m : M A)
  : Prop :=
  forall s, R s (snd (m s)).

(** The relation of a step that keeps a property of the storage. *)
Definition preserving (I : Storage -> Prop) (s s' : State) : Prop :=
  I (storage s) -> I (storage s').

(** The keys of the storage are as [randomUUID()] and the [Map]s make them:
    the entries have distinct keys, each entry is kept under its own [id],
    and every key in use was drawn before. *)
Definition wellKeyed (st : Storage) : Prop :=
  NoDup (Map.keys (recordResults st))
  /\ Forall (fun kv => rr_id (snd kv) = fst kv /\ fst kv < randomUUID st)
            (recordResults st)
  /\ Forall (fun kv => fst kv < randomUUID st) (executionBatches st)
  /\ Forall (fun kv => fst kv < randomUUID st) (sessions st).

(** Every batch record is still as it was created. *)
Definition batchesPending (st : Storage) : Prop :=
  Forall (fun kv => eb_status (snd kv) = "pending") (executionBatches st).

(** An update that does not send an [id]. *)
Definition keepsId (updates : Patch) : bool :=
  match p_id updates with
  | None => true
  | Some _ => false
  end.

(** A request whose body, if it is an edit of the preview, sends only
    updates that pass [ok]. *)
Definition sends (ok : Patch -> bool) (op : Op) : bool :=
  match op with
  | Preview updates => forallb (fun u => ok (snd u)) updates
  | _ => true
  end.

(** The entries of a [Map] keyed by [id]. *)
Definition entriesOf (rs : list RecordResult) : list (uuid * RecordResult) :=
  map (fun r => (rr_id r, r)) rs.

(** The number of entries processing creates for a file: one per row and
    column that is not a key column. *)
Definition entryCount (keyCols : list string) (data : list Row) : nat :=
  list_sum (map (fun row => List.length (fieldsToUpdate row keyCols)) data).

(** What [updateSessionStatus] leaves of a session. *)
Definition frozen (u : UploadSession) :=
  (us_id u, fileName u, fileSize u, totalRows u, targetType u, keyColumns u,
   originalData u).

(** The sessions are those of before; only the status (and the processed
    data) of session [sid] may differ. *)
Definition sessionsKept (sid : uuid) (st st' : Storage) : Prop :=
  forall k,
    option_map frozen (Map.get (sessions st') k)
    = option_map frozen (Map.get (sessions st) k)
    /\ (k <> sid -> Map.get (sessions st') k = Map.get (sessions st) k).

(** What processing session [sid] does to a state whose keys are in order:
    it adds the entries it logs, all of the session and "found" or
    "not_found", after those there were, and leaves the batches and the other
    sessions alone. *)
Definition processed (sid : uuid) (s s' : State) : Prop :=
  wellKeyed (storage s) ->
  wellKeyed (storage s')
  /\ sessionsKept sid (storage s) (storage s')
  /\ executionBatches (storage s') = executionBatches (storage s)
  /\ exists new,
       log s' = log s ++ new
       /\ recordResults (storage s')
          = recordResults (storage s) ++ entriesOf (created new)
       /\ Forall (fun r => sessionId r = sid
                           /\ (status r = "found" \/ status r = "not_found"))
                 (created new).

(** The updates of [us] meant for the entry [k], in order. *)
Definition patchesFor (k : uuid) (us : list (uuid * Patch)) : list Patch :=
  map snd (filter (fun u => Nat.eqb (fst u) k) us).

(** An update as the executor writes them: the status, with or without an
    error message. *)
Definition statusOnly (u : Patch) : Prop :=
  u = completed_updates \/ exists message, u = error_updates message.

(** Two entries that differ at most in status and error message. *)
Definition sameButStatus (r r' : RecordResult) : Prop :=
  rr_id r' = rr_id r /\ sessionId r' = sessionId r
  /\ rowIndex r' = rowIndex r /\ searchKey r' = searchKey r
  /\ bitrixId r' = bitrixId r /\ field r' = field r
  /\ currentValue r' = currentValue r /\ newValue r' = newValue r
  /\ action r' = action r /\ selected r' = selected r.

(** The batch records of a [Map] keyed by [id]. *)
Definition batchEntriesOf (bs : list ExecutionBatch)
  : list (uuid * ExecutionBatch) :=
  map (fun b => (eb_id b, b)) bs.

(** What executing on session [sid] does to a state: the entries are those
    of before with the logged updates applied, every update being one of the
    executor's; and when the keys are in order, the batch records logged come
    after those there were. *)
Definition executed (sid : uuid) (s s' : State) : Prop :=
  exists new,
    log s' = log s ++ new
    /\ recordResults (storage s')
       = recordResults
           (MemStorage.updateRecordResults (updated new) (storage s))
    /\ Forall (fun u => statusOnly (snd u)) (updated new)
    /\ sessionsKept sid (storage s) (storage s')
    /\ (wellKeyed (storage s) ->
        wellKeyed (storage s')
        /\ executionBatches (storage s')
           = executionBatches (storage s)
             ++ batchEntriesOf (batchesCreated new)).

(** The entry has an external identifier. *)
Definition hasId (r : RecordResult) : bool :=
  match bitrixId r with
  | Some _ => true
  | None => false
  end.

(** The commands for the contacts among the entries, in their order: the
    entries whose identifier does not start with "C". *)
Definition contactUpdatesOf (l : list RecordResult) : list UpdateData :=
  flat_map
    (fun r =>
       match bitrixId r with
       | Some b =>
           if Js.startsWith b "C" then []
           else [{| u_id := b; u_field := field r; u_value := newValue r |}]
       | None => []
       end) l.

(** The commands for the companies among the entries. *)
Definition companyUpdatesOf (l : list RecordResult) : list UpdateData :=
  flat_map
    (fun r =>
       match bitrixId r with
       | Some b =>
           if Js.startsWith b "C"
           then [{| u_id := b; u_field := field r; u_value := newValue r |}]
           else []
       | None => []
       end) l.

(** What [searchInBitrix24] makes of the list of results: nothing, the only
    result, or the first one flagged as a duplicate. *)
Definition firstMatch (results : list Entity) : option Match :=
  match results with
  | [] => None
  | first :: rest =>
      Some {| entity := first;
              isDuplicate := match rest with [] => false | _ => true end |}
  end.

(** [POST /api/upload] in full (routes.ts 172-224), behind [validateSecurity]
    and [multer]: [file] is [req.file] (name and size), [body] is what
    [fileUploadSchema.parse(req.body)] returns or throws, and [parsed] what
    [parseFile] returns or throws for the file. *)
Definition post_api_upload_checked (file : option (string * nat))
    (body : Result (TargetType * list string)) (parsed : Result (list Row))
  : M HttpReply :=
  match file with
  | None => ret (JsonReply 400 "No file uploaded")
  | Some (originalname, size) =>
      try_catch
        (b <- lift body ;;
         fileData <- lift parsed ;;
         if (Z.of_nat (List.length fileData) =? 0)%Z then
           ret (JsonReply 400 "File is empty or could not be parsed")
         else if (100000 <? Z.of_nat (List.length fileData))%Z then
           ret (JsonReply 400 "File exceeds maximum of 100,000 rows")
         else
           let firstRow := hd [] fileData in
           let availableColumns := Js.keys firstRow in
           let invalidColumns :=
             filter (fun col => negb (Js.includes availableColumns col))
                    (snd b) in
           if (0 <? List.length invalidColumns)%nat then
             ret (JsonReply 400
                    ("Key columns not found: "
                     ++ String.concat ", " invalidColumns))
           else post_api_upload originalname size (fst b) (snd b) fileData)
        (fun message => ret (JsonReply 400 message))
  end.

End Pipeline.

Notation "x <- m ;; k" := (bind m (fun x => k))
  (at level 61, m at next level, right associativity).
Notation "m ;; k" := (bind m (fun _ => k))
  (at level 61, right associativity).

(** A scripted world, to run the pipeline on given replies: the clock and
    the replies still to come, each with the time the request takes. *)
Module Script.

Record World := {
  time : Z;
  replies : list (Z * (string + Response))
}.

Definition Date_now (w : World) : Z := time w.

Definition setTimeout (delay : Z) (w : World) : World :=
  {| time := (time w + delay)%Z; replies := replies w |}.

Definition fetch (webhookUrl : string) (domain : option string)
    (method : string) (params : Params) (w : World)
  : (string + Response) * World :=
  match replies w with
  | [] => (inl "fetch failed", w)
  | (dt, r) :: rest => (r, {| time := (time w + dt)%Z; replies := rest |})
  end.

Definition found_reply (l : list Entity) : Z * (string + Response) :=
  (50%Z, inr {| ok := true; statusCode := "200"; statusText := "OK";
                result := Some l |}).

Definition failed_reply (code text : string) : Z * (string + Response) :=
  (50%Z, inr {| ok := false; statusCode := code; statusText := text;
                result := None |}).

End Script.


(** ** Runs on a scripted CRM *)

Module Scenario.

Definition environment : Security.Env :=
  {| Security.APP_SECRET_TOKEN := Some "s3cret";
     Security.ALLOWED_DOMAINS := Some "a.bitrix24.com,b.bitrix24.com";
     Security.BITRIX_WEBHOOK_URL := Some "https://{domain}/rest/1/key/" |}.

(** The server's surroundings in these runs. *)
Definition crm : Outside :=
  {| World := Script.World;
     Date_now := Script.Date_now;
     setTimeout := Script.setTimeout;
     fetch := Script.fetch;
     env := environment |}.

Definition domain : option string := Some "a.bitrix24.com".

(** A server just started, facing a CRM that will give [replies]. *)
Definition boot (replies : list (Z * (string + Response)))
  : @State crm :=
  @Build_State crm emptyStorage RateLimiter.initial
    {| Script.time := 1000; Script.replies := replies |} [].

Definition serve : list Op -> @State crm -> @State crm := serve.

Definition entries (s : @State crm) : list RecordResult :=
  Map.values (recordResults (storage s)).

(** What a run added to the log. *)
Definition since (before after : @State crm) : list Event :=
  skipn (List.length (log before)) (log after).

Definition contact12 : Entity :=
  {| id := Some "12"; fields := Some [("NAME", "Old")] |}.

Definition contact13 : Entity :=
  {| id := Some "13"; fields := Some [("NAME", "Other")] |}.


Definition companyC14 : Entity :=
  {| id := Some "C14"; fields := Some [("NAME", "Acme")] |}.

Definition upload (rows : list Row) (target : TargetType) : Op :=
  Upload "rows.csv" 64 target ["EMAIL"] rows.

(** One row whose e-mail matches one contact; the bulk call goes through. *)
Definition one_found : @State crm :=
  serve [upload [[("EMAIL", "a@x"); ("NAME", "New")]] contacts;
         Process 0 contacts ["EMAIL"] domain]
        (boot [Script.found_reply [contact12];
               Script.found_reply []]).

Definition one_executed : @State crm :=
  serve [Execute 0 None domain] one_found.

Definition one_undone : @State crm :=
  serve [Undo 0 domain] one_executed.

(** One row whose e-mail matches two contacts. *)
Definition two_matches : @State crm :=
  serve [upload [[("EMAIL", "c@x"); ("NAME", "Cee")]] contacts;
         Process 0 contacts ["EMAIL"] domain]
        (boot [Script.found_reply [contact12; contact13]]).


(** Two rows, one matched to a contact and one to a company; on execution
    the bulk call for the contacts goes through and the one for the
    companies is answered 500. *)
Definition mixed_found : @State crm :=
  serve [upload [[("EMAIL", "a@x"); ("NAME", "New")];
                 [("EMAIL", "b@x"); ("NAME", "Bee")]] both;
         Process 0 both ["EMAIL"] domain]
        (boot [Script.found_reply [contact12]; Script.found_reply [];
               Script.found_reply []; Script.found_reply [companyC14];
               Script.found_reply [];
               Script.failed_reply "500" "Internal Server Error"]).

Definition mixed_executed : @State crm :=
  serve [Execute 0 None domain] mixed_found.

(** Key columns [A] then [B], and a row with no value in [A]. *)
Definition second_key : @State crm :=
  serve [Upload "rows.csv" 64 contacts ["A"; "B"]
           [[("A", ""); ("B", "b1"); ("NAME", "New")]];
         Process 0 contacts ["A"; "B"] domain]
        (boot [Script.found_reply [contact12]]).

(** Key columns [A] then [B]; the search on [A] is answered 502, the one
    on [B] finds a contact. *)
Definition first_key_throws : @State crm :=
  serve [Upload "rows.csv" 64 contacts ["A"; "B"]
           [[("A", "a1"); ("B", "b1"); ("NAME", "New")]];
         Process 0 contacts ["A"; "B"] domain]
        (boot [Script.failed_reply "502" "Bad Gateway";
               Script.found_reply [contact12]]).

(** Three lone calls: the second is asked for 100 ms after the first was
    sent, the third 700 ms after the second; timers are on time. *)
Definition lone_calls : list RateLimiter.Call :=
  [{| RateLimiter.idle := 0; RateLimiter.late := 0 |};
   {| RateLimiter.idle := 100; RateLimiter.late := 0 |};
   {| RateLimiter.idle := 700; RateLimiter.late := 0 |}].

(** Upload, processing, an edit of a new value, execution and undo. *)
Definition whole_run : list Op :=
  [upload [[("EMAIL", "a@x"); ("NAME", "New")]] contacts;
   Process 0 contacts ["EMAIL"] domain;
   Preview [(1, {| p_id := None; p_sessionId := None; p_rowIndex := None;
                   p_searchKey := None; p_bitrixId := None; p_field := None;
                   p_currentValue := None; p_newValue := Some "Newer";
                   p_action := None; p_status := None;
                   p_errorMessage := None; p_selected := None |})];
   Execute 0 None domain;
   Undo 0 domain].

Definition whole_run_boot : @State crm :=
  boot [Script.found_reply [contact12]; Script.found_reply []].

(** The same surroundings without [BITRIX_WEBHOOK_URL]. *)
Definition offline : Outside :=
  {| World := Script.World;
     Date_now := Script.Date_now;
     setTimeout := Script.setTimeout;
     fetch := Script.fetch;
     env := {| Security.APP_SECRET_TOKEN := Some "s3cret";
               Security.ALLOWED_DOMAINS := None;
               Security.BITRIX_WEBHOOK_URL := None |} |}.

Definition offline_boot : @State offline :=
  @Build_State offline emptyStorage RateLimiter.initial
    {| Script.time := 1000; Script.replies := [] |} [].

(** Two tasks that take turns at the limiter: the second invokes
    [callBitrixAPI] 100 ms after the first was sent and sleeps 400 ms. *)
Definition in_turn : list RateLimiter.Step :=
  [RateLimiter.Invoke 1 1000; RateLimiter.Invoke 2 1100;
   RateLimiter.TimerFires 2 1500].

Definition in_turn_end : RateLimiter.Loop :=
  {| RateLimiter.limiter :=
       {| RateLimiter.lastCall := 1500; RateLimiter.minInterval := 500 |};
     RateLimiter.clock := 1500;
     RateLimiter.sleeping := [];
     RateLimiter.started := [(1, 1000%Z); (2, 1500%Z)] |}.

(** An entry with a current value and an identifier, as a preview edit that
    sends the status "updated" would leave it. *)
Definition updated_entry : RecordResult :=
  {| rr_id := 1; sessionId := 0; rowIndex := 0; searchKey := "EMAIL: a@x";
     bitrixId := Some "12"; field := "NAME"; currentValue := Some "Old";
     newValue := "New"; action := "update"; status := "updated";
     errorMessage := None; selected := true |}.

(** A server whose CRM answers 500 to the next request. *)
Definition failing : @State crm :=
  boot [Script.failed_reply "500" "Internal Server Error"].

(** An entry without an identifier, as the matcher stores a field of a row
    that was not found. *)
Definition unmatched : RecordResult :=
  {| rr_id := 2; sessionId := 0; rowIndex := 1; searchKey := "EMAIL: z@x";
     bitrixId := None; field := "NAME"; currentValue := None;
     newValue := "Zed"; action := "ignore"; status := "not_found";
     errorMessage := None; selected := false |}.

(** A storage with two sessions, each with one entry and one batch. *)
Definition two_sessions : Storage :=
  {| sessions := [];
     recordResults :=
       [(1, updated_entry);
        (2, {| rr_id := 2; sessionId := 5; rowIndex := 0;
               searchKey := "EMAIL: b@x"; bitrixId := Some "C14";
               field := "NAME"; currentValue := None; newValue := "Bee";
               action := "update"; status := "found"; errorMessage := None;
               selected := true |})];
     executionBatches :=
       [(3, {| eb_id := 3; eb_sessionId := 0; batchNumber := 1;
               recordIds := [1]; eb_status := "pending"; errors := None |});
        (4, {| eb_id := 4; eb_sessionId := 5; batchNumber := 1;
               recordIds := [2]; eb_status := "pending"; errors := None |})];
     randomUUID := 6 |}.

(** A row of a file, with one key column and two others. *)
Definition a_row : Row := [("EMAIL", "a@x"); ("NAME", "New"); ("PHONE", "1")].

(** A file of one row, uploaded and not yet processed. *)
Definition uploaded : @State crm :=
  serve [upload [[("EMAIL", "a@x"); ("NAME", "New")]] contacts]
        (boot [Script.found_reply [contact12]]).

Definition uploaded_session : UploadSession :=
  {| us_id := 0; fileName := "rows.csv"; fileSize := 64; totalRows := 1;
     targetType := contacts; keyColumns := ["EMAIL"];
     originalData := [[("EMAIL", "a@x"); ("NAME", "New")]];
     processedData := None; us_status := "uploaded" |}.



(** An edit of the preview that sends a status and nothing else. *)
Definition edit_status (st : string) : Patch :=
  {| p_id := None; p_sessionId := None; p_rowIndex := None;
     p_searchKey := None; p_bitrixId := None; p_field := None;
     p_currentValue := None; p_newValue := None; p_action := None;
     p_status := Some st; p_errorMessage := None; p_selected := None |}.

(** One matched row, and an edit of the preview that sends the status
    "success" for its entry. *)
Definition edited_success : @State crm :=
  serve [Preview [(1, edit_status "success")]] one_found.

(** One row that no contact matches. *)
Definition not_found_row : @State crm :=
  serve [upload [[("EMAIL", "z@x"); ("NAME", "Zed")]] contacts;
         Process 0 contacts ["EMAIL"] domain]
        (boot [Script.found_reply []]).

(** The entry of that row. *)
Definition lost_entry : RecordResult :=
  {| rr_id := 1; sessionId := 0; rowIndex := 0; searchKey := "EMAIL: z@x";
     bitrixId := None; field := "NAME"; currentValue := None;
     newValue := "Zed"; action := "ignore"; status := "not_found";
     errorMessage := None; selected := false |}.

(** A server without a webhook whose storage holds two sessions. *)
Definition offline_two : @State offline :=
  @Build_State offline two_sessions RateLimiter.initial
    {| Script.time := 1000; Script.replies := [] |} [].

(** The entries selected by default in [mixed_found], the batches made of
    them and what becomes of their bulk calls. *)
Definition mixed_results : list RecordResult :=
  selectResults None (MemStorage.getRecordResults (storage mixed_found) 0).

Definition mixed_batches : list (list uuid) :=
  map (batchIds mixed_results)
      (seq 0 (batchCount (List.length mixed_results))).

Definition mixed_outcomes : list (option string) :=
  batchOutcomes mixed_results domain mixed_batches
    (snd (createBatches (List.length mixed_results) 0 mixed_results 0
            mixed_found)).

(** The entry of the row matched to the contact in [mixed_found]. *)
Definition contact_entry : RecordResult :=
  {| rr_id := 1; sessionId := 0; rowIndex := 0; searchKey := "EMAIL: a@x";
     bitrixId := Some "12"; field := "NAME"; currentValue := Some "Old";
     newValue := "New"; action := "update"; status := "found";
     errorMessage := None; selected := true |}.

End Scenario.

(** ** Facts about the monad and the log *)

Section Facts.

Context {outside : Outside}.


Lemma project_app {A : Type} (f : Event -> option A) (l1 l2 : list Event) :
  project f (l1 ++ l2) = project f l1 ++ project f l2.
Proof. unfold project. apply flat_map_app. Qed.

(** Every use of [callBitrixAPI] is logged once, whatever comes of it. *)
Lemma callBitrixAPI_log domain method params s :
  log (snd (callBitrixAPI domain method params s))
  = log s ++ [EvCall domain method params].
Proof.
  unfold callBitrixAPI, bind, emit, rateLimiter_wait; simpl.
  destruct (Security.BITRIX_WEBHOOK_URL env) as [url|]; [|reflexivity].
  destruct (url =? "")%string; [reflexivity|].
  unfold do_fetch; simpl.
  destruct (fetch _ _ _ _ _) as [[msg|response] w]; simpl; [reflexivity|].
  destruct (ok response); reflexivity.
Qed.

(** [callBitrixAPI] leaves the storage alone. *)
Lemma callBitrixAPI_storage domain method params s :
  storage (snd (callBitrixAPI domain method params s)) = storage s.
Proof.
  unfold callBitrixAPI, bind, emit, rateLimiter_wait; simpl.
  destruct (Security.BITRIX_WEBHOOK_URL env) as [url|]; [|reflexivity].
  destruct (url =? "")%string; [reflexivity|].
  unfold do_fetch; simpl.
  destruct (fetch _ _ _ _ _) as [[msg|response] w]; simpl; [reflexivity|].
  destruct (ok response); reflexivity.
Qed.

(** [callBitrixAPI] stamps the limiter with the time at which [wait()]
    ends, whether the request then succeeds or throws. *)
Lemma callBitrixAPI_stamps domain method params s :
  let now := Date_now (world s) in
  let resumed :=
    match RateLimiter.waitTime (rateLimiter s) now with
    | Some delay => Date_now (setTimeout delay (world s))
    | None => now
    end in
  rateLimiter (snd (callBitrixAPI domain method params s))
  = RateLimiter.stamp (rateLimiter s) resumed.
Proof.
  unfold callBitrixAPI, bind, emit, rateLimiter_wait; simpl.
  assert (E : Date_now
                match RateLimiter.waitTime (rateLimiter s) (Date_now (world s)) with
                | Some delay => setTimeout delay (world s)
                | None => world s
                end
              = match RateLimiter.waitTime (rateLimiter s) (Date_now (world s)) with
                | Some delay => Date_now (setTimeout delay (world s))
                | None => Date_now (world s)
                end)
    by (destruct (RateLimiter.waitTime _ _); reflexivity).
  destruct (Security.BITRIX_WEBHOOK_URL env) as [url|]; simpl;
    [|rewrite E; reflexivity].
  destruct (url =? "")%string; simpl; [rewrite E; reflexivity|].
  unfold do_fetch; simpl.
  destruct (fetch _ _ _ _ _) as [[msg|response] w]; simpl;
    [rewrite E; reflexivity|].
  destruct (ok response); simpl; rewrite E; reflexivity.
Qed.

(** *** Lookups after [Map.set] *)

Lemma Map_get_set_same {V : Type} (m : list (uuid * V)) k v :
  Map.get (Map.set m k v) k = Some v.
Proof.
  induction m as [|[k0 v0] m IH]; cbn [Map.set Map.get].
  - rewrite Nat.eqb_refl. reflexivity.
  - destruct (Nat.eqb k0 k) eqn:E; cbn [Map.get].
    + rewrite Nat.eqb_refl. reflexivity.
    + rewrite E. exact IH.
Qed.

Lemma Map_get_set_ne {V : Type} (m : list (uuid * V)) k k' v :
  k' <> k -> Map.get (Map.set m k v) k' = Map.get m k'.
Proof.
  intros N. induction m as [|[k0 v0] m IH]; simpl.
  - destruct (Nat.eqb_spec k k'); [congruence|reflexivity].
  - destruct (Nat.eqb_spec k0 k) as [->|N0]; simpl.
    + destruct (Nat.eqb_spec k k'); [congruence|reflexivity].
    + destruct (Nat.eqb k0 k'); [reflexivity|exact IH].
Qed.

(** *** The matcher *)

(** A search makes its calls and creates nothing, whether it returns or
    throws. *)
Lemma searchInBitrix24_log searchValue keyCol target domain s :
  exists new,
    log (snd (searchInBitrix24 searchValue keyCol target domain s))
    = log s ++ new
    /\ calls new = searchCalls target keyCol searchValue
    /\ created new = [].
Proof.
  unfold searchInBitrix24.
  destruct target.
  - (* contacts *)
    exists [EvCall domain "crm.contact.list" (ListParams keyCol searchValue)].
    split; [|split; reflexivity].
    pose proof (callBitrixAPI_log domain "crm.contact.list"
                  (ListParams keyCol searchValue) s) as L.
    unfold bind at 1. unfold bind at 1.
    destruct (callBitrixAPI _ _ _ s) as [[body|e] s1]; simpl in *; [|exact L].
    unfold ret.
    destruct (result_or_empty body) as [|first [|second rest]]; exact L.
  - (* companies *)
    exists [EvCall domain "crm.company.list" (ListParams keyCol searchValue)].
    split; [|split; reflexivity].
    pose proof (callBitrixAPI_log domain "crm.company.list"
                  (ListParams keyCol searchValue) s) as L.
    unfold bind at 1. unfold bind at 1.
    destruct (callBitrixAPI _ _ _ s) as [[body|e] s1]; simpl in *; [|exact L].
    unfold ret.
    destruct (result_or_empty body) as [|first [|second rest]]; exact L.
  - (* both *)
    pose proof (callBitrixAPI_log domain "crm.contact.list"
                  (ListParams keyCol searchValue) s) as L1.
    unfold bind at 1. unfold bind at 1. unfold try_catch at 1.
    unfold bind at 1.
    destruct (callBitrixAPI _ _ _ s) as [[body1|e1] s1]; simpl in L1 |- *.
    + pose proof (callBitrixAPI_log domain "crm.company.list"
                    (ListParams keyCol searchValue) s1) as L2.
      unfold try_catch at 1. unfold bind at 1.
      destruct (callBitrixAPI _ _ _ s1) as [[body2|e2] s2]; simpl in L2 |- *.
      * exists [EvCall domain "crm.contact.list" (ListParams keyCol searchValue);
                EvCall domain "crm.company.list" (ListParams keyCol searchValue)].
        split; [|split; reflexivity].
        destruct (result_or_empty body1 ++ result_or_empty body2)
          as [|first [|second rest]]; simpl;
          rewrite L2, L1, <- app_assoc; reflexivity.
      * exists [EvCall domain "crm.contact.list" (ListParams keyCol searchValue);
                EvCall domain "crm.company.list" (ListParams keyCol searchValue);
                EvConsoleError "Company search error:"].
        split; [|split; reflexivity].
        destruct (result_or_empty body1) as [|first [|second rest]]; simpl;
          rewrite L2, L1, <- !app_assoc; reflexivity.
    + pose proof (callBitrixAPI_log domain "crm.company.list"
                    (ListParams keyCol searchValue)
                    (snd (console_error "Contact search error:" s1))) as L2.
      simpl in L2.
      unfold try_catch at 1. unfold bind at 1.
      destruct (callBitrixAPI _ _ _ _) as [[body2|e2] s2]; simpl in L2 |- *.
      * exists [EvCall domain "crm.contact.list" (ListParams keyCol searchValue);
                EvConsoleError "Contact search error:";
                EvCall domain "crm.company.list" (ListParams keyCol searchValue)].
        split; [|split; reflexivity].
        destruct (result_or_empty body2) as [|first [|second rest]]; simpl;
          rewrite L2, L1, <- !app_assoc; reflexivity.
      * exists [EvCall domain "crm.contact.list" (ListParams keyCol searchValue);
                EvConsoleError "Contact search error:";
                EvCall domain "crm.company.list" (ListParams keyCol searchValue);
                EvConsoleError "Company search error:"].
        split; [|split; reflexivity].
        simpl. rewrite L2, L1, <- !app_assoc; reflexivity.
Qed.

Lemma storage_createRecordResult_run insertResult s :
  storage_createRecordResult insertResult s
  = (Ok (fst (MemStorage.createRecordResult insertResult (storage s))),
     {| storage := snd (MemStorage.createRecordResult insertResult (storage s));
        rateLimiter := rateLimiter s;
        world := world s;
        log := log s
               ++ [EvCreateRecordResult
                     (fst (MemStorage.createRecordResult insertResult
                             (storage s)))] |}).
Proof. reflexivity. Qed.

Lemma created_map rs : created (map EvCreateRecordResult rs) = rs.
Proof. induction rs as [|r rs IH]; simpl; [reflexivity|]. f_equal. exact IH. Qed.

Lemma calls_map_created rs : calls (map EvCreateRecordResult rs) = [].
Proof. induction rs as [|r rs IH]; simpl; [reflexivity|exact IH]. Qed.

Lemma forEach_cons_Ok {A : Type} (x : A) rest (body : A -> M unit) s s1 :
  body x s = (Ok tt, s1) ->
  forEach (x :: rest) body s = forEach rest body s1.
Proof. intros H. simpl. unfold bind. rewrite H. reflexivity. Qed.

Lemma forEach_cons_Throw {A : Type} (x : A) rest (body : A -> M unit) s e s1 :
  body x s = (Throw e, s1) ->
  forEach (x :: rest) body s = (Throw e, s1).
Proof. intros H. simpl. unfold bind. rewrite H. reflexivity. Qed.

Lemma create_then_ret insertResult s :
  (storage_createRecordResult insertResult ;; ret tt) s
  = (Ok tt, snd (storage_createRecordResult insertResult s)).
Proof. reflexivity. Qed.

(** A loop that creates one entry per field creates exactly those, in
    order, and returns. *)
Lemma forEach_create (mk : string -> InsertRecordResult) flds :
  forall s,
  exists rs,
    forEach flds (fun fld => storage_createRecordResult (mk fld) ;; ret tt) s
    = (Ok tt, snd (forEach flds
                     (fun fld => storage_createRecordResult (mk fld) ;; ret tt) s))
    /\ log (snd (forEach flds
                   (fun fld => storage_createRecordResult (mk fld) ;; ret tt) s))
       = log s ++ map EvCreateRecordResult rs
    /\ Forall2 (fun fld r => stored_as (mk fld) r) flds rs.
Proof.
  induction flds as [|fld rest IH]; intros s.
  - exists []. simpl. rewrite app_nil_r. repeat split. constructor.
  - rewrite (forEach_cons_Ok fld rest _ s _
               (create_then_ret (mk fld) s)).
    destruct (IH (snd (storage_createRecordResult (mk fld) s)))
      as (rs & E & L & F).
    exists (fst (MemStorage.createRecordResult (mk fld) (storage s)) :: rs).
    split; [exact E|]. split.
    + rewrite L. simpl. rewrite <- app_assoc. reflexivity.
    + constructor; [|exact F]. exists (storage s). reflexivity.
Qed.

Lemma forEach_ext {A : Type} (l : list A) (f g : A -> M unit) :
  (forall x s, f x s = g x s) ->
  forall s, forEach l f s = forEach l g s.
Proof.
  intros H. induction l as [|x l IH]; intros s; cbn [forEach];
    [reflexivity|].
  unfold bind. rewrite H.
  destruct (g x s) as [[[]|e] s1]; [apply IH|reflexivity].
Qed.

(** A search leaves the storage alone. *)
Lemma searchInBitrix24_storage searchValue keyCol target domain s :
  storage (snd (searchInBitrix24 searchValue keyCol target domain s))
  = storage s.
Proof.
  unfold searchInBitrix24.
  destruct target.
  - pose proof (callBitrixAPI_storage domain "crm.contact.list"
                  (ListParams keyCol searchValue) s) as L.
    unfold bind at 1. unfold bind at 1.
    destruct (callBitrixAPI _ _ _ s) as [[body|e] s1]; simpl in *; [|exact L].
    unfold ret.
    destruct (result_or_empty body) as [|first [|second rest]]; exact L.
  - pose proof (callBitrixAPI_storage domain "crm.company.list"
                  (ListParams keyCol searchValue) s) as L.
    unfold bind at 1. unfold bind at 1.
    destruct (callBitrixAPI _ _ _ s) as [[body|e] s1]; simpl in *; [|exact L].
    unfold ret.
    destruct (result_or_empty body) as [|first [|second rest]]; exact L.
  - pose proof (callBitrixAPI_storage domain "crm.contact.list"
                  (ListParams keyCol searchValue) s) as L1.
    unfold bind at 1. unfold bind at 1. unfold try_catch at 1.
    unfold bind at 1.
    destruct (callBitrixAPI _ _ _ s) as [[body1|e1] s1]; simpl in L1 |- *.
    + pose proof (callBitrixAPI_storage domain "crm.company.list"
                    (ListParams keyCol searchValue) s1) as L2.
      unfold try_catch at 1. unfold bind at 1.
      destruct (callBitrixAPI _ _ _ s1) as [[body2|e2] s2]; simpl in L2 |- *.
      * destruct (result_or_empty body1 ++ result_or_empty body2)
          as [|first [|second rest]]; simpl; rewrite L2, L1; reflexivity.
      * destruct (result_or_empty body1) as [|first [|second rest]]; simpl;
          rewrite L2, L1; reflexivity.
    + pose proof (callBitrixAPI_storage domain "crm.company.list"
                    (ListParams keyCol searchValue)
                    (snd (console_error "Contact search error:" s1))) as L2.
      simpl in L2.
      unfold try_catch at 1. unfold bind at 1.
      destruct (callBitrixAPI _ _ _ _) as [[body2|e2] s2]; simpl in L2 |- *.
      * destruct (result_or_empty body2) as [|first [|second rest]]; simpl;
          rewrite L2, L1; reflexivity.
      * simpl. rewrite L2, L1; reflexivity.
Qed.

Section Matcher.

Variable sid : uuid.
Variable i : nat.
Variable row : Row.
Variable target : TargetType.
Variable keyCols : list string.
Variable domain : option string.

Local Abbreviation probe := (tryKeyColumns sid i row target keyCols domain).
Local Abbreviation createFound := (createFoundRecords sid i row keyCols).
Local Abbreviation find := (findMatch row target keyCols domain).
Local Abbreviation searchError keyCol :=
  (console_error
     ("Error searching for "
      ++ Js.showValue (Some (searchValueOf row keyCol)) ++ ":")).

(** The entries of a match whose entity has a [fields] object. *)
Lemma createFound_fields keyCol v m resultFields s :
  fields (entity m) = Some resultFields ->
  createFound keyCol v m s
  = forEach (fieldsToUpdate row keyCols)
      (fun fld =>
         storage_createRecordResult
           (foundEntry sid i keyCol v m resultFields row fld) ;;
         ret tt) s.
Proof.
  intros F. unfold createFoundRecords. apply forEach_ext.
  intros fld s'. unfold foundRecord. rewrite F. reflexivity.
Qed.

(** Reading a field of an entity without [fields] throws before anything
    is created. *)
Lemma createFound_unreadable keyCol v m s :
  readable row keyCols m = false ->
  exists e, createFound keyCol v m s = (Throw e, s).
Proof.
  unfold readable, createFoundRecords.
  destruct (fields (entity m)) as [f|] eqn:F; [discriminate|].
  destruct (fieldsToUpdate row keyCols) as [|fld flds]; [discriminate|].
  intros _. eexists. cbn [forEach]. unfold bind, lift, foundRecord.
  rewrite F. reflexivity.
Qed.

(** Otherwise one entry is created per field to update. *)
Lemma createFound_readable keyCol v m s :
  readable row keyCols m = true ->
  exists rs,
    createFound keyCol v m s = (Ok tt, snd (createFound keyCol v m s))
    /\ log (snd (createFound keyCol v m s))
       = log s ++ map EvCreateRecordResult rs
    /\ Forall2
         (fun fld r =>
            exists insertResult,
              foundRecord sid i keyCol v m row fld = Ok insertResult
              /\ stored_as insertResult r)
         (fieldsToUpdate row keyCols) rs.
Proof.
  unfold readable. intros RD.
  destruct (fields (entity m)) as [f|] eqn:F.
  - rewrite (createFound_fields keyCol v m f s F).
    destruct (forEach_create (foundEntry sid i keyCol v m f row)
                (fieldsToUpdate row keyCols) s) as (rs & E & L & A).
    exists rs. split; [exact E|]. split; [exact L|].
    revert A. apply Forall2_impl. intros fld r A.
    exists (foundEntry sid i keyCol v m f row fld).
    split; [unfold foundRecord; rewrite F; reflexivity|exact A].
  - unfold createFoundRecords.
    destruct (fieldsToUpdate row keyCols) as [|fld flds]; [|discriminate].
    exists []. cbn. rewrite app_nil_r. repeat split. constructor.
Qed.

(** What one turn of the loop over the key columns does. *)
Lemma tryKeyColumns_cons keyCol rest s :
  probe (keyCol :: rest) s
  = if hasValue row keyCol then
      match searchInBitrix24 (searchValueOf row keyCol) keyCol target domain s
      with
      | (Ok (Some m), s1) =>
          if readable row keyCols m
          then (Ok true,
                snd (createFound keyCol (searchValueOf row keyCol) m s1))
          else probe rest (snd (searchError keyCol s1))
      | (Ok None, s1) => probe rest s1
      | (Throw e, s1) => probe rest (snd (searchError keyCol s1))
      end
    else probe rest s.
Proof.
  cbn [tryKeyColumns]. unfold hasValue, searchValueOf.
  destruct (Js.read row keyCol) as [v|]; [|reflexivity].
  destruct (Js.truthyValue (Some v)) eqn:T; cbn [negb]; [|reflexivity].
  unfold bind at 1. unfold try_catch at 1. unfold bind at 1.
  destruct (searchInBitrix24 v keyCol target domain s) as [[[m|]|e] s1].
  - unfold bind at 1.
    destruct (readable row keyCols m) eqn:RD.
    + destruct (createFound_readable keyCol v m s1 RD) as (rs & E & _).
      unfold createFoundRecords in *. rewrite E. reflexivity.
    + destruct (createFound_unreadable keyCol v m s1 RD) as (e & E).
      unfold createFoundRecords in *. rewrite E. reflexivity.
  - reflexivity.
  - reflexivity.
Qed.

(** The loop over the key columns is the search for a match followed by the
    entries of the match. *)
Lemma tryKeyColumns_findMatch remaining :
  forall s,
    probe remaining s
    = match find remaining s with
      | (Ok (Some (keyCol, searchValue, m)), s1) =>
          (Ok true, snd (createFound keyCol searchValue m s1))
      | (Ok None, s1) => (Ok false, s1)
      | (Throw e, s1) => (Throw e, s1)
      end.
Proof.
  induction remaining as [|keyCol rest IH]; intros s; [reflexivity|].
  rewrite tryKeyColumns_cons. cbn [findMatch].
  destruct (hasValue row keyCol); [|apply IH].
  destruct (searchInBitrix24 _ keyCol target domain s) as [[[m|]|e] s1];
    try apply IH.
  destruct (readable row keyCols m); [reflexivity|apply IH].
Qed.

(** What the search for a match does, from any state: it searches the key
    columns that have a value, in order, up to the first one whose search
    returns a match that can be read, creates nothing and leaves the storage
    alone. *)
Lemma findMatch_spec remaining :
  forall s,
  exists new tried untried,
    log (snd (find remaining s)) = log s ++ new
    /\ storage (snd (find remaining s)) = storage s
    /\ filter (hasValue row) remaining = tried ++ untried
    /\ calls new
       = flat_map (fun k => searchCalls target k (searchValueOf row k)) tried
    /\ created new = []
    /\ match fst (find remaining s) with
       | Ok (Some (keyCol, searchValue, m)) =>
           (exists earlier, tried = earlier ++ [keyCol])
           /\ searchValue = searchValueOf row keyCol
           /\ readable row keyCols m = true
       | Ok None => untried = []
       | Throw _ => False
       end.
Proof.
  induction remaining as [|keyCol rest IH]; intros s.
  - exists [], [], []. cbn. rewrite app_nil_r. repeat split.
  - cbn [findMatch filter].
    destruct (hasValue row keyCol) eqn:HV; [|exact (IH s)].
    destruct (searchInBitrix24_log (searchValueOf row keyCol) keyCol target
                domain s) as (n1 & L1 & C1 & R1).
    pose proof (searchInBitrix24_storage (searchValueOf row keyCol) keyCol
                  target domain s) as S1.
    destruct (searchInBitrix24 (searchValueOf row keyCol) keyCol target
                domain s) as [[[m|]|e] s1] eqn:S; cbn [snd] in L1, S1.
    + destruct (readable row keyCols m) eqn:RD.
      * exists n1, [keyCol], (filter (hasValue row) rest).
        cbn [fst snd flat_map]. rewrite app_nil_r.
        repeat split; try assumption. exists []. reflexivity.
      * destruct (IH (snd (searchError keyCol s1)))
          as (n2 & tried & untried & L2 & S2 & T & C2 & R2 & D).
        exists (n1 ++ [EvConsoleError
                         ("Error searching for "
                          ++ Js.showValue (Some (searchValueOf row keyCol))
                          ++ ":")] ++ n2),
               (keyCol :: tried), untried.
        split; [rewrite L2; cbn [console_error emit snd log];
                rewrite L1, <- !app_assoc; reflexivity|].
        split; [rewrite S2; exact S1|].
        split; [cbn [app]; rewrite T; reflexivity|].
        split; [unfold calls in *; rewrite !project_app; fold calls;
                fold calls in C1, C2; rewrite C1, C2; reflexivity|].
        split; [unfold created in *; rewrite !project_app; fold created;
                fold created in R1, R2; rewrite R1, R2; reflexivity|].
        destruct (fst (find rest _)) as [[[[k v] m']|]|]; try exact D.
        destruct D as ((earlier & ->) & D). split; [|exact D].
        exists (keyCol :: earlier). reflexivity.
    + destruct (IH s1) as (n2 & tried & untried & L2 & S2 & T & C2 & R2 & D).
      exists (n1 ++ n2), (keyCol :: tried), untried.
      split; [rewrite L2, L1, app_assoc; reflexivity|].
      split; [rewrite S2; exact S1|].
      split; [cbn [app]; rewrite T; reflexivity|].
      split; [unfold calls in *; rewrite !project_app; fold calls;
              fold calls in C1, C2; rewrite C1, C2; reflexivity|].
      split; [unfold created in *; rewrite !project_app; fold created;
              fold created in R1, R2; rewrite R1, R2; reflexivity|].
      destruct (fst (find rest _)) as [[[[k v] m']|]|]; try exact D.
      destruct D as ((earlier & ->) & D). split; [|exact D].
      exists (keyCol :: earlier). reflexivity.
    + destruct (IH (snd (searchError keyCol s1)))
        as (n2 & tried & untried & L2 & S2 & T & C2 & R2 & D).
      exists (n1 ++ [EvConsoleError
                       ("Error searching for "
                        ++ Js.showValue (Some (searchValueOf row keyCol))
                        ++ ":")] ++ n2),
             (keyCol :: tried), untried.
      split; [rewrite L2; cbn [console_error emit snd log];
              rewrite L1, <- !app_assoc; reflexivity|].
      split; [rewrite S2; exact S1|].
      split; [cbn [app]; rewrite T; reflexivity|].
      split; [unfold calls in *; rewrite !project_app; fold calls;
              fold calls in C1, C2; rewrite C1, C2; reflexivity|].
      split; [unfold created in *; rewrite !project_app; fold created;
              fold created in R1, R2; rewrite R1, R2; reflexivity|].
      destruct (fst (find rest _)) as [[[[k v] m']|]|]; try exact D.
      destruct D as ((earlier & ->) & D). split; [|exact D].
      exists (keyCol :: earlier). reflexivity.
Qed.

(** What the loop over the key columns does, from any state: it searches
    the key columns that have a value, in order, up to the first one whose
    search returns a match that can be read; then it creates one entry per
    field to update from that match, or none when nothing was found. *)
Lemma tryKeyColumns_spec remaining :
  forall s,
  exists new tried untried,
    log (snd (probe remaining s)) = log s ++ new
    /\ filter (hasValue row) remaining = tried ++ untried
    /\ calls new
       = flat_map (fun k => searchCalls target k (searchValueOf row k)) tried
    /\ ((fst (probe remaining s) = Ok false
         /\ untried = [] /\ created new = [])
        \/ (fst (probe remaining s) = Ok true
            /\ exists earlier keyCol m,
                 tried = earlier ++ [keyCol]
                 /\ fst (find remaining s)
                    = Ok (Some (keyCol, searchValueOf row keyCol, m))
                 /\ Forall2
                      (fun fld r =>
                         exists insertResult,
                           foundRecord sid i keyCol (searchValueOf row keyCol)
                             m row fld = Ok insertResult
                           /\ stored_as insertResult r)
                      (fieldsToUpdate row keyCols) (created new))).
Proof.
  intros s. rewrite tryKeyColumns_findMatch.
  destruct (findMatch_spec remaining s)
    as (n1 & tried & untried & L1 & _ & T & C1 & R1 & D).
  destruct (find remaining s) as [[[[[k v] m]|]|e] s1]; cbn [fst snd] in *.
  - destruct D as ((earlier & ->) & -> & RD).
    destruct (createFound_readable k (searchValueOf row k) m s1 RD)
      as (rs & _ & L2 & F).
    exists (n1 ++ map EvCreateRecordResult rs), (earlier ++ [k]), untried.
    split; [rewrite L2, L1, app_assoc; reflexivity|].
    split; [exact T|].
    split; [unfold calls in *; rewrite project_app; fold calls;
            fold calls in C1; rewrite C1, calls_map_created, app_nil_r;
            reflexivity|].
    right. split; [reflexivity|]. exists earlier, k, m.
    split; [reflexivity|]. split; [reflexivity|].
    unfold created in *. rewrite project_app. fold created.
    fold created in R1. rewrite R1, created_map. exact F.
  - exists n1, tried, untried. repeat split; try assumption.
    left. repeat split; assumption.
  - destruct D.
Qed.

(** *** The diff builder *)

Lemma insertIndex_In x y l :
  In y (Js.insertIndex x l) -> y = x \/ In y l.
Proof.
  induction l as [|z l IH]; cbn.
  - intros [E|[]]. left. symmetry. exact E.
  - destruct (fst x <=? fst z)%N; cbn.
    + intros [E|H]; [left; symmetry; exact E|right; exact H].
    + intros [E|H]; [right; left; exact E|].
      destruct (IH H) as [E|I]; [left; exact E|right; right; exact I].
Qed.

(** [Object.keys] lists own properties only. *)
Lemma keys_own {V : Type} (o : list (string * V)) k :
  In k (Js.keys o) -> In k (map fst o).
Proof.
  unfold Js.keys. intros H. apply in_app_or in H. destruct H as [H|H].
  - apply in_map_iff in H. destruct H as ([n k'] & E & H). cbn in E. subst k'.
    assert (G : forall l,
               In (n, k) (fold_right Js.insertIndex [] l) -> In (n, k) l).
    { induction l as [|x l IH]; cbn; [auto|].
      intros I. apply insertIndex_In in I.
      destruct I as [E|I]; [left; symmetry; exact E|right; apply IH; exact I]. }
    apply G in H. apply in_flat_map in H. destruct H as (name & I & H).
    destruct (Js.arrayIndex name); [|destruct H].
    destruct H as [E|[]]. injection E as _ ->. exact I.
  - apply filter_In in H. apply H.
Qed.

Lemma get_of_key {V : Type} (o : list (string * V)) k :
  In k (Js.keys o) -> exists v, Js.get o k = Some v.
Proof.
  intros H. apply keys_own in H.
  induction o as [|[k' v'] o IH]; simpl in *; [destruct H|].
  destruct H as [E|H].
  - subst. rewrite String.eqb_refl. eauto.
  - destruct (k' =? k)%string; eauto.
Qed.

Lemma orString_empty v : Js.orString (Some v) "" = v.
Proof.
  simpl. destruct (v =? "")%string eqn:E; [|reflexivity].
  apply String.eqb_eq in E. congruence.
Qed.

Lemma orNull_orString_empty x :
  Js.orNull (Some (Js.orString x "")) = Js.orNull x.
Proof.
  destruct x as [v|]; [|reflexivity].
  unfold Js.orNull, Js.orString, Js.truthy.
  destruct (v =? "")%string eqn:E; simpl; [reflexivity|].
  rewrite E. reflexivity.
Qed.

Lemma Forall2_impl_In {A B : Type} (P Q : A -> B -> Prop) l l' :
  (forall a b, In a l -> P a b -> Q a b) ->
  Forall2 P l l' -> Forall2 Q l l'.
Proof.
  intros H F. induction F as [|a b l l' Pab F IH]; constructor.
  - apply H; [left; reflexivity|exact Pab].
  - apply IH. intros a' b' I. apply H. right. exact I.
Qed.

Lemma stored_found keyCol searchValue m fld r :
  In fld (fieldsToUpdate row keyCols) ->
  (exists insertResult,
     foundRecord sid i keyCol searchValue m row fld = Ok insertResult
     /\ stored_as insertResult r) ->
  matched_entry sid i row m fld r.
Proof.
  intros I (ins & E & [st ->]). unfold fieldsToUpdate in I.
  apply filter_In in I. destruct I as [I _].
  destruct (get_of_key row fld I) as [v G].
  unfold foundRecord in E.
  destruct (fields (entity m)) as [f|] eqn:F; [|discriminate].
  injection E as <-.
  unfold matched_entry. cbn.
  rewrite G, orString_empty. repeat split.
  exists f. split; [exact F|]. intros _. apply orNull_orString_empty.
Qed.

Lemma stored_notFound fld r :
  In fld (fieldsToUpdate row keyCols) ->
  stored_as (notFoundRecord sid i keyCols row fld) r ->
  unmatched_entry sid i row fld r.
Proof.
  intros I [st ->]. unfold fieldsToUpdate in I.
  apply filter_In in I. destruct I as [I _].
  destruct (get_of_key row fld I) as [v G].
  unfold unmatched_entry. simpl. rewrite G, orString_empty. repeat split.
Qed.

Lemma processRow_eq s :
  processRow sid target keyCols domain i row s
  = match probe keyCols s with
    | (Ok true, s1) => (Ok tt, s1)
    | (Ok false, s1) =>
        forEach (fieldsToUpdate row keyCols)
          (fun fld =>
             storage_createRecordResult (notFoundRecord sid i keyCols row fld) ;;
             ret tt) s1
    | (Throw e, s1) => (Throw e, s1)
    end.
Proof.
  unfold processRow, bind.
  destruct (tryKeyColumns sid i row target keyCols domain keyCols s)
    as [[[|]|e] s1]; reflexivity.
Qed.

(** Every entry created for a row has status "found" or "not_found": the
    matcher never writes "duplicate". *)
Lemma processRow_statuses s :
  exists new,
    log (snd (processRow sid target keyCols domain i row s)) = log s ++ new
    /\ Forall (fun r => status r = "found" \/ status r = "not_found")
              (created new).
Proof.
  rewrite processRow_eq.
  destruct (tryKeyColumns_spec keyCols s)
    as (n1 & tried & untried & L1 & T & _ & D).
  destruct (probe keyCols s) as [[found|e] s1] eqn:P; simpl in L1, D.
  - destruct D as [(R & U & K)|(R & earlier & k & m & T' & S & F)];
      injection R as ->.
    + destruct (forEach_create (notFoundRecord sid i keyCols row)
                  (fieldsToUpdate row keyCols) s1) as (rs & E & L2 & F).
      exists (n1 ++ map EvCreateRecordResult rs).
      split; [rewrite L2, L1, app_assoc; reflexivity|].
      unfold created in *. rewrite project_app. fold created.
      fold created in K. rewrite K, created_map. simpl.
      clear - F. induction F as [|fld r l l' [st ->] F IH]; constructor.
      * right. reflexivity.
      * exact IH.
    + exists n1. split; [exact L1|].
      clear - F.
      induction F as [|fld r l l' (ins & E & [st ->]) F IH]; constructor.
      * left. unfold foundRecord in E.
        destruct (fields (entity m)); [|discriminate].
        injection E as <-. reflexivity.
      * exact IH.
  - destruct D as [(R & _)|(R & _)]; discriminate.
Qed.

End Matcher.

(** *** The batch executor: partitioning *)

Lemma slice_batch {A : Type} (l : list A) k :
  Js.slice l (batchSize * k) (batchSize * k + batchSize)
  = firstn batchSize (skipn (batchSize * k) l).
Proof.
  unfold Js.slice. f_equal. unfold batchSize. lia.
Qed.

Lemma batchCount_done n k : n <= batchSize * k -> batchCount n - k = 0.
Proof.
  intros H. unfold batchCount.
  assert (D : (n + (batchSize - 1)) / batchSize < S k).
  { apply Nat.Div0.div_lt_upper_bound. unfold batchSize in *. lia. }
  lia.
Qed.

Lemma batchCount_more n k :
  batchSize * k < n -> batchCount n - k = S (batchCount n - S k).
Proof.
  intros H. unfold batchCount.
  assert (D : S k <= (n + (batchSize - 1)) / batchSize).
  { apply Nat.div_le_lower_bound; unfold batchSize in *; lia. }
  lia.
Qed.

(** [batchCount n] is the least number of batches that hold [n] entries. *)
Lemma batchCount_ceiling n :
  n <= batchSize * batchCount n /\ batchSize * batchCount n < n + batchSize.
Proof.
  unfold batchCount.
  pose proof (Nat.div_mod_eq (n + (batchSize - 1)) batchSize) as D.
  pose proof (Nat.mod_upper_bound (n + (batchSize - 1)) batchSize) as U.
  unfold batchSize in *. lia.
Qed.

Lemma storage_createExecutionBatch_run sid number ids st s :
  storage_createExecutionBatch sid number ids st s
  = (Ok (fst (MemStorage.createExecutionBatch sid number ids st (storage s))),
     {| storage :=
          snd (MemStorage.createExecutionBatch sid number ids st (storage s));
        rateLimiter := rateLimiter s;
        world := world s;
        log := log s
               ++ [EvCreateExecutionBatch
                     (fst (MemStorage.createExecutionBatch sid number ids st
                             (storage s)))] |}).
Proof. reflexivity. Qed.

Lemma createBatches_S fuel sid results i s :
  createBatches (S fuel) sid results i s
  = if (i <? List.length results)%nat then
      match storage_createExecutionBatch sid (i / batchSize + 1)
              (map rr_id (Js.slice results i (i + batchSize))) "pending" s with
      | (Ok _, s1) =>
          match createBatches fuel sid results (i + batchSize) s1 with
          | (Ok rest, s2) =>
              (Ok (map rr_id (Js.slice results i (i + batchSize)) :: rest), s2)
          | (Throw e, s2) => (Throw e, s2)
          end
      | (Throw e, s1) => (Throw e, s1)
      end
    else (Ok [], s).
Proof.
  cbn [createBatches]. destruct (i <? List.length results)%nat; reflexivity.
Qed.

(** The partitioning loop, started at entry [batchSize * k] with enough
    fuel, creates the batch records [k + 1], [k + 2], ... up to the last, each
    holding its slice of the entries; it touches neither the sessions nor
    the entries. *)
Lemma createBatches_spec sid results fuel :
  forall k s,
    List.length results - batchSize * k <= fuel ->
    exists bs,
      fst (createBatches fuel sid results (batchSize * k) s)
      = Ok (map recordIds bs)
      /\ log (snd (createBatches fuel sid results (batchSize * k) s))
         = log s ++ map EvCreateExecutionBatch bs
      /\ map recordIds bs
         = map (batchIds results)
               (seq k (batchCount (List.length results) - k))
      /\ map batchNumber bs
         = seq (k + 1) (batchCount (List.length results) - k)
      /\ Forall (fun b => eb_sessionId b = sid /\ eb_status b = "pending") bs
      /\ sessions (storage (snd (createBatches fuel sid results
                                   (batchSize * k) s)))
         = sessions (storage s)
      /\ recordResults (storage (snd (createBatches fuel sid results
                                        (batchSize * k) s)))
         = recordResults (storage s).
Proof.
  induction fuel as [|fuel IH]; intros k s H.
  - exists []. cbn [createBatches ret fst snd map].
    rewrite app_nil_r, batchCount_done by lia. repeat split. constructor.
  - rewrite createBatches_S.
    destruct (batchSize * k <? List.length results)%nat eqn:E.
    + apply Nat.ltb_lt in E.
      rewrite storage_createExecutionBatch_run.
      replace (batchSize * k + batchSize) with (batchSize * S k) by lia.
      set (b := fst (MemStorage.createExecutionBatch sid
                       (batchSize * k / batchSize + 1)
                       (map rr_id (Js.slice results (batchSize * k)
                                     (batchSize * S k)))
                       "pending" (storage s))).
      match goal with
      | |- context [createBatches fuel sid results _ ?s1] => set (s' := s1)
      end.
      assert (F : List.length results - batchSize * S k <= fuel)
        by (unfold batchSize in *; lia).
      destruct (IH (S k) s' F) as (bs & R & L & I & N & P & SS & RR).
      destruct (createBatches fuel sid results (batchSize * S k) s')
        as [[rest|e] s2]; cbn [fst snd] in R, L, SS, RR; [|discriminate].
      injection R as ->.
      exists (b :: bs). cbn [fst snd map].
      rewrite (batchCount_more _ _ E). cbn [seq map].
      assert (Sb : map rr_id (Js.slice results (batchSize * k)
                                (batchSize * S k))
                   = batchIds results k).
      { unfold batchIds. f_equal.
        replace (batchSize * S k) with (batchSize * k + batchSize) by lia.
        apply slice_batch. }
      assert (Ib : recordIds b = batchIds results k).
      { unfold b. cbn [MemStorage.createExecutionBatch fst recordIds].
        exact Sb. }
      assert (Nb : batchNumber b = k + 1).
      { unfold b. cbn [MemStorage.createExecutionBatch fst batchNumber].
        rewrite Nat.mul_comm, Nat.div_mul by discriminate. reflexivity. }
      split; [rewrite Ib, Sb; reflexivity|].
      split; [rewrite L; unfold s'; cbn [log]; rewrite <- app_assoc;
              reflexivity|].
      split; [f_equal; [exact Ib|exact I]|].
      split; [f_equal; [exact Nb|rewrite N; f_equal; lia]|].
      split; [constructor; [split; reflexivity|exact P]|].
      split; [rewrite SS; reflexivity|rewrite RR; reflexivity].
    + apply Nat.ltb_ge in E. exists []. cbn [fst snd map].
      rewrite app_nil_r, batchCount_done by exact E. repeat split. constructor.
Qed.

Lemma chunks_concat {A : Type} c m :
  forall l : list A,
    List.length l <= c * m ->
    List.concat (map (fun k => firstn c (skipn (c * k) l)) (seq 0 m)) = l.
Proof.
  induction m as [|m IH]; intros l H.
  - destruct l; [reflexivity|simpl in H; lia].
  - rewrite <- cons_seq, <- seq_shift. cbn [map List.concat].
    rewrite map_map, Nat.mul_0_r. cbn [skipn].
    transitivity (firstn c l ++ skipn c l); [|apply firstn_skipn].
    f_equal.
    transitivity
      (List.concat
         (map (fun k => firstn c (skipn (c * k) (skipn c l))) (seq 0 m))).
    + f_equal. apply map_ext. intros k. f_equal.
      rewrite skipn_skipn. f_equal. lia.
    + apply IH. rewrite length_skipn. lia.
Qed.

(** *** The batch executor: one batch *)

Lemma storage_updateRecordResult_run rid updates s :
  storage_updateRecordResult rid updates s
  = (Ok tt,
     {| storage := MemStorage.updateRecordResult rid updates (storage s);
        rateLimiter := rateLimiter s;
        world := world s;
        log := log s ++ [EvUpdateRecordResult rid updates] |}).
Proof. reflexivity. Qed.

Lemma updateRecordResult_sessions rid updates st :
  sessions (MemStorage.updateRecordResult rid updates st) = sessions st.
Proof.
  unfold MemStorage.updateRecordResult.
  destruct (Map.get (recordResults st) rid); reflexivity.
Qed.

Lemma updated_updateEvents updates l :
  updated (updateEvents updates l) = map (fun r => (rr_id r, updates)) l.
Proof. induction l as [|r l IH]; simpl; [reflexivity|]. f_equal. exact IH. Qed.

Lemma batchesCreated_updateEvents updates l :
  batchesCreated (updateEvents updates l) = [].
Proof. induction l as [|r l IH]; simpl; [reflexivity|exact IH]. Qed.

Lemma forEach_update updates l :
  forall s,
    forEach l (fun r => storage_updateRecordResult (rr_id r) updates) s
    = (Ok tt,
       snd (forEach l
              (fun r => storage_updateRecordResult (rr_id r) updates) s))
    /\ log (snd (forEach l
                   (fun r => storage_updateRecordResult (rr_id r) updates) s))
       = log s ++ updateEvents updates l
    /\ sessions
         (storage
            (snd (forEach l
                    (fun r => storage_updateRecordResult (rr_id r) updates) s)))
       = sessions (storage s).
Proof.
  induction l as [|r l IH]; intros s.
  - simpl. rewrite app_nil_r. repeat split.
  - rewrite (forEach_cons_Ok r l _ s _
               (storage_updateRecordResult_run (rr_id r) updates s)).
    match goal with
    | |- context [forEach l _ ?s1] => destruct (IH s1) as (E & L & S)
    end.
    split; [exact E|]. split.
    + rewrite L. simpl. rewrite <- app_assoc. reflexivity.
    + rewrite S. simpl. apply updateRecordResult_sessions.
Qed.

Lemma bulkCalls_log domain batchResults s :
  exists new r s1,
    bulkCalls domain batchResults s = (r, s1)
    /\ log s1 = log s ++ new
    /\ updated new = []
    /\ batchesCreated new = []
    /\ storage s1 = storage s.
Proof.
  unfold bulkCalls, lift. unfold bind at 1.
  destruct (groupUpdates batchResults [] []) as [[cs ps]|e]; cbn [fst snd].
  2:{ exists [], (Throw e), s. rewrite app_nil_r. repeat split. }
  unfold bind at 1.
  assert (C : exists n1 s1 r1,
             (if (0 <? List.length cs)%nat
              then callBitrixAPI domain "crm.contact.batch" (BatchParams cs) ;;
                   ret tt
              else ret tt) s = (r1, s1)
             /\ log s1 = log s ++ n1 /\ updated n1 = []
             /\ batchesCreated n1 = [] /\ storage s1 = storage s).
  { destruct (0 <? List.length cs)%nat.
    - pose proof (callBitrixAPI_log domain "crm.contact.batch"
                    (BatchParams cs) s) as L.
      pose proof (callBitrixAPI_storage domain "crm.contact.batch"
                    (BatchParams cs) s) as S.
      unfold bind.
      destruct (callBitrixAPI _ _ _ s) as [[x|e] s1]; simpl in L, S;
        eexists [_], s1, _; repeat split; eauto.
    - exists [], s, (Ok tt). rewrite app_nil_r. repeat split. }
  destruct C as (n1 & s1 & r1 & -> & L1 & U1 & B1 & S1).
  destruct r1 as [[]|e].
  2:{ exists n1, (Throw e), s1. repeat split; assumption. }
  assert (C : exists n2 s2 r2,
             (if (0 <? List.length ps)%nat
              then callBitrixAPI domain "crm.company.batch" (BatchParams ps) ;;
                   ret tt
              else ret tt) s1 = (r2, s2)
             /\ log s2 = log s1 ++ n2 /\ updated n2 = []
             /\ batchesCreated n2 = [] /\ storage s2 = storage s1).
  { destruct (0 <? List.length ps)%nat.
    - pose proof (callBitrixAPI_log domain "crm.company.batch"
                    (BatchParams ps) s1) as L.
      pose proof (callBitrixAPI_storage domain "crm.company.batch"
                    (BatchParams ps) s1) as S.
      unfold bind.
      destruct (callBitrixAPI _ _ _ s1) as [[x|e] s2]; simpl in L, S;
        eexists [_], s2, _; repeat split; eauto.
    - exists [], s1, (Ok tt). rewrite app_nil_r. repeat split. }
  destruct C as (n2 & s2 & r2 & -> & L2 & U2 & B2 & S2).
  exists (n1 ++ n2), r2, s2.
  split; [reflexivity|].
  split; [rewrite L2, L1, app_assoc; reflexivity|].
  unfold updated, batchesCreated in *. rewrite !project_app.
  fold updated. fold batchesCreated. fold updated in U1, U2.
  fold batchesCreated in B1, B2. rewrite U1, U2, B1, B2.
  repeat split. congruence.
Qed.

Lemma bind_assoc {A B C : Type} (m : M A) (k : A -> M B) (h : B -> M C) s :
  bind (bind m k) h s = bind m (fun a => bind (k a) h) s.
Proof. unfold bind. destruct (m s) as [[a|e] s1]; reflexivity. Qed.

Lemma bind_lift {A B : Type} (r : Result A) (k : A -> M B) s :
  bind (lift r) k s
  = match r with
    | Ok a => k a s
    | Throw e => (Throw e, s)
    end.
Proof. destruct r; reflexivity. Qed.

(** A batch in two steps: the bulk calls, then one status for all its
    entries. *)
Lemma processBatch_eq results domain ids s :
  processBatch results domain ids s
  = let batchResults :=
      filter (fun r => includes_id ids (rr_id r)) results in
    match bulkCalls domain batchResults s with
    | (Ok _, s1) =>
        forEach batchResults
          (fun r => storage_updateRecordResult (rr_id r) completed_updates) s1
    | (Throw message, s1) =>
        forEach batchResults
          (fun r => storage_updateRecordResult (rr_id r)
                      (error_updates message))
          (snd (console_error "Batch execution error:" s1))
    end.
Proof.
  cbv zeta. unfold processBatch.
  set (batchResults := filter (fun r => includes_id ids (rr_id r)) results).
  set (finish := forEach batchResults
                   (fun r => storage_updateRecordResult (rr_id r)
                               completed_updates)).
  match goal with
  | |- try_catch ?body ?handler s = _ =>
      assert (B : body s = bind (bulkCalls domain batchResults)
                             (fun _ => finish) s)
  end.
  { unfold bulkCalls. rewrite bind_assoc, !bind_lift.
    destruct (groupUpdates batchResults [] []) as [updates|e]; [|reflexivity].
    rewrite bind_assoc. reflexivity. }
  unfold try_catch. rewrite B. unfold bind at 1.
  destruct (bulkCalls domain batchResults s) as [[[]|e] s1].
  - unfold finish.
    destruct (forEach_update completed_updates batchResults s1) as (E & _).
    rewrite E. reflexivity.
  - reflexivity.
Qed.

(** One batch never throws and writes one and the same update on each of its
    entries: "completed" when the bulk calls went through, "error" with the
    message of what was thrown otherwise. *)
Lemma processBatch_spec results domain ids s :
  fst (processBatch results domain ids s) = Ok tt
  /\ exists new,
       log (snd (processBatch results domain ids s)) = log s ++ new
       /\ updated new
          = map (fun r =>
                   (rr_id r,
                    batchPatch
                      match fst (bulkCalls domain
                                   (batchResultsOf results ids) s) with
                      | Ok _ => None
                      | Throw message => Some message
                      end))
                (batchResultsOf results ids)
       /\ batchesCreated new = []
       /\ sessions (storage (snd (processBatch results domain ids s)))
          = sessions (storage s).
Proof.
  rewrite processBatch_eq. cbv zeta. fold (batchResultsOf results ids).
  destruct (bulkCalls_log domain (batchResultsOf results ids) s)
    as (n1 & r & s1 & -> & L1 & U1 & B1 & S1).
  destruct r as [[]|e]; cbn [fst snd batchPatch] in *.
  - destruct (forEach_update completed_updates (batchResultsOf results ids) s1)
      as (E & L & S).
    split; [rewrite E; reflexivity|].
    exists (n1 ++ updateEvents completed_updates (batchResultsOf results ids)).
    split; [rewrite L, L1, app_assoc; reflexivity|].
    unfold updated, batchesCreated in *. rewrite !project_app.
    fold updated. fold batchesCreated. fold updated in U1.
    fold batchesCreated in B1.
    rewrite U1, B1, updated_updateEvents, batchesCreated_updateEvents.
    repeat split. rewrite S, S1. reflexivity.
  - destruct (forEach_update (error_updates e) (batchResultsOf results ids)
                (snd (console_error "Batch execution error:" s1)))
      as (E & L & S).
    split; [rewrite E; reflexivity|].
    exists (n1 ++ [EvConsoleError "Batch execution error:"]
               ++ updateEvents (error_updates e) (batchResultsOf results ids)).
    split.
    { rewrite L.
      change (log (snd (console_error "Batch execution error:" s1)))
        with (log s1 ++ [EvConsoleError "Batch execution error:"]).
      rewrite L1, <- !app_assoc. reflexivity. }
    unfold updated, batchesCreated in *. rewrite !project_app.
    fold updated. fold batchesCreated. fold updated in U1.
    fold batchesCreated in B1.
    rewrite U1, B1, updated_updateEvents, batchesCreated_updateEvents.
    repeat split. rewrite S. simpl. rewrite S1. reflexivity.
Qed.

(** *** The entries of a batch in the storage *)

Lemma includes_id_In ids x : includes_id ids x = true <-> In x ids.
Proof.
  unfold includes_id. rewrite existsb_exists. split.
  - intros (y & I & E). apply Nat.eqb_eq in E. subst. exact I.
  - intros I. exists x. split; [exact I|apply Nat.eqb_refl].
Qed.

Lemma override_twice {A : Type} (x : A) n :
  override (override x n) n = override x n.
Proof. destruct n; reflexivity. Qed.

(** Writing the same update twice is writing it once. *)
Lemma spread_twice r u : spread (spread r u) u = spread r u.
Proof. unfold spread. cbn. rewrite !override_twice. reflexivity. Qed.

Lemma updateRecordResult_get rid u st x :
  Map.get (recordResults (MemStorage.updateRecordResult rid u st)) x
  = patched [rid] u x (Map.get (recordResults st) x).
Proof.
  unfold MemStorage.updateRecordResult, patched, includes_id.
  cbn [existsb]. rewrite orb_false_r, Nat.eqb_sym.
  destruct (Map.get (recordResults st) rid) as [r|] eqn:G;
    cbn [recordResults].
  - destruct (Nat.eqb_spec rid x) as [->|N].
    + rewrite Map_get_set_same, G. reflexivity.
    + apply Map_get_set_ne. congruence.
  - destruct (Nat.eqb_spec rid x) as [->|N]; [rewrite G|]; reflexivity.
Qed.

(** A loop that writes one update on each entry of a list leaves it on the
    entries kept under their identifiers, and leaves the others as they
    were. *)
Lemma forEach_update_get u l :
  forall s x,
    Map.get (recordResults
               (storage (snd (forEach l
                                (fun r => storage_updateRecordResult (rr_id r) u)
                                s)))) x
    = patched (map rr_id l) u x (Map.get (recordResults (storage s)) x).
Proof.
  induction l as [|r l IH]; intros s x; [reflexivity|].
  rewrite (forEach_cons_Ok r l _ s _ (storage_updateRecordResult_run _ _ s)).
  rewrite IH. cbn [storage]. rewrite updateRecordResult_get.
  unfold patched, includes_id. cbn [map existsb].
  rewrite orb_false_r.
  destruct (Nat.eqb x (rr_id r)); cbn [orb]; [|reflexivity].
  destruct (existsb (Nat.eqb x) (map rr_id l)); [|reflexivity].
  destruct (Map.get (recordResults (storage s)) x) as [r0|]; [|reflexivity].
  cbn. rewrite spread_twice. reflexivity.
Qed.

(** One batch leaves its update on each of its entries in the storage, and
    nothing else on the entries. *)
Lemma processBatch_store results domain ids s x :
  Map.get (recordResults (storage (snd (processBatch results domain ids s))))
          x
  = patched (map rr_id (batchResultsOf results ids))
      (batchPatch
         (outcomeOf (fst (bulkCalls domain (batchResultsOf results ids) s))))
      x (Map.get (recordResults (storage s)) x).
Proof.
  rewrite processBatch_eq. cbv zeta. fold (batchResultsOf results ids).
  destruct (bulkCalls_log domain (batchResultsOf results ids) s)
    as (n1 & r & s1 & -> & _ & _ & _ & S1).
  destruct r as [[]|e]; cbn [fst snd outcomeOf batchPatch].
  - rewrite forEach_update_get, S1. reflexivity.
  - rewrite forEach_update_get. cbn [console_error emit snd storage].
    rewrite S1. reflexivity.
Qed.

(** The same, entry by entry: the entry kept under the identifier of an
    entry of the batch carries the update of the batch, the others are as
    they were. *)
Lemma processBatch_marks results domain ids s :
  (forall r,
     In r (batchResultsOf results ids) ->
     Map.get (recordResults (storage (snd (processBatch results domain ids s))))
             (rr_id r)
     = option_map
         (fun r0 =>
            spread r0
              (batchPatch
                 (outcomeOf
                    (fst (bulkCalls domain (batchResultsOf results ids) s)))))
         (Map.get (recordResults (storage s)) (rr_id r)))
  /\ (forall x,
        ~ In x (map rr_id (batchResultsOf results ids)) ->
        Map.get (recordResults
                   (storage (snd (processBatch results domain ids s)))) x
        = Map.get (recordResults (storage s)) x).
Proof.
  split.
  - intros r I. rewrite processBatch_store. unfold patched.
    replace (includes_id (map rr_id (batchResultsOf results ids)) (rr_id r))
      with true; [reflexivity|].
    symmetry. apply includes_id_In. apply in_map. exact I.
  - intros x I. rewrite processBatch_store. unfold patched.
    destruct (includes_id (map rr_id (batchResultsOf results ids)) x) eqn:E;
      [|reflexivity].
    apply includes_id_In in E. contradiction.
Qed.

(** *** The batch executor: all batches *)

(** The loop over the batches attempts every batch, whatever became of the
    ones before, and never throws. *)
Lemma forEach_processBatch results domain batches :
  forall s,
    fst (forEach batches (processBatch results domain) s) = Ok tt
    /\ exists new outcomes,
         log (snd (forEach batches (processBatch results domain) s))
         = log s ++ new
         /\ List.length outcomes = List.length batches
         /\ updated new = batchUpdates results batches outcomes
         /\ batchesCreated new = []
         /\ sessions
              (storage (snd (forEach batches (processBatch results domain) s)))
            = sessions (storage s).
Proof.
  induction batches as [|ids rest IH]; intros s.
  - split; [reflexivity|]. exists [], []. simpl. rewrite app_nil_r.
    repeat split.
  - destruct (processBatch_spec results domain ids s)
      as (R & n1 & L1 & U1 & B1 & S1).
    destruct (processBatch results domain ids s) as [r s1] eqn:P.
    cbn [fst snd] in R, L1, S1. subst r.
    rewrite (forEach_cons_Ok ids rest _ s s1 P).
    destruct (IH s1) as (R2 & n2 & outcomes & L2 & N & U2 & B2 & S2).
    split; [exact R2|].
    exists (n1 ++ n2),
           (match fst (bulkCalls domain (batchResultsOf results ids) s) with
            | Ok _ => None
            | Throw message => Some message
            end :: outcomes).
    split; [rewrite L2, L1, app_assoc; reflexivity|].
    split; [simpl; rewrite N; reflexivity|].
    unfold updated, batchesCreated in *. rewrite !project_app.
    fold updated. fold batchesCreated. fold updated in U1, U2.
    fold batchesCreated in B1, B2. rewrite U1, U2, B1, B2.
    repeat split. rewrite S2, S1. reflexivity.
Qed.

Lemma executeUpdatesInBackground_eq sid requested domain s :
  executeUpdatesInBackground sid requested domain s
  = let results :=
      selectResults requested (MemStorage.getRecordResults (storage s) sid) in
    match createBatches (List.length results) sid results 0 s with
    | (Ok batches, s1) =>
        storage_updateSessionStatus sid "completed"
          (snd (forEach batches (processBatch results domain) s1))
    | (Throw e, s1) =>
        storage_updateSessionStatus sid "error"
          (snd (console_error "Execution error:" s1))
    end.
Proof.
  cbv zeta. unfold executeUpdatesInBackground, try_catch, read_storage.
  unfold bind at 1. unfold bind at 1.
  set (results := selectResults requested
                    (MemStorage.getRecordResults (storage s) sid)).
  destruct (createBatches (List.length results) sid results 0 s)
    as [[batches|e] s1]; [|reflexivity].
  unfold bind at 1.
  destruct (forEach_processBatch results domain batches s1) as (R & _).
  destruct (forEach batches (processBatch results domain) s1) as [r s2].
  cbn [fst] in R. subst r. reflexivity.
Qed.

Lemma Map_get_set {V : Type} (m : list (uuid * V)) k v :
  Map.get m k <> None -> Map.get (Map.set m k v) k = Some v.
Proof.
  induction m as [|[k' v'] m IH]; simpl; [congruence|].
  destruct (Nat.eqb k' k) eqn:E; simpl.
  - rewrite Nat.eqb_refl. reflexivity.
  - rewrite E. exact IH.
Qed.

Lemma updateSessionStatus_sets sid st s :
  MemStorage.getSession s sid <> None ->
  exists session,
    MemStorage.getSession (MemStorage.updateSessionStatus sid st s) sid
    = Some session
    /\ us_status session = st.
Proof.
  unfold MemStorage.getSession, MemStorage.updateSessionStatus. intros H.
  destruct (Map.get (sessions s) sid) as [session|] eqn:G; [|congruence].
  simpl. rewrite Map_get_set by congruence. eauto.
Qed.

(** *** The entries of a batch *)

Lemma NoDup_app_disjoint {A : Type} (l1 l2 : list A) x :
  NoDup (l1 ++ l2) -> In x l1 -> In x l2 -> False.
Proof.
  induction l1 as [|a l1 IH]; simpl; [tauto|].
  intros N [->|I] I2; inversion N as [|? ? Hn Hd]; subst.
  - apply Hn. apply in_or_app. right. exact I2.
  - exact (IH Hd I I2).
Qed.

Lemma filter_none {A : Type} (p : A -> bool) l :
  (forall x, In x l -> p x = false) -> filter p l = [].
Proof.
  induction l as [|a l IH]; intros H; [reflexivity|].
  simpl. rewrite (H a) by (left; reflexivity).
  apply IH. intros x I. apply H. right. exact I.
Qed.

Lemma filter_all {A : Type} (p : A -> bool) l :
  (forall x, In x l -> p x = true) -> filter p l = l.
Proof.
  induction l as [|a l IH]; intros H; [reflexivity|].
  simpl. rewrite (H a) by (left; reflexivity). f_equal.
  apply IH. intros x I. apply H. right. exact I.
Qed.

Lemma batchResultsOf_middle a b c :
  NoDup (map rr_id (a ++ b ++ c)) ->
  batchResultsOf (a ++ b ++ c) (map rr_id b) = b.
Proof.
  intros N. rewrite !map_app in N. unfold batchResultsOf.
  rewrite !filter_app.
  rewrite (filter_none _ a), (filter_all _ b), (filter_none _ c).
  - apply app_nil_r.
  - intros x I. apply not_true_is_false. intros H.
    apply includes_id_In in H.
    apply (NoDup_app_disjoint _ _ (rr_id x) (NoDup_app_remove_l _ _ N));
      [exact H|apply in_map; exact I].
  - intros x I. apply includes_id_In. apply in_map. exact I.
  - intros x I. apply not_true_is_false. intros H.
    apply includes_id_In in H.
    apply (NoDup_app_disjoint _ _ (rr_id x) N);
      [apply in_map; exact I|apply in_or_app; left; exact H].
Qed.

(** X28.  When the entries have distinct identifiers, as the values of a
    [Map] keyed by them have, the entries the executor picks for batch [k],
    by looking their identifiers up again among the selected entries, are
    the entries of its slice. *)
Lemma batchResultsOf_batch results k :
  NoDup (map rr_id results) ->
  batchResultsOf results (batchIds results k)
  = firstn batchSize (skipn (batchSize * k) results).
Proof.
  intros N. unfold batchIds.
  assert (E : results
              = firstn (batchSize * k) results
                ++ firstn batchSize (skipn (batchSize * k) results)
                ++ skipn batchSize (skipn (batchSize * k) results))
    by (rewrite !firstn_skipn; reflexivity).
  set (a := firstn (batchSize * k) results) in *.
  set (b := firstn batchSize (skipn (batchSize * k) results)) in *.
  set (c := skipn batchSize (skipn (batchSize * k) results)) in *.
  clearbody a b c. subst results. apply batchResultsOf_middle. exact N.
Qed.

(** *** Statuses the server never writes *)

(** What [bulkCalls] throws when the call for the contacts fails. *)
Lemma bulkCalls_contact_fails domain batchResults cs ps s e s1 :
  groupUpdates batchResults [] [] = Ok (cs, ps) ->
  cs <> [] ->
  callBitrixAPI domain "crm.contact.batch" (BatchParams cs) s = (Throw e, s1) ->
  bulkCalls domain batchResults s = (Throw e, s1).
Proof.
  intros G N C. unfold bulkCalls. rewrite bind_lift, G. cbn [fst snd].
  destruct cs as [|c cs]; [congruence|]. cbn [List.length Nat.ltb Nat.leb].
  unfold bind. rewrite C. reflexivity.
Qed.

(** What [bulkCalls] throws when the call for the contacts went through and
    the call for the companies fails. *)
Lemma bulkCalls_company_fails domain batchResults cs ps s body s1 e s2 :
  groupUpdates batchResults [] [] = Ok (cs, ps) ->
  cs <> [] -> ps <> [] ->
  callBitrixAPI domain "crm.contact.batch" (BatchParams cs) s = (Ok body, s1) ->
  callBitrixAPI domain "crm.company.batch" (BatchParams ps) s1 = (Throw e, s2) ->
  bulkCalls domain batchResults s = (Throw e, s2).
Proof.
  intros G N1 N2 C1 C2. unfold bulkCalls. rewrite bind_lift, G. cbn [fst snd].
  destruct cs as [|c cs]; [congruence|]. destruct ps as [|p ps]; [congruence|].
  cbn [List.length Nat.ltb Nat.leb].
  unfold bind. rewrite C1. unfold ret. rewrite C2. reflexivity.
Qed.

Section Unwritten.

(** A status that is none of those the server writes. *)
Variable bad : string.
Hypothesis bad_unwritten :
  ~ In bad ["pending"; "found"; "not_found"; "completed"; "error"].

Lemma keeps_ret {A : Type} (a : A) : keeps bad (ret a).
Proof. intros s H. exact H. Qed.

Lemma keeps_throw {A : Type} e : keeps bad (@throw _ A e).
Proof. intros s H. exact H. Qed.

Lemma keeps_lift {A : Type} (r : Result A) : keeps bad (lift r).
Proof. intros s H. exact H. Qed.

Lemma keeps_lift_bind {A B : Type} (r : Result A) (k : A -> M B) :
  (forall a, r = Ok a -> keeps bad (k a)) -> keeps bad (bind (lift r) k).
Proof.
  intros Hk s H. unfold bind, lift.
  destruct r as [a|e]; [exact (Hk a eq_refl s H)|exact H].
Qed.

Lemma keeps_emit e : keeps bad (emit e).
Proof. intros s H. exact H. Qed.

Lemma keeps_read_storage {A : Type} (f : Storage -> A) :
  keeps bad (read_storage f).
Proof. intros s H. exact H. Qed.

Lemma keeps_bind {A B : Type} (m : M A) (k : A -> M B) :
  keeps bad m -> (forall a, keeps bad (k a)) -> keeps bad (bind m k).
Proof.
  intros Hm Hk s H. unfold bind. specialize (Hm s H).
  destruct (m s) as [[a|e] s1]; [apply Hk|]; exact Hm.
Qed.

Lemma keeps_try_catch {A : Type} (m : M A) (h : string -> M A) :
  keeps bad m -> (forall e, keeps bad (h e)) -> keeps bad (try_catch m h).
Proof.
  intros Hm Hh s H. unfold try_catch. specialize (Hm s H).
  destruct (m s) as [[a|e] s1]; [|apply Hh]; exact Hm.
Qed.

Lemma keeps_forEach {A : Type} (l : list A) (body : A -> M unit) :
  (forall x, keeps bad (body x)) -> keeps bad (forEach l body).
Proof.
  intros Hb. induction l as [|x l IH]; [apply keeps_ret|].
  simpl. apply keeps_bind; [apply Hb|intros _; exact IH].
Qed.

Lemma keeps_if {A : Type} (b : bool) (m1 m2 : M A) :
  keeps bad m1 -> keeps bad m2 -> keeps bad (if b then m1 else m2).
Proof. destruct b; auto. Qed.

Lemma keeps_callBitrixAPI domain method params :
  keeps bad (callBitrixAPI domain method params).
Proof. intros s H. rewrite callBitrixAPI_storage. exact H. Qed.

Lemma Forall_Map_set {V : Type} (P : uuid * V -> Prop) m k v :
  Forall P m -> P (k, v) -> Forall P (Map.set m k v).
Proof.
  intros F Pv. induction F as [|[k' v'] m Pk F IH]; simpl.
  - constructor; [exact Pv|constructor].
  - destruct (Nat.eqb k' k); constructor; assumption.
Qed.

Lemma Map_get_In {V : Type} (m : list (uuid * V)) k v :
  Map.get m k = Some v -> In (k, v) m.
Proof.
  induction m as [|[k' v'] m IH]; simpl; [discriminate|].
  destruct (Nat.eqb k' k) eqn:E.
  - apply Nat.eqb_eq in E. intros [= ->]. left. congruence.
  - intros H. right. exact (IH H).
Qed.

Lemma never_createRecordResult insertResult st :
  Js.orString (i_status insertResult) "pending" <> bad ->
  never bad st ->
  never bad (snd (MemStorage.createRecordResult insertResult st)).
Proof.
  intros N H. unfold never. simpl. apply Forall_Map_set; assumption.
Qed.

Lemma never_updateRecordResult rid updates st :
  p_status updates <> Some bad ->
  never bad st ->
  never bad (MemStorage.updateRecordResult rid updates st).
Proof.
  intros N H. unfold MemStorage.updateRecordResult.
  destruct (Map.get (recordResults st) rid) as [r|] eqn:G; [|exact H].
  unfold never. simpl. apply Forall_Map_set; [exact H|]. simpl.
  destruct (p_status updates) as [st'|]; simpl; [congruence|].
  apply Map_get_In in G. unfold never in H. rewrite Forall_forall in H.
  exact (H _ G).
Qed.

Lemma never_updateSessionStatus sid v st :
  never bad st -> never bad (MemStorage.updateSessionStatus sid v st).
Proof.
  unfold MemStorage.updateSessionStatus.
  destruct (Map.get (sessions st) sid); intros H; exact H.
Qed.

Lemma keeps_storage_updateSessionStatus sid v :
  keeps bad (storage_updateSessionStatus sid v).
Proof. intros s H. simpl. apply never_updateSessionStatus. exact H. Qed.

Lemma keeps_storage_updateRecordResult rid updates :
  p_status updates <> Some bad ->
  keeps bad (storage_updateRecordResult rid updates).
Proof. intros N s H. simpl. apply never_updateRecordResult; assumption. Qed.

Lemma keeps_storage_createRecordResult insertResult :
  Js.orString (i_status insertResult) "pending" <> bad ->
  keeps bad (storage_createRecordResult insertResult).
Proof. intros N s H. simpl. apply Forall_Map_set; assumption. Qed.

Lemma keeps_storage_createExecutionBatch sid number ids v :
  keeps bad (storage_createExecutionBatch sid number ids v).
Proof. intros s H. exact H. Qed.

Lemma unwritten_found : "found" <> bad.
Proof. intros <-. apply bad_unwritten. simpl. tauto. Qed.

Lemma unwritten_not_found : "not_found" <> bad.
Proof. intros <-. apply bad_unwritten. simpl. tauto. Qed.

Lemma unwritten_completed : Some "completed" <> Some bad.
Proof. intros [= <-]. apply bad_unwritten. simpl. tauto. Qed.

Lemma unwritten_error : Some "error" <> Some bad.
Proof. intros [= <-]. apply bad_unwritten. simpl. tauto. Qed.

Lemma unwritten_found' : Some "found" <> Some bad.
Proof. intros [= <-]. apply bad_unwritten. simpl. tauto. Qed.

Lemma keeps_searchInBitrix24 searchValue keyCol target domain :
  keeps bad (searchInBitrix24 searchValue keyCol target domain).
Proof.
  unfold searchInBitrix24. apply keeps_bind.
  - destruct target.
    + apply keeps_bind; [apply keeps_callBitrixAPI|intros; apply keeps_ret].
    + apply keeps_bind; [apply keeps_callBitrixAPI|intros; apply keeps_ret].
    + apply keeps_bind.
      * apply keeps_try_catch.
        -- apply keeps_bind;
             [apply keeps_callBitrixAPI|intros; apply keeps_ret].
        -- intros e. apply keeps_bind;
             [apply keeps_emit|intros; apply keeps_ret].
      * intros results1. apply keeps_try_catch.
        -- apply keeps_bind;
             [apply keeps_callBitrixAPI|intros; apply keeps_ret].
        -- intros e. apply keeps_bind;
             [apply keeps_emit|intros; apply keeps_ret].
  - intros [|first [|second rest]]; apply keeps_ret.
Qed.

Lemma keeps_tryKeyColumns sid i row target keyCols domain remaining :
  keeps bad (tryKeyColumns sid i row target keyCols domain remaining).
Proof.
  induction remaining as [|keyCol rest IH]; [apply keeps_ret|].
  cbn [tryKeyColumns].
  destruct (Js.read row keyCol) as [searchValue|]; [|exact IH].
  destruct (negb (Js.truthyValue (Some searchValue))); [exact IH|].
  apply keeps_bind.
  - apply keeps_try_catch.
    + apply keeps_bind; [apply keeps_searchInBitrix24|].
      intros [m|]; [|apply keeps_ret].
      apply keeps_bind; [|intros; apply keeps_ret].
      apply keeps_forEach. intros fld.
      apply keeps_lift_bind. intros insertResult E.
      apply keeps_bind; [|intros; apply keeps_ret].
      apply keeps_storage_createRecordResult.
      unfold foundRecord in E.
      destruct (fields (entity m)); [|discriminate].
      injection E as <-. exact unwritten_found.
    + intros e. apply keeps_bind; [apply keeps_emit|intros; apply keeps_ret].
  - intros [|]; [apply keeps_ret|exact IH].
Qed.

Lemma keeps_processFileInBackground sid data target keyCols domain :
  keeps bad (processFileInBackground sid data target keyCols domain).
Proof.
  unfold processFileInBackground. apply keeps_try_catch.
  - apply keeps_bind; [|intros; apply keeps_storage_updateSessionStatus].
    generalize 0. induction data as [|row rest IH]; intros i;
      [apply keeps_ret|].
    simpl. apply keeps_bind; [|intros _; apply IH].
    unfold processRow. apply keeps_bind; [apply keeps_tryKeyColumns|].
    intros [|]; [apply keeps_ret|].
    apply keeps_forEach. intros fld.
    apply keeps_bind; [|intros; apply keeps_ret].
    apply keeps_storage_createRecordResult. exact unwritten_not_found.
  - intros e. apply keeps_bind;
      [apply keeps_emit|intros; apply keeps_storage_updateSessionStatus].
Qed.

Lemma keeps_createBatches fuel sid results :
  forall i, keeps bad (createBatches fuel sid results i).
Proof.
  induction fuel as [|fuel IH]; intros i; [apply keeps_ret|].
  cbn [createBatches]. apply keeps_if; [|apply keeps_ret].
  apply keeps_bind; [apply keeps_storage_createExecutionBatch|].
  intros _. apply keeps_bind; [apply IH|intros; apply keeps_ret].
Qed.

Lemma keeps_processBatch results domain ids :
  keeps bad (processBatch results domain ids).
Proof.
  unfold processBatch. apply keeps_try_catch.
  - apply keeps_bind; [apply keeps_lift|]. intros updates.
    apply keeps_bind.
    { apply keeps_if; [|apply keeps_ret].
      apply keeps_bind; [apply keeps_callBitrixAPI|intros; apply keeps_ret]. }
    intros _. apply keeps_bind.
    { apply keeps_if; [|apply keeps_ret].
      apply keeps_bind; [apply keeps_callBitrixAPI|intros; apply keeps_ret]. }
    intros _. apply keeps_forEach. intros r.
    apply keeps_storage_updateRecordResult. exact unwritten_completed.
  - intros e. apply keeps_bind; [apply keeps_emit|]. intros _.
    apply keeps_forEach. intros r.
    apply keeps_storage_updateRecordResult. exact unwritten_error.
Qed.

Lemma keeps_executeUpdatesInBackground sid requested domain :
  keeps bad (executeUpdatesInBackground sid requested domain).
Proof.
  unfold executeUpdatesInBackground. apply keeps_try_catch.
  - apply keeps_bind; [apply keeps_read_storage|]. intros all.
    apply keeps_bind; [apply keeps_createBatches|]. intros batches.
    apply keeps_bind; [|intros; apply keeps_storage_updateSessionStatus].
    apply keeps_forEach. intros ids. apply keeps_processBatch.
  - intros e. apply keeps_bind;
      [apply keeps_emit|intros; apply keeps_storage_updateSessionStatus].
Qed.

Lemma keeps_revertChangesInBackground sid updatedRecords domain :
  keeps bad (revertChangesInBackground sid updatedRecords domain).
Proof.
  unfold revertChangesInBackground. apply keeps_try_catch.
  - apply keeps_forEach. intros record.
    destruct (currentValue record) as [value|]; [|apply keeps_ret].
    destruct (bitrixId record) as [b|]; [|apply keeps_throw].
    apply keeps_bind; [apply keeps_callBitrixAPI|]. intros _.
    apply keeps_storage_updateRecordResult. exact unwritten_found'.
  - intros e. apply keeps_emit.
Qed.

Lemma never_updateRecordResults updates :
  forallb (fun u => harmless bad (snd u)) updates = true ->
  forall st, never bad st -> never bad (MemStorage.updateRecordResults updates st).
Proof.
  induction updates as [|[rid data] rest IH]; intros C st H; [exact H|].
  simpl in C. apply andb_true_iff in C. destruct C as [C1 C2].
  simpl. apply IH; [exact C2|]. apply never_updateRecordResult; [|exact H].
  unfold harmless in C1. destruct (p_status data) as [v|]; [|discriminate].
  intros [= ->]. rewrite String.eqb_refl in C1. discriminate.
Qed.

Lemma keeps_handle op : clean bad op = true -> keeps bad (handle op).
Proof.
  destruct op as [name size target keyCols fileData
                 |sid target keyCols domain
                 |updates
                 |sid requested domain
                 |sid domain]; intros C; simpl handle.
  - unfold post_api_upload. apply keeps_bind; [|intros; apply keeps_ret].
    intros s H. exact H.
  - unfold post_api_process. apply keeps_try_catch; [|intros; apply keeps_ret].
    apply keeps_bind; [apply keeps_read_storage|].
    intros [session|]; [|apply keeps_ret].
    apply keeps_bind; [apply keeps_storage_updateSessionStatus|]. intros _.
    apply keeps_bind; [apply keeps_processFileInBackground|].
    intros; apply keeps_ret.
  - unfold patch_api_preview. apply keeps_bind; [|intros; apply keeps_ret].
    intros s H. simpl. apply never_updateRecordResults; assumption.
  - unfold post_api_execute. apply keeps_try_catch; [|intros; apply keeps_ret].
    apply keeps_bind; [apply keeps_read_storage|].
    intros [session|]; [|apply keeps_ret].
    apply keeps_bind; [apply keeps_storage_updateSessionStatus|]. intros _.
    apply keeps_bind; [apply keeps_executeUpdatesInBackground|].
    intros; apply keeps_ret.
  - unfold post_api_undo. apply keeps_try_catch; [|intros; apply keeps_ret].
    apply keeps_bind; [apply keeps_read_storage|].
    intros [session|]; [|apply keeps_ret].
    apply keeps_bind; [apply keeps_read_storage|]. intros results.
    apply keeps_bind; [apply keeps_revertChangesInBackground|].
    intros; apply keeps_ret.
Qed.

Lemma never_serve ops :
  forallb (clean bad) ops = true ->
  forall s, never bad (storage s) -> never bad (storage (serve ops s)).
Proof.
  induction ops as [|op rest IH]; intros C s H; [exact H|].
  simpl in C. apply andb_true_iff in C. destruct C as [C1 C2].
  simpl. apply IH; [exact C2|]. apply keeps_handle; assumption.
Qed.

Lemma never_count st sid :
  never bad st ->
  MemStorage.count_status bad (MemStorage.getRecordResults st sid) = 0.
Proof.
  unfold never, MemStorage.count_status, MemStorage.getRecordResults,
    Map.values.
  intros H. induction (recordResults st) as [|[k r] m IH]; [reflexivity|].
  inversion H as [|? ? Hr Hm]; subst. simpl in Hr. simpl.
  destruct (Nat.eqb (sessionId r) sid); [|exact (IH Hm)].
  simpl. destruct (status r =? bad)%string eqn:E;
    [apply String.eqb_eq in E; contradiction|exact (IH Hm)].
Qed.

End Unwritten.

(** *** Undo *)

Lemma revertChangesInBackground_eq sid updatedRecords domain s :
  revertChangesInBackground sid updatedRecords domain s
  = try_catch (forEach updatedRecords (revertOne domain))
      (fun _ => console_error "Undo error:") s.
Proof. reflexivity. Qed.

(** An entry without a recorded current value is left alone: no call, no
    update. *)
Lemma revertOne_skips_null domain record s :
  currentValue record = None -> revertOne domain record s = (Ok tt, s).
Proof. intros H. unfold revertOne. rewrite H. reflexivity. Qed.

(** An entry with a current value and an identifier is reverted with one
    update call carrying that value; when the call returns, the entry gets
    status "found" and the value as its new value, and when it throws the
    entry is left as it is. *)
Lemma revertOne_reverts domain record value b s :
  currentValue record = Some value ->
  bitrixId record = Some b ->
  let call :=
    callBitrixAPI domain
      (if Js.startsWith b "C" then "crm.company.update"
       else "crm.contact.update")
      (UpdateParams {| u_id := b; u_field := field record;
                       u_value := value |}) s in
  revertOne domain record s
  = match fst call with
    | Ok _ =>
        storage_updateRecordResult (rr_id record) (reverted_updates value)
          (snd call)
    | Throw e => (Throw e, snd call)
    end.
Proof.
  intros C B call. unfold revertOne. rewrite C, B. unfold bind. fold call.
  destruct call as [[body|e] s1]; reflexivity.
Qed.

(** Where no entry has status "updated" the undo route selects nothing. *)
Lemma updatedRecordsOf_never st sid :
  never "updated" st ->
  updatedRecordsOf (MemStorage.getRecordResults st sid) = [].
Proof.
  unfold never, updatedRecordsOf, MemStorage.getRecordResults, Map.values.
  intros H. apply filter_none. intros r I.
  apply filter_In in I. destruct I as [I _].
  apply in_map_iff in I. destruct I as ([k r'] & <- & I).
  rewrite Forall_forall in H. specialize (H _ I). simpl in H |- *.
  destruct (status r' =? "updated")%string eqn:E; [|reflexivity].
  apply String.eqb_eq in E. contradiction.
Qed.

Lemma updated_unwritten :
  ~ In "updated" ["pending"; "found"; "not_found"; "completed"; "error"].
Proof. simpl. intros [H|[H|[H|[H|[H|[]]]]]]; discriminate. Qed.

Lemma duplicate_unwritten :
  ~ In "duplicate" ["pending"; "found"; "not_found"; "completed"; "error"].
Proof. simpl. intros [H|[H|[H|[H|[H|[]]]]]]; discriminate. Qed.

(** X27.  Whatever requests are served, as long as no edit of the preview
    sends the status "updated" itself, no entry ever has that status and the
    undo route never has anything to revert. *)
Lemma undo_never_selects ops s sid :
  never "updated" (storage s) ->
  forallb (clean "updated") ops = true ->
  updatedRecordsOf (MemStorage.getRecordResults (storage (serve ops s)) sid)
  = [].
Proof.
  intros H C. apply updatedRecordsOf_never.
  apply never_serve; [exact updated_unwritten|exact C|exact H].
Qed.

(** Nor does any entry ever have status "duplicate", unless an edit of the
    preview sends it. *)
Lemma duplicate_never_stored ops s :
  never "duplicate" (storage s) ->
  forallb (clean "duplicate") ops = true ->
  never "duplicate" (storage (serve ops s)).
Proof.
  intros H C. apply never_serve; [exact duplicate_unwritten|exact C|exact H].
Qed.

(** The updates the batches write carry status "completed" or "error" and
    nothing else. *)
Lemma batchUpdates_statuses results batches outcomes :
  Forall (fun u => p_status (snd u) = Some "completed"
                   \/ p_status (snd u) = Some "error")
         (batchUpdates results batches outcomes).
Proof.
  unfold batchUpdates. apply Forall_concat. apply Forall_map.
  apply Forall_forall. intros [ids outcome] _. apply Forall_map.
  apply Forall_forall. intros r _. simpl.
  destruct outcome; [right|left]; reflexivity.
Qed.

Lemma success_unwritten :
  ~ In "success" ["pending"; "found"; "not_found"; "completed"; "error"].
Proof. simpl. intros [H|[H|[H|[H|[H|[]]]]]]; discriminate. Qed.

(** C10, amended.  Starting from a storage in which no entry has status
    "success" (an empty one, say), and whatever requests are served (uploads,
    processing, executions, undos, and edits of the preview that do not
    themselves send the status "success"), no entry ever has status
    "success", so the [successful] count of [getExecutionResults], which
    counts the entries with that status, is 0. *)
Theorem successful_count_is_zero ops s sid results :
  never "success" (storage s) ->
  forallb (clean "success") ops = true ->
  MemStorage.getExecutionResults (storage (serve ops s)) sid = Some results ->
  never "success" (storage (serve ops s))
  /\ Js.get results "successful" = Some (JNumber 0).
Proof.
  intros H C G.
  assert (N : never "success" (storage (serve ops s)))
    by (apply never_serve; [exact success_unwritten|exact C|exact H]).
  split; [exact N|].
  unfold MemStorage.getExecutionResults in G.
  destruct (MemStorage.getSession (storage (serve ops s)) sid); [|discriminate].
  injection G as <-.
  cbn [Js.get String.eqb Ascii.eqb Bool.eqb].
  rewrite (never_count "success" _ sid N). reflexivity.
Qed.

(** ** What the storage operations leave alone *)

Lemma updateSessionStatus_recordResults sid v st :
  recordResults (MemStorage.updateSessionStatus sid v st) = recordResults st.
Proof.
  unfold MemStorage.updateSessionStatus.
  destruct (Map.get (sessions st) sid); reflexivity.
Qed.

Lemma updateSessionStatus_executionBatches sid v st :
  executionBatches (MemStorage.updateSessionStatus sid v st)
  = executionBatches st.
Proof.
  unfold MemStorage.updateSessionStatus.
  destruct (Map.get (sessions st) sid); reflexivity.
Qed.

Lemma updateSessionStatus_randomUUID sid v st :
  randomUUID (MemStorage.updateSessionStatus sid v st) = randomUUID st.
Proof.
  unfold MemStorage.updateSessionStatus.
  destruct (Map.get (sessions st) sid); reflexivity.
Qed.

Lemma updateRecordResult_executionBatches rid u st :
  executionBatches (MemStorage.updateRecordResult rid u st)
  = executionBatches st.
Proof.
  unfold MemStorage.updateRecordResult.
  destruct (Map.get (recordResults st) rid); reflexivity.
Qed.

Lemma updateRecordResult_randomUUID rid u st :
  randomUUID (MemStorage.updateRecordResult rid u st) = randomUUID st.
Proof.
  unfold MemStorage.updateRecordResult.
  destruct (Map.get (recordResults st) rid); reflexivity.
Qed.

Lemma Map_set_fresh {V : Type} (m : list (uuid * V)) k v :
  ~ In k (Map.keys m) -> Map.set m k v = m ++ [(k, v)].
Proof.
  induction m as [|[k' v'] m IH]; intros N; [reflexivity|].
  simpl. destruct (Nat.eqb k' k) eqn:E.
  - apply Nat.eqb_eq in E. subst. exfalso. apply N. left. reflexivity.
  - rewrite IH; [reflexivity|]. intros H. apply N. right. exact H.
Qed.

Lemma Map_set_keys {V : Type} (m : list (uuid * V)) k v v0 :
  Map.get m k = Some v0 -> Map.keys (Map.set m k v) = Map.keys m.
Proof.
  induction m as [|[k' v'] m IH]; simpl; [discriminate|].
  destruct (Nat.eqb k' k) eqn:E.
  - apply Nat.eqb_eq in E. subst. reflexivity.
  - intros G. simpl. rewrite (IH G). reflexivity.
Qed.

Lemma below_fresh {V : Type} (m : list (uuid * V)) n :
  Forall (fun kv => fst kv < n) m -> ~ In n (Map.keys m).
Proof.
  intros F I. unfold Map.keys in I. apply in_map_iff in I.
  destruct I as (kv & E & I). rewrite Forall_forall in F.
  specialize (F kv I). simpl in F. unfold uuid in *. lia.
Qed.

(** ** Relations that every step of the pipeline respects

    A relation between the state before and the state after that holds of
    the primitive steps and is reflexive and transitive holds of the
    background tasks and of the handlers built from them. *)

Section Respect.

Variable R : State -> State -> Prop.
Hypothesis R_refl : forall s, R s s.
Hypothesis R_trans : forall a b c, R a b -> R b c -> R a c.

Lemma respects_ret {A : Type} (a : A) : respects R (ret a).
Proof. intros s. apply R_refl. Qed.

Lemma respects_throw {A : Type} e : respects R (@throw _ A e).
Proof. intros s. apply R_refl. Qed.

Lemma respects_lift {A : Type} (r : Result A) : respects R (lift r).
Proof. intros s. apply R_refl. Qed.

Lemma respects_lift_bind {A B : Type} (r : Result A) (k : A -> M B) :
  (forall a, r = Ok a -> respects R (k a)) -> respects R (bind (lift r) k).
Proof.
  intros Hk s. unfold bind, lift.
  destruct r as [a|e]; [exact (Hk a eq_refl s)|apply R_refl].
Qed.

Lemma respects_read_storage {A : Type} (f : Storage -> A) :
  respects R (read_storage f).
Proof. intros s. apply R_refl. Qed.

Lemma respects_bind_at {A B : Type} (m : M A) (k : A -> M B) s :
  R s (snd (m s)) -> (forall a, respects R (k a)) -> R s (snd (bind m k s)).
Proof.
  intros Hm Hk. unfold bind.
  destruct (m s) as [[a|e] s1]; [|exact Hm].
  apply (R_trans _ s1); [exact Hm|apply Hk].
Qed.

Lemma respects_bind {A B : Type} (m : M A) (k : A -> M B) :
  respects R m -> (forall a, respects R (k a)) -> respects R (bind m k).
Proof. intros Hm Hk s. apply respects_bind_at; [apply Hm|exact Hk]. Qed.

Lemma respects_try_catch_at {A : Type} (m : M A) (h : string -> M A) s :
  R s (snd (m s)) -> (forall e, respects R (h e)) ->
  R s (snd (try_catch m h s)).
Proof.
  intros Hm Hh. unfold try_catch.
  destruct (m s) as [[a|e] s1]; [exact Hm|].
  apply (R_trans _ s1); [exact Hm|apply Hh].
Qed.

Lemma respects_try_catch {A : Type} (m : M A) (h : string -> M A) :
  respects R m -> (forall e, respects R (h e)) -> respects R (try_catch m h).
Proof. intros Hm Hh s. apply respects_try_catch_at; [apply Hm|exact Hh]. Qed.

Lemma respects_forEach {A : Type} (l : list A) (body : A -> M unit) :
  (forall x, In x l -> respects R (body x)) -> respects R (forEach l body).
Proof.
  induction l as [|x l IH]; intros Hb; [apply respects_ret|].
  simpl. apply respects_bind; [apply Hb; left; reflexivity|].
  intros _. apply IH. intros y Hy. apply Hb. right. exact Hy.
Qed.

Lemma respects_if {A : Type} (b : bool) (m1 m2 : M A) :
  respects R m1 -> respects R m2 -> respects R (if b then m1 else m2).
Proof. destruct b; auto. Qed.

Hypothesis R_call :
  forall domain method params,
    respects R (callBitrixAPI domain method params).
Hypothesis R_console : forall label, respects R (console_error label).

Lemma respects_searchInBitrix24 searchValue keyCol target domain :
  respects R (searchInBitrix24 searchValue keyCol target domain).
Proof.
  unfold searchInBitrix24. apply respects_bind.
  - destruct target.
    + apply respects_bind; [apply R_call|intros; apply respects_ret].
    + apply respects_bind; [apply R_call|intros; apply respects_ret].
    + apply respects_bind.
      * apply respects_try_catch.
        -- apply respects_bind; [apply R_call|intros; apply respects_ret].
        -- intros e. apply respects_bind;
             [apply R_console|intros; apply respects_ret].
      * intros results1. apply respects_try_catch.
        -- apply respects_bind; [apply R_call|intros; apply respects_ret].
        -- intros e. apply respects_bind;
             [apply R_console|intros; apply respects_ret].
  - intros [|first [|second rest]]; apply respects_ret.
Qed.

(** The session the task works on. *)
Variable sid : uuid.
Hypothesis R_status :
  forall v, respects R (storage_updateSessionStatus sid v).

Section Processing.

Hypothesis R_found :
  forall i keyCol searchValue m resultFields row fld,
    respects R (storage_createRecordResult
                  (foundEntry sid i keyCol searchValue m resultFields row
                     fld)).
Hypothesis R_notFound :
  forall i keyCols row fld,
    respects R (storage_createRecordResult
                  (notFoundRecord sid i keyCols row fld)).

Lemma respects_tryKeyColumns i row target keyCols domain remaining :
  respects R (tryKeyColumns sid i row target keyCols domain remaining).
Proof.
  induction remaining as [|keyCol rest IH]; [apply respects_ret|].
  cbn [tryKeyColumns].
  destruct (Js.read row keyCol) as [searchValue|]; [|exact IH].
  destruct (negb (Js.truthyValue (Some searchValue))); [exact IH|].
  apply respects_bind.
  - apply respects_try_catch.
    + apply respects_bind; [apply respects_searchInBitrix24|].
      intros [m|]; [|apply respects_ret].
      apply respects_bind; [|intros; apply respects_ret].
      apply respects_forEach. intros fld _.
      apply respects_lift_bind. intros insertResult E.
      unfold foundRecord in E.
      destruct (fields (entity m)) as [resultFields|]; [|discriminate].
      injection E as <-.
      apply respects_bind; [apply R_found|intros; apply respects_ret].
    + intros e. apply respects_bind;
        [apply R_console|intros; apply respects_ret].
  - intros [|]; [apply respects_ret|exact IH].
Qed.

Lemma respects_processRow target keyCols domain i row :
  respects R (processRow sid target keyCols domain i row).
Proof.
  unfold processRow. apply respects_bind; [apply respects_tryKeyColumns|].
  intros [|]; [apply respects_ret|].
  apply respects_forEach. intros fld _.
  apply respects_bind; [apply R_notFound|intros; apply respects_ret].
Qed.

Lemma respects_processRows target keyCols domain data :
  forall i, respects R (processRows sid target keyCols domain i data).
Proof.
  induction data as [|row rest IH]; intros i; [apply respects_ret|].
  simpl. apply respects_bind; [|intros _; apply IH].
  apply respects_processRow.
Qed.

Lemma respects_processFileInBackground data target keyCols domain :
  respects R (processFileInBackground sid data target keyCols domain).
Proof.
  unfold processFileInBackground. apply respects_try_catch.
  - apply respects_bind; [apply respects_processRows|intros; apply R_status].
  - intros e. apply respects_bind; [apply R_console|intros; apply R_status].
Qed.

Lemma respects_post_api_process target keyCols domain :
  respects R (post_api_process sid target keyCols domain).
Proof.
  unfold post_api_process.
  apply respects_try_catch; [|intros; apply respects_ret].
  apply respects_bind; [apply respects_read_storage|].
  intros [session|]; [|apply respects_ret].
  apply respects_bind; [apply R_status|]. intros _.
  apply respects_bind; [apply respects_processFileInBackground|].
  intros; apply respects_ret.
Qed.

End Processing.

Section Executing.

(** The entries the task may update. *)
Variable mine : uuid -> Prop.
Hypothesis R_batch :
  forall number ids,
    respects R (storage_createExecutionBatch sid number ids "pending").
Hypothesis R_completed :
  forall rid,
    mine rid -> respects R (storage_updateRecordResult rid completed_updates).
Hypothesis R_error :
  forall rid message,
    mine rid ->
    respects R (storage_updateRecordResult rid (error_updates message)).

Lemma respects_createBatches fuel results :
  forall i, respects R (createBatches fuel sid results i).
Proof.
  induction fuel as [|fuel IH]; intros i; [apply respects_ret|].
  cbn [createBatches]. apply respects_if; [|apply respects_ret].
  apply respects_bind; [apply R_batch|].
  intros _. apply respects_bind; [apply IH|intros; apply respects_ret].
Qed.

Lemma respects_processBatch results domain ids :
  (forall r, In r results -> mine (rr_id r)) ->
  respects R (processBatch results domain ids).
Proof.
  intros Mine.
  assert (Sub : forall r,
             In r (filter (fun r => includes_id ids (rr_id r)) results) ->
             mine (rr_id r))
    by (intros r I; apply filter_In in I; apply Mine; apply I).
  unfold processBatch. apply respects_try_catch.
  - apply respects_bind; [apply respects_lift|]. intros updates.
    apply respects_bind.
    { apply respects_if; [|apply respects_ret].
      apply respects_bind; [apply R_call|intros; apply respects_ret]. }
    intros _. apply respects_bind.
    { apply respects_if; [|apply respects_ret].
      apply respects_bind; [apply R_call|intros; apply respects_ret]. }
    intros _. apply respects_forEach. intros r I.
    apply R_completed. apply Sub. exact I.
  - intros e. apply respects_bind; [apply R_console|]. intros _.
    apply respects_forEach. intros r I. apply R_error. apply Sub. exact I.
Qed.

Lemma respects_executeUpdatesInBackground requested domain s :
  (forall r,
     In r (selectResults requested
             (MemStorage.getRecordResults (storage s) sid)) ->
     mine (rr_id r)) ->
  R s (snd (executeUpdatesInBackground sid requested domain s)).
Proof.
  intros Mine. unfold executeUpdatesInBackground.
  apply respects_try_catch_at.
  - unfold bind at 1. cbn [read_storage].
    apply respects_bind; [apply respects_createBatches|]. intros batches.
    apply respects_bind; [|intros; apply R_status].
    apply respects_forEach. intros ids _.
    apply respects_processBatch. exact Mine.
  - intros e. apply respects_bind; [apply R_console|intros; apply R_status].
Qed.

Lemma respects_post_api_execute requested domain s :
  (forall r,
     In r (selectResults requested
             (MemStorage.getRecordResults (storage s) sid)) ->
     mine (rr_id r)) ->
  R s (snd (post_api_execute sid requested domain s)).
Proof.
  intros Mine. unfold post_api_execute.
  apply respects_try_catch_at; [|intros; apply respects_ret].
  unfold bind at 1. cbn [read_storage].
  destruct (MemStorage.getSession (storage s) sid) as [session|];
    [|apply respects_ret].
  unfold bind at 1.
  pose proof (R_status "executing" s) as R1.
  destruct (storage_updateSessionStatus sid "executing" s) as [[[]|e] s1] eqn:E;
    [|exact R1].
  cbn [snd] in R1. apply (R_trans _ s1); [exact R1|].
  apply respects_bind_at; [|intros; apply respects_ret].
  apply respects_executeUpdatesInBackground.
  assert (S1 : storage s1
               = MemStorage.updateSessionStatus sid "executing" (storage s)).
  { unfold storage_updateSessionStatus, bind, with_storage, emit in E.
    cbn in E. injection E as <-. reflexivity. }
  rewrite S1. unfold MemStorage.getRecordResults.
  rewrite updateSessionStatus_recordResults. exact Mine.
Qed.

End Executing.

Section Reverting.

Hypothesis R_reverted :
  forall rid value,
    respects R (storage_updateRecordResult rid (reverted_updates value)).

Lemma respects_revertChangesInBackground updatedRecords domain :
  respects R (revertChangesInBackground sid updatedRecords domain).
Proof.
  unfold revertChangesInBackground. apply respects_try_catch.
  - apply respects_forEach. intros record _.
    destruct (currentValue record) as [value|]; [|apply respects_ret].
    destruct (bitrixId record) as [b|]; [|apply respects_throw].
    apply respects_bind; [apply R_call|]. intros _. apply R_reverted.
  - intros e. apply R_console.
Qed.

Lemma respects_post_api_undo domain :
  respects R (post_api_undo sid domain).
Proof.
  unfold post_api_undo.
  apply respects_try_catch; [|intros; apply respects_ret].
  apply respects_bind; [apply respects_read_storage|].
  intros [session|]; [|apply respects_ret].
  apply respects_bind; [apply respects_read_storage|]. intros results.
  apply respects_bind; [apply respects_revertChangesInBackground|].
  intros; apply respects_ret.
Qed.

End Reverting.

End Respect.

(** ** Properties of the storage that every request keeps *)

Section Invariant.

Variable I : Storage -> Prop.
Variable ok : Patch -> bool.
Hypothesis ok_completed : ok completed_updates = true.
Hypothesis ok_error : forall message, ok (error_updates message) = true.
Hypothesis ok_reverted : forall value, ok (reverted_updates value) = true.
Hypothesis I_found :
  forall sid i keyCol searchValue m resultFields row fld st,
    I st ->
    I (snd (MemStorage.createRecordResult
              (foundEntry sid i keyCol searchValue m resultFields row fld)
              st)).
Hypothesis I_notFound :
  forall sid i keyCols row fld st,
    I st ->
    I (snd (MemStorage.createRecordResult
              (notFoundRecord sid i keyCols row fld) st)).
Hypothesis I_updateRecordResult :
  forall rid u st,
    ok u = true -> I st -> I (MemStorage.updateRecordResult rid u st).
Hypothesis I_updateSessionStatus :
  forall sid v st, I st -> I (MemStorage.updateSessionStatus sid v st).
Hypothesis I_createExecutionBatch :
  forall sid n ids st,
    I st -> I (snd (MemStorage.createExecutionBatch sid n ids "pending" st)).
Hypothesis I_createSession :
  forall ins st, I st -> I (snd (MemStorage.createSession ins st)).

Lemma preserving_refl s : preserving I s s.
Proof. intros H. exact H. Qed.

Lemma preserving_trans a b c :
  preserving I a b -> preserving I b c -> preserving I a c.
Proof. unfold preserving. auto. Qed.

Lemma preserving_callBitrixAPI domain method params :
  respects (preserving I) (callBitrixAPI domain method params).
Proof. intros s H. rewrite callBitrixAPI_storage. exact H. Qed.

Lemma preserving_console_error label :
  respects (preserving I) (console_error label).
Proof. intros s H. exact H. Qed.

Lemma preserving_updateSessionStatus sid v :
  respects (preserving I) (storage_updateSessionStatus sid v).
Proof. intros s H. exact (I_updateSessionStatus sid v _ H). Qed.

Lemma preserving_found sid i keyCol searchValue m resultFields row fld :
  respects (preserving I)
    (storage_createRecordResult
       (foundEntry sid i keyCol searchValue m resultFields row fld)).
Proof.
  intros s H.
  exact (I_found sid i keyCol searchValue m resultFields row fld _ H).
Qed.

Lemma preserving_notFound sid i keyCols row fld :
  respects (preserving I)
    (storage_createRecordResult (notFoundRecord sid i keyCols row fld)).
Proof. intros s H. exact (I_notFound sid i keyCols row fld _ H). Qed.

Lemma preserving_updateRecordResult rid u :
  ok u = true -> respects (preserving I) (storage_updateRecordResult rid u).
Proof. intros O s H. exact (I_updateRecordResult rid u _ O H). Qed.

Lemma preserving_createExecutionBatch sid n ids :
  respects (preserving I) (storage_createExecutionBatch sid n ids "pending").
Proof. intros s H. exact (I_createExecutionBatch sid n ids _ H). Qed.

Lemma invariant_updateRecordResults updates :
  forallb (fun u => ok (snd u)) updates = true ->
  forall st, I st -> I (MemStorage.updateRecordResults updates st).
Proof.
  induction updates as [|[rid data] rest IH]; intros C st H; [exact H|].
  simpl in C. apply andb_true_iff in C. destruct C as [C1 C2].
  simpl. apply IH; [exact C2|]. apply I_updateRecordResult; assumption.
Qed.

Lemma preserving_handle op :
  sends ok op = true -> respects (preserving I) (handle op).
Proof.
  destruct op as [name size target keyCols fileData
                 |sid target keyCols domain
                 |updates
                 |sid requested domain
                 |sid domain]; intros C; cbn [handle].
  - intros s H. exact (I_createSession _ _ H).
  - apply (respects_post_api_process (preserving I) preserving_refl
             preserving_trans preserving_callBitrixAPI
             preserving_console_error sid
             (preserving_updateSessionStatus sid));
      intros; [apply preserving_found|apply preserving_notFound].
  - intros s H. exact (invariant_updateRecordResults updates C _ H).
  - intros s.
    apply (respects_post_api_execute (preserving I) preserving_refl
             preserving_trans preserving_callBitrixAPI
             preserving_console_error sid
             (preserving_updateSessionStatus sid) (fun _ => True)
             (preserving_createExecutionBatch sid)).
    + intros rid _. apply preserving_updateRecordResult. exact ok_completed.
    + intros rid message _. apply preserving_updateRecordResult.
      apply ok_error.
    + intros r _. exact Logic.I.
  - apply (respects_post_api_undo (preserving I) preserving_refl
             preserving_trans preserving_callBitrixAPI
             preserving_console_error sid).
    intros rid value. apply preserving_updateRecordResult. apply ok_reverted.
Qed.

Lemma invariant_serve ops :
  forallb (sends ok) ops = true ->
  forall s, I (storage s) -> I (storage (serve ops s)).
Proof.
  induction ops as [|op rest IH]; intros C s H; [exact H|].
  simpl in C. apply andb_true_iff in C. destruct C as [C1 C2].
  simpl. apply IH; [exact C2|]. apply preserving_handle; assumption.
Qed.

End Invariant.

(** *** The batch records *)

Lemma batchesPending_serve ops s :
  batchesPending (storage s) -> batchesPending (storage (serve ops s)).
Proof.
  intros H.
  apply (invariant_serve batchesPending (fun _ => true)); auto.
  - intros rid u st _ P. unfold batchesPending.
    rewrite updateRecordResult_executionBatches. exact P.
  - intros sid v st P. unfold batchesPending.
    rewrite updateSessionStatus_executionBatches. exact P.
  - intros sid n ids st P. unfold batchesPending. cbn.
    apply Forall_Map_set; [exact P|reflexivity].
  - clear. induction ops as [|op rest IH]; [reflexivity|].
    simpl. rewrite IH, andb_true_r. destruct op; try reflexivity.
    simpl. induction updates as [|u us IHu]; [reflexivity|exact IHu].
Qed.

(** X7.  No batch is ever completed: the server creates batch records with
    status "pending" and has no code that updates one, so after any series
    of requests every batch is still "pending", [getExecutionProgress]
    reports 0 completed batches and a progress of 0, and
    [getExecutionResults] reports [completedBatches: 0], however many
    executions ran to their end. *)
Theorem completed_batches_is_zero (ops : list Op) (s : State) (sid : uuid) :
  batchesPending (storage s) ->
  batchesPending (storage (serve ops s))
  /\ (forall p,
        MemStorage.getExecutionProgress (storage (serve ops s)) sid = Some p ->
        MemStorage.ep_completedBatches p = 0
        /\ (MemStorage.ep_progress p = MemStorage.PercentZero
            \/ MemStorage.ep_progress p
               = MemStorage.PercentOf 0 (MemStorage.ep_totalBatches p)))
  /\ (forall results,
        MemStorage.getExecutionResults (storage (serve ops s)) sid
        = Some results ->
        Js.get results "completedBatches" = Some (JNumber 0)).
Proof.
  intros H. pose proof (batchesPending_serve ops s H) as P.
  assert (Z : List.length
                (filter (fun b => (eb_status b =? "completed")%string)
                   (MemStorage.getExecutionBatches (storage (serve ops s)) sid))
              = 0).
  { unfold MemStorage.getExecutionBatches, Map.values.
    unfold batchesPending in P.
    induction (executionBatches (storage (serve ops s))) as [|[k b] m IH];
      [reflexivity|].
    inversion P as [|? ? Pb Pm]; subst. simpl in Pb. simpl.
    destruct (Nat.eqb (eb_sessionId b) sid); [|exact (IH Pm)].
    simpl. rewrite Pb. simpl. exact (IH Pm). }
  split; [exact P|]. split.
  - intros p G. unfold MemStorage.getExecutionProgress in G.
    destruct (MemStorage.getSession (storage (serve ops s)) sid); [|discriminate].
    injection G as <-. cbn [MemStorage.ep_completedBatches
      MemStorage.ep_progress MemStorage.ep_totalBatches].
    rewrite Z. split; [reflexivity|].
    destruct (0 <? _)%nat; auto.
  - intros results G. unfold MemStorage.getExecutionResults in G.
    destruct (MemStorage.getSession (storage (serve ops s)) sid); [|discriminate].
    injection G as <-. rewrite Z. reflexivity.
Qed.

(** *** The keys *)

Lemma Forall_below_weaken {V : Type} (m : list (uuid * V)) n :
  Forall (fun kv => fst kv < n) m -> Forall (fun kv => fst kv < S n) m.
Proof. apply Forall_impl. intros kv H. unfold uuid in *. lia. Qed.

Lemma wellKeyed_createRecordResult ins st :
  wellKeyed st -> wellKeyed (snd (MemStorage.createRecordResult ins st)).
Proof.
  intros (N & F & B & S). unfold wellKeyed. cbn.
  assert (Fr : ~ In (randomUUID st) (Map.keys (recordResults st))).
  { apply below_fresh. revert F. apply Forall_impl. intros kv H. apply H. }
  rewrite Map_set_fresh by exact Fr.
  split; [|split; [|split]].
  - unfold Map.keys in *. rewrite map_app. cbn [map fst].
    apply NoDup_app; [exact N|repeat constructor; intros []|].
    intros a Ha [<-|[]]. contradiction.
  - apply Forall_app. split.
    + revert F. apply Forall_impl. intros kv [H1 H2]. split; [exact H1|].
      unfold uuid in *. lia.
    + constructor; [|constructor]. cbn. split; [reflexivity|].
      unfold uuid in *. lia.
  - apply Forall_below_weaken. exact B.
  - apply Forall_below_weaken. exact S.
Qed.

Lemma wellKeyed_updateRecordResult rid u st :
  keepsId u = true ->
  wellKeyed st -> wellKeyed (MemStorage.updateRecordResult rid u st).
Proof.
  intros K (N & F & B & S). unfold MemStorage.updateRecordResult.
  destruct (Map.get (recordResults st) rid) as [r|] eqn:G;
    [|repeat split; assumption].
  unfold wellKeyed. cbn. split; [|split; [|split]]; try assumption.
  - pose proof (Map_set_keys _ _ (spread r u) _ G) as E.
    unfold Map.keys in *. rewrite E. exact N.
  - apply Forall_Map_set; [exact F|]. apply Map_get_In in G.
    rewrite Forall_forall in F. specialize (F _ G). cbn in F |- *.
    unfold keepsId in K. destruct (p_id u); [discriminate|]. exact F.
Qed.

Lemma wellKeyed_updateSessionStatus sid v st :
  wellKeyed st -> wellKeyed (MemStorage.updateSessionStatus sid v st).
Proof.
  intros (N & F & B & S). unfold MemStorage.updateSessionStatus.
  destruct (Map.get (sessions st) sid) as [session|] eqn:G;
    [|repeat split; assumption].
  unfold wellKeyed. cbn. split; [|split; [|split]]; try assumption.
  apply Forall_Map_set; [exact S|]. apply Map_get_In in G.
  rewrite Forall_forall in S. exact (S _ G).
Qed.

Lemma wellKeyed_createExecutionBatch sid n ids v st :
  wellKeyed st ->
  wellKeyed (snd (MemStorage.createExecutionBatch sid n ids v st)).
Proof.
  intros (N & F & B & S). unfold wellKeyed. cbn.
  split; [exact N|]. split; [|split].
  - revert F. apply Forall_impl. intros kv [H1 H2]. split; [exact H1|].
    unfold uuid in *. lia.
  - apply Forall_Map_set; [apply Forall_below_weaken; exact B|].
    cbn. unfold uuid in *. lia.
  - apply Forall_below_weaken. exact S.
Qed.

Lemma wellKeyed_createSession ins st :
  wellKeyed st -> wellKeyed (snd (MemStorage.createSession ins st)).
Proof.
  intros (N & F & B & S). unfold wellKeyed. cbn.
  split; [exact N|]. split; [|split].
  - revert F. apply Forall_impl. intros kv [H1 H2]. split; [exact H1|].
    unfold uuid in *. lia.
  - apply Forall_below_weaken. exact B.
  - apply Forall_Map_set; [apply Forall_below_weaken; exact S|].
    cbn. unfold uuid in *. lia.
Qed.

Lemma wellKeyed_serve ops s :
  forallb (sends keepsId) ops = true ->
  wellKeyed (storage s) -> wellKeyed (storage (serve ops s)).
Proof.
  intros C H.
  apply (invariant_serve wellKeyed keepsId); auto.
  - intros; apply wellKeyed_createRecordResult; assumption.
  - intros; apply wellKeyed_createRecordResult; assumption.
  - apply wellKeyed_updateRecordResult.
  - apply wellKeyed_updateSessionStatus.
  - intros; apply wellKeyed_createExecutionBatch; assumption.
  - apply wellKeyed_createSession.
Qed.

Lemma Map_get_NoDup {V : Type} (m : list (uuid * V)) k v :
  NoDup (Map.keys m) -> In (k, v) m -> Map.get m k = Some v.
Proof.
  induction m as [|[k' v'] m IH]; intros N I; [destruct I|].
  inversion N as [|? ? Nk Nm]; subst. simpl.
  destruct I as [[= -> ->]|I]; [rewrite Nat.eqb_refl; reflexivity|].
  destruct (Nat.eqb k' k) eqn:E; [|exact (IH Nm I)].
  apply Nat.eqb_eq in E. subst. exfalso. apply Nk.
  unfold Map.keys. apply in_map_iff. exists (k, v). auto.
Qed.

Lemma wellKeyed_values st :
  wellKeyed st ->
  map rr_id (Map.values (recordResults st)) = Map.keys (recordResults st).
Proof.
  intros (_ & F & _). unfold Map.values, Map.keys. rewrite map_map.
  apply map_ext_in. intros kv I. rewrite Forall_forall in F.
  apply (F kv I).
Qed.

Lemma wellKeyed_lookup st r :
  wellKeyed st ->
  In r (Map.values (recordResults st)) ->
  Map.get (recordResults st) (rr_id r) = Some r.
Proof.
  intros W I. destruct W as (N & F & _). unfold Map.values in I.
  apply in_map_iff in I. destruct I as ([k r'] & E & I). simpl in E. subst r'.
  rewrite Forall_forall in F. destruct (F _ I) as [E _]. simpl in E.
  rewrite E. apply Map_get_NoDup; assumption.
Qed.

Lemma NoDup_map_filter {A B : Type} (f : A -> B) (p : A -> bool) l :
  NoDup (map f l) -> NoDup (map f (filter p l)).
Proof.
  induction l as [|a l IH]; intros N; [constructor|].
  inversion N as [|? ? Na Nl]; subst. simpl.
  destruct (p a); [|exact (IH Nl)].
  simpl. constructor; [|exact (IH Nl)].
  intros I. apply Na. apply in_map_iff in I. destruct I as (x & E & I).
  apply filter_In in I. apply in_map_iff. exists x. tauto.
Qed.

Lemma wellKeyed_NoDup st sid :
  wellKeyed st -> NoDup (map rr_id (MemStorage.getRecordResults st sid)).
Proof.
  intros W. unfold MemStorage.getRecordResults. apply NoDup_map_filter.
  rewrite wellKeyed_values by exact W. apply W.
Qed.

(** X8.  Entries keep their identity.  Starting from a storage whose keys are
    in order (the empty one, say) and whatever requests are served, as long
    as no edit of the preview sends an [id] property, the entries keep
    distinct identifiers, each is stored under its own [id], no entry is ever
    removed or stored under another key, and so the entries of a session
    have distinct identifiers and [updateRecordResult(r.id, ...)] reaches
    [r] itself. *)
Theorem entries_keep_their_identity (ops : list Op) (s : State) (sid : uuid) :
  wellKeyed (storage s) ->
  forallb (sends keepsId) ops = true ->
  let st := storage (serve ops s) in
  wellKeyed st
  /\ NoDup (map rr_id (MemStorage.getRecordResults st sid))
  /\ (forall r, In r (MemStorage.getRecordResults st sid) ->
        Map.get (recordResults st) (rr_id r) = Some r).
Proof.
  intros W C st.
  assert (W' : wellKeyed st) by (apply wellKeyed_serve; assumption).
  split; [exact W'|]. split; [apply wellKeyed_NoDup; exact W'|].
  intros r I. apply wellKeyed_lookup; [exact W'|].
  unfold MemStorage.getRecordResults in I. apply filter_In in I. apply I.
Qed.

(** ** What processing does to the storage *)

Lemma sessionsKept_refl sid st : sessionsKept sid st st.
Proof. intros k. split; reflexivity. Qed.

Lemma sessionsKept_trans sid a b c :
  sessionsKept sid a b -> sessionsKept sid b c -> sessionsKept sid a c.
Proof.
  intros H1 H2 k. destruct (H1 k) as [A1 B1]. destruct (H2 k) as [A2 B2].
  split; [congruence|]. intros N. rewrite B2, B1 by exact N. reflexivity.
Qed.

Lemma sessionsKept_same sid st st' :
  sessions st' = sessions st -> sessionsKept sid st st'.
Proof. intros E k. rewrite E. split; reflexivity. Qed.

Lemma sessionsKept_updateSessionStatus sid v st :
  sessionsKept sid st (MemStorage.updateSessionStatus sid v st).
Proof.
  unfold MemStorage.updateSessionStatus.
  destruct (Map.get (sessions st) sid) as [session|] eqn:G;
    [|apply sessionsKept_refl].
  intros k. cbn [sessions]. destruct (Nat.eq_dec k sid) as [->|N].
  - rewrite Map_get_set by congruence. rewrite G. split; [reflexivity|].
    congruence.
  - rewrite Map_get_set_ne by exact N. split; reflexivity.
Qed.

Lemma processed_refl sid s : processed sid s s.
Proof.
  intros W. split; [exact W|]. split; [apply sessionsKept_refl|].
  split; [reflexivity|]. exists []. rewrite !app_nil_r.
  repeat split. constructor.
Qed.

Lemma processed_trans sid a b c :
  processed sid a b -> processed sid b c -> processed sid a c.
Proof.
  intros H1 H2 W.
  destruct (H1 W) as (W1 & S1 & B1 & n1 & L1 & E1 & F1).
  destruct (H2 W1) as (W2 & S2 & B2 & n2 & L2 & E2 & F2).
  split; [exact W2|]. split; [exact (sessionsKept_trans _ _ _ _ S1 S2)|].
  split; [congruence|]. exists (n1 ++ n2).
  assert (C : created (n1 ++ n2) = created n1 ++ created n2)
    by (unfold created; apply project_app).
  split; [rewrite L2, L1, app_assoc; reflexivity|]. rewrite C. split.
  - rewrite E2, E1. unfold entriesOf. rewrite map_app, app_assoc. reflexivity.
  - apply Forall_app. split; assumption.
Qed.

(** A step that logs events that create nothing and leaves the entries and
    the batches as they are. *)
Lemma processed_quiet sid s s' new :
  log s' = log s ++ new ->
  created new = [] ->
  (wellKeyed (storage s) -> wellKeyed (storage s')) ->
  sessionsKept sid (storage s) (storage s') ->
  recordResults (storage s') = recordResults (storage s) ->
  executionBatches (storage s') = executionBatches (storage s) ->
  processed sid s s'.
Proof.
  intros L C W S E B W0. split; [exact (W W0)|]. split; [exact S|].
  split; [exact B|]. exists new. rewrite C, E, app_nil_r.
  repeat split; [exact L|constructor].
Qed.

Lemma processed_callBitrixAPI sid domain method params :
  respects (processed sid) (callBitrixAPI domain method params).
Proof.
  intros s.
  apply (processed_quiet _ _ _ [EvCall domain method params]);
    rewrite ?callBitrixAPI_storage;
    auto using callBitrixAPI_log, sessionsKept_refl.
Qed.

Lemma processed_console_error sid label :
  respects (processed sid) (console_error label).
Proof.
  intros s.
  apply (processed_quiet _ _ _ [EvConsoleError label]);
    auto using sessionsKept_refl.
Qed.

Lemma processed_updateSessionStatus sid v :
  respects (processed sid) (storage_updateSessionStatus sid v).
Proof.
  intros s.
  apply (processed_quiet _ _ _ [EvUpdateSessionStatus sid v]);
    cbn [storage_updateSessionStatus snd storage log]; auto.
  - apply wellKeyed_updateSessionStatus.
  - apply sessionsKept_updateSessionStatus.
  - apply updateSessionStatus_recordResults.
  - apply updateSessionStatus_executionBatches.
Qed.

Lemma processed_createRecordResult sid ins :
  i_sessionId ins = sid ->
  Js.orString (i_status ins) "pending" = "found"
  \/ Js.orString (i_status ins) "pending" = "not_found" ->
  respects (processed sid) (storage_createRecordResult ins).
Proof.
  intros HS HT s W. rewrite storage_createRecordResult_run.
  cbn [snd storage log].
  split; [apply wellKeyed_createRecordResult; exact W|].
  split; [apply sessionsKept_same; reflexivity|].
  split; [reflexivity|].
  exists [EvCreateRecordResult
            (fst (MemStorage.createRecordResult ins (storage s)))].
  split; [reflexivity|]. cbn. split.
  - apply Map_set_fresh. apply below_fresh.
    destruct W as (_ & F & _). revert F. apply Forall_impl.
    intros kv H. apply H.
  - constructor; [|constructor]. split; assumption.
Qed.

Lemma storage_updateSessionStatus_run sid v s :
  storage_updateSessionStatus sid v s
  = (Ok tt,
     {| storage := MemStorage.updateSessionStatus sid v (storage s);
        rateLimiter := rateLimiter s;
        world := world s;
        log := log s ++ [EvUpdateSessionStatus sid v] |}).
Proof. reflexivity. Qed.

(** A row never stops the loop over the rows, and it gets one entry per
    column that is not a key column. *)
Lemma processRow_count sid target keyCols domain i row s :
  exists new,
    fst (processRow sid target keyCols domain i row s) = Ok tt
    /\ log (snd (processRow sid target keyCols domain i row s)) = log s ++ new
    /\ List.length (created new) = List.length (fieldsToUpdate row keyCols).
Proof.
  rewrite processRow_eq.
  destruct (tryKeyColumns_spec sid i row target keyCols domain keyCols s)
    as (n1 & tried & untried & L1 & T & _ & D).
  destruct (tryKeyColumns sid i row target keyCols domain keyCols s)
    as [[found|e] s1] eqn:P; simpl in L1, D.
  - destruct D as [(R & U & K)|(R & earlier & k & m & T' & S & F)];
      injection R as ->.
    + destruct (forEach_create (notFoundRecord sid i keyCols row)
                  (fieldsToUpdate row keyCols) s1) as (rs & E & L2 & F).
      exists (n1 ++ map EvCreateRecordResult rs).
      split; [rewrite E; reflexivity|].
      split; [rewrite L2, L1, app_assoc; reflexivity|].
      unfold created in *. rewrite project_app. fold created.
      fold created in K. rewrite K, created_map.
      symmetry. exact (Forall2_length F).
    + exists n1. split; [reflexivity|]. split; [exact L1|].
      symmetry. exact (Forall2_length F).
  - destruct D as [(R & _)|(R & _)]; discriminate.
Qed.

Lemma processRows_count sid target keyCols domain data :
  forall i s,
  exists new,
    fst (processRows sid target keyCols domain i data s) = Ok tt
    /\ log (snd (processRows sid target keyCols domain i data s))
       = log s ++ new
    /\ List.length (created new) = entryCount keyCols data.
Proof.
  induction data as [|row rest IH]; intros i s.
  - exists []. rewrite app_nil_r. repeat split.
  - destruct (processRow_count sid target keyCols domain i row s)
      as (n1 & F1 & L1 & C1).
    cbn [processRows]. unfold bind.
    destruct (processRow sid target keyCols domain i row s) as [r s1].
    cbn [fst snd] in F1, L1. subst r.
    destruct (IH (S i) s1) as (n2 & F2 & L2 & C2).
    exists (n1 ++ n2). split; [exact F2|].
    split; [rewrite L2, L1, app_assoc; reflexivity|].
    unfold created in *. rewrite project_app, length_app. fold created.
    unfold entryCount in *. cbn [map list_sum]. fold created in C1, C2.
    rewrite C1, C2. reflexivity.
Qed.

(** Processing never takes its [catch] branch. *)
Lemma processFileInBackground_run sid data target keyCols domain s :
  processFileInBackground sid data target keyCols domain s
  = storage_updateSessionStatus sid "preview"
      (snd (processRows sid target keyCols domain 0 data s)).
Proof.
  destruct (processRows_count sid target keyCols domain data 0 s)
    as (new & F & _).
  unfold processFileInBackground, try_catch, bind.
  destruct (processRows sid target keyCols domain 0 data s) as [r s2].
  cbn [fst snd] in *. subst r. reflexivity.
Qed.

Lemma post_api_process_run sid target keyCols domain s session :
  MemStorage.getSession (storage s) sid = Some session ->
  snd (post_api_process sid target keyCols domain s)
  = snd (processFileInBackground sid (originalData session) target keyCols
           domain (snd (storage_updateSessionStatus sid "processing" s))).
Proof.
  intros G. unfold post_api_process, try_catch, bind, read_storage.
  rewrite G. rewrite storage_updateSessionStatus_run. cbn [snd].
  destruct (processFileInBackground sid (originalData session) target keyCols
              domain _) as [[[]|e] s2]; reflexivity.
Qed.

Lemma values_entriesOf rs : Map.values (entriesOf rs) = rs.
Proof.
  unfold Map.values, entriesOf. rewrite map_map. cbn. apply map_id.
Qed.

Lemma count_status_app st l1 l2 :
  MemStorage.count_status st (l1 ++ l2)
  = MemStorage.count_status st l1 + MemStorage.count_status st l2.
Proof.
  unfold MemStorage.count_status. rewrite filter_app, length_app. reflexivity.
Qed.

Lemma getRecordResults_appended st st' sid rs :
  recordResults st' = recordResults st ++ entriesOf rs ->
  MemStorage.getRecordResults st' sid
  = MemStorage.getRecordResults st sid
    ++ filter (fun r => Nat.eqb (sessionId r) sid) rs.
Proof.
  intros E. unfold MemStorage.getRecordResults, Map.values.
  rewrite E, map_app, filter_app. fold (Map.values (entriesOf rs)).
  rewrite values_entriesOf. reflexivity.
Qed.

(** X9.  What [POST /api/process] leaves in the storage, for a session that
    exists, whatever the CRM answers.  The entries of the session are those
    it had, followed by one new entry per row and column that is not a key
    column, each "found" or "not_found": processing a session again adds a
    second set of entries, it does not replace the first.  The entries and
    the sessions of other sessions, and the batches, are untouched.  The
    session ends in status "preview", never "error", and
    [getProcessingStatus] then counts entries as processed rows, so that its
    progress is the number of entries over the number of rows. *)
Theorem processing_appends_entries (sid : uuid) (target : TargetType)
    (keyCols : list string) (domain : option string) (s : State)
    (session : UploadSession) :
  wellKeyed (storage s) ->
  MemStorage.getSession (storage s) sid = Some session ->
  let s' := snd (post_api_process sid target keyCols domain s) in
  let old := MemStorage.getRecordResults (storage s) sid in
  let n := entryCount keyCols (originalData session) in
  (exists added,
     MemStorage.getRecordResults (storage s') sid = old ++ added
     /\ List.length added = n
     /\ Forall (fun r => status r = "found" \/ status r = "not_found") added)
  /\ (forall other, other <> sid ->
        MemStorage.getRecordResults (storage s') other
        = MemStorage.getRecordResults (storage s) other
        /\ MemStorage.getSession (storage s') other
           = MemStorage.getSession (storage s) other)
  /\ executionBatches (storage s') = executionBatches (storage s)
  /\ MemStorage.getProcessingStatus (storage s') sid
     = Some {| MemStorage.ps_sessionId := sid;
               MemStorage.ps_status := "preview";
               MemStorage.ps_progress :=
                 MemStorage.PercentOf (List.length old + n)
                                      (totalRows session);
               MemStorage.ps_processedRows := List.length old + n;
               MemStorage.ps_totalRows := totalRows session;
               MemStorage.ps_errors := MemStorage.count_status "error" old |}.
Proof.
  intros W G s' old n.
  set (s1 := snd (storage_updateSessionStatus sid "processing" s)).
  set (s2 := snd (processRows sid target keyCols domain 0
                    (originalData session) s1)).
  assert (E' : s' = snd (storage_updateSessionStatus sid "preview" s2)).
  { unfold s'. rewrite (post_api_process_run _ _ _ _ _ _ G).
    rewrite processFileInBackground_run. reflexivity. }
  assert (P1 : processed sid s s1)
    by apply processed_updateSessionStatus.
  assert (P2 : processed sid s1 s2).
  { apply (respects_processRows (processed sid) (processed_refl sid)
             (processed_trans sid) (processed_callBitrixAPI sid)
             (processed_console_error sid) sid).
    - intros. apply processed_createRecordResult; [reflexivity|].
      left. reflexivity.
    - intros. apply processed_createRecordResult; [reflexivity|].
      right. reflexivity. }
  assert (P3 : processed sid s2 s')
    by (rewrite E'; apply processed_updateSessionStatus).
  pose proof (processed_trans _ _ _ _ P1 P2) as P12.
  pose proof (processed_trans _ _ _ _ P12 P3) as P.
  destruct (P W) as (W' & SK & EB & new & L & RR & F).
  destruct (P12 W) as (_ & SK2 & _).
  (* the entries created are those of the loop over the rows *)
  destruct (processRows_count sid target keyCols domain
              (originalData session) 0 s1) as (n2 & _ & L2 & C2).
  fold s2 in L2.
  assert (N : new = [EvUpdateSessionStatus sid "processing"] ++ n2
                    ++ [EvUpdateSessionStatus sid "preview"]).
  { apply (app_inv_head (log s)). rewrite <- L, E'.
    rewrite storage_updateSessionStatus_run. cbn [snd log]. rewrite L2.
    unfold s1. rewrite storage_updateSessionStatus_run. cbn [snd log].
    rewrite <- !app_assoc. reflexivity. }
  assert (C : created new = created n2).
  { rewrite N. unfold created. rewrite !project_app. cbn.
    rewrite app_nil_r. reflexivity. }
  assert (Mine : filter (fun r => Nat.eqb (sessionId r) sid) (created new)
                 = created new).
  { apply filter_all. intros r I. rewrite Forall_forall in F.
    destruct (F r I) as [-> _]. apply Nat.eqb_refl. }
  assert (Added : MemStorage.getRecordResults (storage s') sid
                  = old ++ created new).
  { rewrite (getRecordResults_appended _ _ _ _ RR), Mine. reflexivity. }
  split; [|split; [|split]].
  - exists (created new). split; [exact Added|].
    split; [rewrite C; exact C2|].
    revert F. apply Forall_impl. intros r H. apply H.
  - intros other N'. split; [|apply SK; exact N'].
    rewrite (getRecordResults_appended _ _ _ _ RR).
    rewrite filter_none; [apply app_nil_r|].
    intros r I. rewrite Forall_forall in F. destruct (F r I) as [-> _].
    apply Nat.eqb_neq. congruence.
  - exact EB.
  - (* the session as the last status update leaves it *)
    destruct (SK2 sid) as [Fz _]. unfold MemStorage.getSession in G.
    rewrite G in Fz.
    destruct (Map.get (sessions (storage s2)) sid) as [sess2|] eqn:G2;
      [|discriminate Fz].
    cbn [option_map] in Fz. injection Fz as _ _ _ T _ _ _.
    unfold MemStorage.getProcessingStatus. rewrite Added.
    assert (GS : MemStorage.getSession (storage s') sid
                 = Some {| us_id := us_id sess2;
                           fileName := fileName sess2;
                           fileSize := fileSize sess2;
                           totalRows := totalRows sess2;
                           targetType := targetType sess2;
                           keyColumns := keyColumns sess2;
                           originalData := originalData sess2;
                           processedData := None;
                           us_status := "preview" |}).
    { rewrite E', storage_updateSessionStatus_run. cbn [snd storage].
      unfold MemStorage.getSession, MemStorage.updateSessionStatus.
      rewrite G2. cbn [sessions]. apply Map_get_set. congruence. }
    assert (Z : MemStorage.count_status "error" (created new) = 0).
    { unfold MemStorage.count_status. rewrite filter_none; [reflexivity|].
      intros r I. rewrite Forall_forall in F.
      destruct (F r I) as [_ [-> | ->]]; reflexivity. }
    rewrite GS. cbn [us_status totalRows].
    rewrite count_status_app, Z, Nat.add_0_r, length_app, C, C2, T.
    reflexivity.
Qed.

(** ** The matcher, row by row *)

(** A loop that creates one entry per field stores each of them under the
    identifier drawn for it, the next ones in order, and leaves the entries
    kept under earlier identifiers as they were. *)
Lemma forEach_create_stored (mk : string -> InsertRecordResult) flds :
  forall s,
  exists rs,
    forEach flds (fun fld => storage_createRecordResult (mk fld) ;; ret tt) s
    = (Ok tt, snd (forEach flds
                     (fun fld => storage_createRecordResult (mk fld) ;; ret tt) s))
    /\ log (snd (forEach flds
                   (fun fld => storage_createRecordResult (mk fld) ;; ret tt) s))
       = log s ++ map EvCreateRecordResult rs
    /\ Forall2 (fun fld r => stored_as (mk fld) r) flds rs
    /\ (forall k,
          k < randomUUID (storage s) ->
          Map.get (recordResults
                     (storage (snd (forEach flds
                                      (fun fld =>
                                         storage_createRecordResult (mk fld) ;;
                                         ret tt) s)))) k
          = Map.get (recordResults (storage s)) k)
    /\ (forall j r,
          nth_error rs j = Some r ->
          rr_id r = randomUUID (storage s) + j
          /\ Map.get (recordResults
                        (storage (snd (forEach flds
                                         (fun fld =>
                                            storage_createRecordResult (mk fld) ;;
                                            ret tt) s))))
                     (randomUUID (storage s) + j)
             = Some r).
Proof.
  induction flds as [|fld rest IH]; intros s.
  - exists []. split; [reflexivity|].
    split; [cbn; rewrite app_nil_r; reflexivity|].
    split; [constructor|]. split; [intros; reflexivity|].
    intros j r H. destruct j; discriminate H.
  - rewrite (forEach_cons_Ok fld rest _ s _ (create_then_ret (mk fld) s)).
    destruct (IH (snd (storage_createRecordResult (mk fld) s)))
      as (rs & E & L & F & K & G).
    rewrite storage_createRecordResult_run in *. cbn [snd storage log] in *.
    exists (fst (MemStorage.createRecordResult (mk fld) (storage s)) :: rs).
    split; [exact E|]. split.
    { rewrite L. cbn. rewrite <- app_assoc. reflexivity. }
    split.
    { constructor; [|exact F]. exists (storage s). reflexivity. }
    split.
    { intros k B. rewrite K by (cbn; unfold uuid in *; lia).
      cbn. apply Map_get_set_ne. unfold uuid in *. lia. }
    intros [|j] r H.
    + injection H as <-. cbn [fst MemStorage.createRecordResult rr_id].
      rewrite Nat.add_0_r. split; [reflexivity|].
      rewrite K by (cbn; unfold uuid in *; lia).
      cbn. apply Map_get_set_same.
    + destruct (G j r H) as (I & M'). cbn in I, M'.
      replace (randomUUID (storage s) + S j)
        with (S (randomUUID (storage s) + j)) by lia.
      split; assumption.
Qed.


(** What the matcher does with one row, from any state. *)
Lemma processRow_run sid target keyCols domain i row s :
  exists new tried untried,
    fst (processRow sid target keyCols domain i row s) = Ok tt
    /\ log (snd (processRow sid target keyCols domain i row s)) = log s ++ new
    /\ filter (hasValue row) keyCols = tried ++ untried
    /\ calls new
       = flat_map (fun k => searchCalls target k (searchValueOf row k)) tried
    /\ match fst (findMatch row target keyCols domain keyCols s) with
       | Ok (Some (keyCol, searchValue, m)) =>
           (exists earlier, tried = earlier ++ [keyCol])
           /\ fst (tryKeyColumns sid i row target keyCols domain keyCols s)
              = Ok true
           /\ Forall2 (matched_entry sid i row m) (fieldsToUpdate row keyCols)
                      (created new)
           /\ Forall (fun r =>
                        searchKey r
                        = (keyCol ++ ": " ++ Js.showValue (Some searchValue))%string)
                     (created new)
       | Ok None =>
           untried = []
           /\ fst (tryKeyColumns sid i row target keyCols domain keyCols s)
              = Ok false
           /\ Forall2 (unmatched_entry sid i row) (fieldsToUpdate row keyCols)
                      (created new)
       | Throw _ => False
       end
    /\ (forall j r,
          nth_error (created new) j = Some r ->
          rr_id r = randomUUID (storage s) + j
          /\ Map.get (recordResults
                        (storage (snd (processRow sid target keyCols domain i
                                         row s))))
                     (rr_id r)
             = Some r)
    /\ (wellKeyed (storage s) ->
        recordResults (storage (snd (processRow sid target keyCols domain i
                                       row s)))
        = recordResults (storage s) ++ entriesOf (created new)).
Proof.
  assert (P : processed sid s
                (snd (processRow sid target keyCols domain i row s))).
  { apply (respects_processRow (processed sid) (processed_refl sid)
             (processed_trans sid) (processed_callBitrixAPI sid)
             (processed_console_error sid) sid).
    - intros. apply processed_createRecordResult; [reflexivity|].
      left. reflexivity.
    - intros. apply processed_createRecordResult; [reflexivity|].
      right. reflexivity. }
  assert (Q : forall new,
            log (snd (processRow sid target keyCols domain i row s))
            = log s ++ new ->
            wellKeyed (storage s) ->
            recordResults (storage (snd (processRow sid target keyCols domain
                                           i row s)))
            = recordResults (storage s) ++ entriesOf (created new)).
  { intros new L W. destruct (P W) as (_ & _ & _ & new' & L' & RR & _).
    rewrite L in L'. apply app_inv_head in L'. subst new'. exact RR. }
  revert Q. rewrite processRow_eq, tryKeyColumns_findMatch. intros Q.
  destruct (findMatch_spec row target keyCols domain keyCols s)
    as (n1 & tried & untried & L1 & S1 & T & C1 & R1 & D).
  destruct (findMatch row target keyCols domain keyCols s)
    as [[[[[k v] m]|]|e] s1]; cbn [fst snd] in *.
  - (* matched *)
    destruct D as (EA & -> & RD).
    assert (X : exists rs,
               createFoundRecords sid i row keyCols k (searchValueOf row k) m s1
               = (Ok tt,
                  snd (createFoundRecords sid i row keyCols k
                         (searchValueOf row k) m s1))
               /\ log (snd (createFoundRecords sid i row keyCols k
                              (searchValueOf row k) m s1))
                  = log s1 ++ map EvCreateRecordResult rs
               /\ Forall2
                    (fun fld r =>
                       exists insertResult,
                         foundRecord sid i k (searchValueOf row k) m row fld
                         = Ok insertResult
                         /\ stored_as insertResult r)
                    (fieldsToUpdate row keyCols) rs
               /\ (forall j r,
                     nth_error rs j = Some r ->
                     rr_id r = randomUUID (storage s1) + j
                     /\ Map.get (recordResults
                                   (storage
                                      (snd (createFoundRecords sid i row keyCols
                                              k (searchValueOf row k) m s1))))
                                (randomUUID (storage s1) + j)
                        = Some r)).
    { unfold readable in RD.
      destruct (fields (entity m)) as [f|] eqn:F.
      - rewrite (createFound_fields sid i row keyCols k _ m f s1 F).
        destruct (forEach_create_stored
                    (foundEntry sid i k (searchValueOf row k) m f row)
                    (fieldsToUpdate row keyCols) s1)
          as (rs & E & L & A & _ & G).
        exists rs. split; [exact E|]. split; [exact L|]. split; [|exact G].
        revert A. apply Forall2_impl. intros fld r A.
        exists (foundEntry sid i k (searchValueOf row k) m f row fld).
        split; [unfold foundRecord; rewrite F; reflexivity|exact A].
      - unfold createFoundRecords.
        destruct (fieldsToUpdate row keyCols) as [|fld flds]; [|discriminate].
        exists []. split; [reflexivity|].
        split; [cbn; rewrite app_nil_r; reflexivity|].
        split; [constructor|].
        intros j r H. destruct j; discriminate H. }
    destruct X as (rs & E & L2 & F & G).
    assert (C : created (n1 ++ map EvCreateRecordResult rs) = rs).
    { unfold created in *. rewrite project_app. fold created.
      fold created in R1. rewrite R1, created_map. reflexivity. }
    exists (n1 ++ map EvCreateRecordResult rs), tried, untried.
    split; [reflexivity|].
    split; [rewrite L2, L1, app_assoc; reflexivity|].
    split; [exact T|].
    split.
    { unfold calls in *. rewrite project_app. fold calls. fold calls in C1.
      rewrite C1, calls_map_created, app_nil_r. reflexivity. }
    rewrite C. split; [|split].
    + split; [exact EA|]. split; [reflexivity|]. split.
      * revert F. apply Forall2_impl_In.
        intros fld r I A.
        exact (stored_found sid i row keyCols k (searchValueOf row k) m fld r
                 I A).
      * clear - F.
        induction F as [|fld r l l' (ins & E & [st ->]) F IH]; constructor;
          [|exact IH].
        unfold foundRecord in E.
        destruct (fields (entity m)); [|discriminate].
        injection E as <-. reflexivity.
    + intros j r H. destruct (G j r H) as (I & M'). rewrite S1 in I, M'.
      split; [exact I|]. rewrite I. exact M'.
    + specialize (Q (n1 ++ map EvCreateRecordResult rs)). rewrite C in Q.
      apply Q. rewrite L2, L1, app_assoc. reflexivity.
  - (* not found *)
    destruct (forEach_create_stored (notFoundRecord sid i keyCols row)
                (fieldsToUpdate row keyCols) s1)
      as (rs & E & L2 & F & _ & G).
    assert (C : created (n1 ++ map EvCreateRecordResult rs) = rs).
    { unfold created in *. rewrite project_app. fold created.
      fold created in R1. rewrite R1, created_map. reflexivity. }
    exists (n1 ++ map EvCreateRecordResult rs), tried, untried.
    rewrite E in *. cbn [fst snd] in *.
    split; [reflexivity|].
    split; [rewrite L2, L1, app_assoc; reflexivity|].
    split; [exact T|].
    split.
    { unfold calls in *. rewrite project_app. fold calls. fold calls in C1.
      rewrite C1, calls_map_created, app_nil_r. reflexivity. }
    rewrite C. split; [|split].
    + split; [exact D|]. split; [reflexivity|].
      revert F. apply Forall2_impl_In.
      intros fld r I A.
      exact (stored_notFound sid i row keyCols fld r I A).
    + intros j r H. destruct (G j r H) as (I & M'). rewrite S1 in I, M'.
      split; [exact I|]. rewrite I. exact M'.
    + specialize (Q (n1 ++ map EvCreateRecordResult rs)). rewrite C in Q.
      apply Q. rewrite L2, L1, app_assoc. reflexivity.
  - destruct D.
Qed.



(** ** What execution does to the storage *)

Lemma updateRecordResults_app us1 :
  forall us2 st,
    MemStorage.updateRecordResults (us1 ++ us2) st
    = MemStorage.updateRecordResults us2
        (MemStorage.updateRecordResults us1 st).
Proof.
  induction us1 as [|[rid u] us1 IH]; intros us2 st; [reflexivity|].
  simpl. apply IH.
Qed.

Lemma updateRecordResult_congr rid u st1 st2 :
  recordResults st1 = recordResults st2 ->
  recordResults (MemStorage.updateRecordResult rid u st1)
  = recordResults (MemStorage.updateRecordResult rid u st2).
Proof.
  intros E. unfold MemStorage.updateRecordResult. rewrite E.
  destruct (Map.get (recordResults st2) rid); cbn [recordResults]; congruence.
Qed.

Lemma updateRecordResults_congr us :
  forall st1 st2,
    recordResults st1 = recordResults st2 ->
    recordResults (MemStorage.updateRecordResults us st1)
    = recordResults (MemStorage.updateRecordResults us st2).
Proof.
  induction us as [|[rid u] us IH]; intros st1 st2 E; [exact E|].
  simpl. apply IH. apply updateRecordResult_congr. exact E.
Qed.

Lemma updateRecordResults_executionBatches us :
  forall st,
    executionBatches (MemStorage.updateRecordResults us st)
    = executionBatches st.
Proof.
  induction us as [|[rid u] us IH]; intros st; [reflexivity|].
  simpl. rewrite IH. apply updateRecordResult_executionBatches.
Qed.

Lemma updated_app l1 l2 : updated (l1 ++ l2) = updated l1 ++ updated l2.
Proof. unfold updated. apply project_app. Qed.

Lemma batchesCreated_app l1 l2 :
  batchesCreated (l1 ++ l2) = batchesCreated l1 ++ batchesCreated l2.
Proof. unfold batchesCreated. apply project_app. Qed.

Lemma statusOnly_keepsId u : statusOnly u -> keepsId u = true.
Proof. intros [->|[m ->]]; reflexivity. Qed.

Lemma executed_refl sid s : executed sid s s.
Proof.
  exists []. rewrite app_nil_r. cbn [updated batchesCreated project flat_map
    MemStorage.updateRecordResults batchEntriesOf map].
  split; [reflexivity|]. split; [reflexivity|]. split; [constructor|].
  split; [apply sessionsKept_refl|]. intros W. split; [exact W|].
  symmetry. apply app_nil_r.
Qed.

Lemma executed_trans sid a b c :
  executed sid a b -> executed sid b c -> executed sid a c.
Proof.
  intros (n1 & L1 & E1 & F1 & S1 & B1) (n2 & L2 & E2 & F2 & S2 & B2).
  exists (n1 ++ n2). rewrite updated_app, batchesCreated_app.
  split; [rewrite L2, L1, app_assoc; reflexivity|].
  split; [|split; [|split]].
  - rewrite updateRecordResults_app, E2.
    apply updateRecordResults_congr. exact E1.
  - apply Forall_app. split; assumption.
  - exact (sessionsKept_trans _ _ _ _ S1 S2).
  - intros W. destruct (B1 W) as [W1 X1]. destruct (B2 W1) as [W2 X2].
    split; [exact W2|]. rewrite X2, X1. unfold batchEntriesOf.
    rewrite map_app, app_assoc. reflexivity.
Qed.

(** A step that logs neither updates nor batches and leaves the entries and
    the batches as they are. *)
Lemma executed_quiet sid s s' new :
  log s' = log s ++ new ->
  updated new = [] ->
  batchesCreated new = [] ->
  (wellKeyed (storage s) -> wellKeyed (storage s')) ->
  sessionsKept sid (storage s) (storage s') ->
  recordResults (storage s') = recordResults (storage s) ->
  executionBatches (storage s') = executionBatches (storage s) ->
  executed sid s s'.
Proof.
  intros L U C W S E B. exists new. rewrite U, C.
  split; [exact L|]. split; [exact E|]. split; [constructor|].
  split; [exact S|]. intros W0. split; [exact (W W0)|].
  rewrite B. symmetry. apply app_nil_r.
Qed.

Lemma executed_callBitrixAPI sid domain method params :
  respects (executed sid) (callBitrixAPI domain method params).
Proof.
  intros s.
  apply (executed_quiet _ _ _ [EvCall domain method params]);
    rewrite ?callBitrixAPI_storage;
    auto using callBitrixAPI_log, sessionsKept_refl.
Qed.

Lemma executed_console_error sid label :
  respects (executed sid) (console_error label).
Proof.
  intros s.
  apply (executed_quiet _ _ _ [EvConsoleError label]);
    auto using sessionsKept_refl.
Qed.

Lemma executed_updateSessionStatus sid v :
  respects (executed sid) (storage_updateSessionStatus sid v).
Proof.
  intros s.
  apply (executed_quiet _ _ _ [EvUpdateSessionStatus sid v]);
    cbn [storage_updateSessionStatus snd storage log]; auto.
  - apply wellKeyed_updateSessionStatus.
  - apply sessionsKept_updateSessionStatus.
  - apply updateSessionStatus_recordResults.
  - apply updateSessionStatus_executionBatches.
Qed.

Lemma executed_updateRecordResult sid rid u :
  statusOnly u ->
  respects (executed sid) (storage_updateRecordResult rid u).
Proof.
  intros O s. rewrite storage_updateRecordResult_run. cbn [snd storage log].
  exists [EvUpdateRecordResult rid u].
  change (updated [EvUpdateRecordResult rid u]) with [(rid, u)].
  cbn [snd storage log].
  split; [reflexivity|]. split; [reflexivity|].
  split; [constructor; [exact O|constructor]|].
  split; [apply sessionsKept_same; apply updateRecordResult_sessions|].
  intros W. split.
  - apply wellKeyed_updateRecordResult; [apply statusOnly_keepsId|]; assumption.
  - rewrite updateRecordResult_executionBatches. symmetry. apply app_nil_r.
Qed.

Lemma executed_createExecutionBatch sid number ids :
  respects (executed sid)
    (storage_createExecutionBatch sid number ids "pending").
Proof.
  intros s. rewrite storage_createExecutionBatch_run. cbn [snd storage log].
  exists [EvCreateExecutionBatch
            (fst (MemStorage.createExecutionBatch sid number ids "pending"
                    (storage s)))].
  split; [reflexivity|]. split; [reflexivity|]. split; [constructor|].
  split; [apply sessionsKept_same; reflexivity|].
  intros W. split; [apply wellKeyed_createExecutionBatch; exact W|].
  cbn. apply Map_set_fresh. apply below_fresh. apply W.
Qed.

Lemma Map_set_map {V : Type} (f : V -> V) (m : list (uuid * V)) k :
  NoDup (Map.keys m) ->
  match Map.get m k with
  | Some r => Map.set m k (f r)
  | None => m
  end
  = map (fun kv => if Nat.eqb (fst kv) k then (fst kv, f (snd kv)) else kv) m.
Proof.
  induction m as [|[k0 v0] m IH]; intros N; [reflexivity|].
  inversion N as [|? ? Nk Nm]; subst. specialize (IH Nm).
  cbn [Map.get Map.set map fst snd].
  destruct (Nat.eqb k0 k) eqn:E.
  - apply Nat.eqb_eq in E. subst k0. f_equal.
    rewrite <- (map_id m) at 1. apply map_ext_in. intros [k1 v1] I.
    cbn [fst snd]. destruct (Nat.eqb_spec k1 k) as [->|]; [|reflexivity].
    exfalso. apply Nk. unfold Map.keys. apply in_map_iff.
    exists (k, v1). auto.
  - destruct (Map.get m k) as [r|]; cbn [Map.set]; rewrite ?E;
      f_equal; exact IH.
Qed.

Lemma updateRecordResult_list rid u st :
  NoDup (Map.keys (recordResults st)) ->
  recordResults (MemStorage.updateRecordResult rid u st)
  = map (fun kv => if Nat.eqb (fst kv) rid
                   then (fst kv, spread (snd kv) u) else kv)
        (recordResults st).
Proof.
  intros N. rewrite <- (Map_set_map (fun r => spread r u)) by exact N.
  unfold MemStorage.updateRecordResult.
  destruct (Map.get (recordResults st) rid); reflexivity.
Qed.

(** The entries after a series of updates: each entry of before, in its
    place, with the updates meant for it applied in order. *)
Lemma updateRecordResults_list us :
  forall st,
    NoDup (Map.keys (recordResults st)) ->
    recordResults (MemStorage.updateRecordResults us st)
    = map (fun kv =>
             (fst kv, fold_left spread (patchesFor (fst kv) us) (snd kv)))
          (recordResults st).
Proof.
  induction us as [|[rid u] us IH]; intros st N.
  - cbn. rewrite <- (map_id (recordResults st)) at 1.
    apply map_ext. intros [k v]. reflexivity.
  - cbn [MemStorage.updateRecordResults].
    assert (N1 : NoDup (Map.keys (recordResults
                                    (MemStorage.updateRecordResult rid u st)))).
    { rewrite updateRecordResult_list by exact N. unfold Map.keys.
      rewrite map_map.
      erewrite map_ext; [exact N|]. intros [k v]. cbn.
      destruct (Nat.eqb k rid); reflexivity. }
    rewrite (IH _ N1), updateRecordResult_list by exact N.
    rewrite map_map. apply map_ext. intros [k v]. cbn [fst snd].
    unfold patchesFor. cbn [filter fst]. rewrite (Nat.eqb_sym rid k).
    destruct (Nat.eqb k rid); reflexivity.
Qed.

Lemma sameButStatus_refl r : sameButStatus r r.
Proof. repeat split. Qed.

Lemma sameButStatus_trans a b c :
  sameButStatus a b -> sameButStatus b c -> sameButStatus a c.
Proof.
  unfold sameButStatus.
  intros (A1 & A2 & A3 & A4 & A5 & A6 & A7 & A8 & A9 & A10)
         (B1 & B2 & B3 & B4 & B5 & B6 & B7 & B8 & B9 & B10).
  repeat split; congruence.
Qed.

Lemma spread_statusOnly r u :
  statusOnly u ->
  sameButStatus r (spread r u)
  /\ (status (spread r u) = "completed" \/ status (spread r u) = "error").
Proof.
  intros [->|[m ->]]; (split; [repeat split|]); cbn; auto.
Qed.

Lemma fold_spread_statusOnly ps :
  forall r,
    Forall statusOnly ps ->
    sameButStatus r (fold_left spread ps r)
    /\ (ps <> [] ->
        status (fold_left spread ps r) = "completed"
        \/ status (fold_left spread ps r) = "error").
Proof.
  induction ps as [|u ps IH]; intros r F.
  - split; [apply sameButStatus_refl|congruence].
  - inversion F as [|? ? Fu Fps]; subst. cbn [fold_left].
    destruct (spread_statusOnly r u Fu) as [S1 T1].
    destruct (IH (spread r u) Fps) as [S2 T2].
    split; [exact (sameButStatus_trans _ _ _ S1 S2)|]. intros _.
    destruct ps as [|u' ps']; [exact T1|]. apply T2. discriminate.
Qed.

Lemma patchesFor_In k u us : In (k, u) us -> patchesFor k us <> [].
Proof.
  intros I E. assert (X : In u (patchesFor k us)).
  { unfold patchesFor. apply in_map_iff. exists (k, u). split; [reflexivity|].
    apply filter_In. split; [exact I|apply Nat.eqb_refl]. }
  rewrite E in X. destruct X.
Qed.

Lemma patchesFor_none k us : ~ In k (map fst us) -> patchesFor k us = [].
Proof.
  intros N. unfold patchesFor. rewrite filter_none; [reflexivity|].
  intros [k' u] I. cbn. apply Nat.eqb_neq. intros ->. apply N.
  apply in_map_iff. exists (k, u). auto.
Qed.

Lemma patchesFor_Forall (P : Patch -> Prop) k us :
  Forall (fun u => P (snd u)) us -> Forall P (patchesFor k us).
Proof.
  intros F. unfold patchesFor. apply Forall_map.
  rewrite Forall_forall in *. intros u I. apply filter_In in I. apply F, I.
Qed.

(** The updates of the batches go to selected entries, and every selected
    entry gets one. *)
Lemma batchUpdates_keys results batches outcomes u :
  In u (batchUpdates results batches outcomes) ->
  In (fst u) (map rr_id results) /\ statusOnly (snd u).
Proof.
  unfold batchUpdates. intros I. apply in_concat in I.
  destruct I as (l & Il & Iu). apply in_map_iff in Il.
  destruct Il as ([ids o] & <- & _). apply in_map_iff in Iu.
  destruct Iu as (r & <- & Ir). cbn [fst snd]. split.
  - apply in_map. unfold batchResultsOf in Ir. apply filter_In in Ir. apply Ir.
  - destruct o as [message|]; [right; eexists|left]; reflexivity.
Qed.

Lemma In_combine_l {A B : Type} (a : A) l (l' : list B) :
  List.length l' = List.length l -> In a l -> exists b, In (a, b) (combine l l').
Proof.
  revert l'. induction l as [|x l IH]; intros l' E I; [destruct I|].
  destruct l' as [|y l']; [discriminate|]. injection E as E.
  destruct I as [->|I]; [exists y; left; reflexivity|].
  destruct (IH l' E I) as (b & Ib). exists b. right. exact Ib.
Qed.

Lemma batchUpdates_cover results outcomes r :
  List.length outcomes = batchCount (List.length results) ->
  In r results ->
  exists o,
    In (rr_id r, batchPatch o)
       (batchUpdates results
          (map (batchIds results) (seq 0 (batchCount (List.length results))))
          outcomes).
Proof.
  intros E I.
  pose proof (chunks_concat batchSize (batchCount (List.length results))
                results (proj1 (batchCount_ceiling _))) as C.
  rewrite <- C in I at 1. apply in_concat in I.
  destruct I as (chunk & Ic & Ir). apply in_map_iff in Ic.
  destruct Ic as (k & <- & Ik).
  assert (Ib : In (batchIds results k)
                  (map (batchIds results)
                       (seq 0 (batchCount (List.length results)))))
    by (apply in_map; exact Ik).
  destruct (In_combine_l _ _ outcomes
              ltac:(rewrite length_map, length_seq; exact E) Ib) as (o & Io).
  exists o. unfold batchUpdates. apply in_concat.
  eexists. split.
  - apply in_map_iff. exists (batchIds results k, o). split; [reflexivity|].
    exact Io.
  - cbn [fst snd]. apply in_map_iff. exists r. split; [reflexivity|].
    unfold batchResultsOf. apply filter_In.
    split.
    + rewrite <- (firstn_skipn (batchSize * k) results). apply in_or_app.
      right. rewrite <- (firstn_skipn batchSize (skipn _ results)).
      apply in_or_app. left. exact Ir.
    + apply includes_id_In. unfold batchIds. apply in_map. exact Ir.
Qed.

Lemma updated_batchEvents bs : updated (map EvCreateExecutionBatch bs) = [].
Proof. induction bs as [|b bs IH]; [reflexivity|exact IH]. Qed.

Lemma batchesCreated_batchEvents bs :
  batchesCreated (map EvCreateExecutionBatch bs) = bs.
Proof.
  induction bs as [|b bs IH]; [reflexivity|]. cbn. f_equal. exact IH.
Qed.

(** The log of an execution: the batch records, what the batches do, and the
    final status. *)
Lemma executeUpdatesInBackground_log sid requested domain s :
  let results :=
    selectResults requested (MemStorage.getRecordResults (storage s) sid) in
  exists bs n2 outcomes,
    log (snd (executeUpdatesInBackground sid requested domain s))
    = log s ++ map EvCreateExecutionBatch bs ++ n2
      ++ [EvUpdateSessionStatus sid "completed"]
    /\ map recordIds bs
       = map (batchIds results) (seq 0 (batchCount (List.length results)))
    /\ Forall (fun b => eb_sessionId b = sid /\ eb_status b = "pending") bs
    /\ List.length outcomes = batchCount (List.length results)
    /\ updated n2 = batchUpdates results (map recordIds bs) outcomes
    /\ batchesCreated n2 = [].
Proof.
  intros results. rewrite executeUpdatesInBackground_eq. cbv zeta.
  fold results.
  destruct (createBatches_spec sid results (List.length results) 0 s)
    as (bs & R & L & I & N & P & _ & _); [lia|].
  rewrite Nat.mul_0_r, Nat.sub_0_r in *.
  destruct (createBatches (List.length results) sid results 0 s)
    as [[batches|e] s1]; cbn [fst snd] in R, L; [|discriminate].
  injection R as ->.
  destruct (forEach_processBatch results domain (map recordIds bs) s1)
    as (_ & n2 & outcomes & L2 & LO & U2 & B2 & _).
  exists bs, n2, outcomes.
  split.
  { rewrite storage_updateSessionStatus_run. cbn [snd log].
    rewrite L2, L, <- !app_assoc. reflexivity. }
  split; [exact I|]. split; [exact P|].
  split; [rewrite LO, I, length_map, length_seq; reflexivity|].
  split; [exact U2|exact B2].
Qed.

Lemma filter_map_comm {A : Type} (p : A -> bool) (h : A -> A) l :
  (forall a, In a l -> p (h a) = p a) ->
  filter p (map h l) = map h (filter p l).
Proof.
  induction l as [|a l IH]; intros H; [reflexivity|].
  cbn [map filter]. rewrite (H a) by (left; reflexivity).
  rewrite IH by (intros x I; apply H; right; exact I).
  destruct (p a); reflexivity.
Qed.

Lemma Forall2_map_same {A : Type} (P : A -> A -> Prop) (h : A -> A) l :
  (forall a, P a (h a)) -> Forall2 P l (map h l).
Proof. intros H. induction l; constructor; auto. Qed.

(** The entries of a session after a series of the executor's updates. *)
Lemma getRecordResults_updated us st st' x :
  wellKeyed st ->
  Forall (fun u => statusOnly (snd u)) us ->
  recordResults st'
  = recordResults (MemStorage.updateRecordResults us st) ->
  MemStorage.getRecordResults st' x
  = map (fun r => fold_left spread (patchesFor (rr_id r) us) r)
        (MemStorage.getRecordResults st x).
Proof.
  intros W F E. unfold MemStorage.getRecordResults, Map.values.
  rewrite E, updateRecordResults_list by apply W.
  rewrite map_map. cbn [snd fst].
  destruct W as (_ & K & _).
  transitivity
    (filter (fun r => Nat.eqb (sessionId r) x)
       (map (fun r => fold_left spread (patchesFor (rr_id r) us) r)
            (map snd (recordResults st)))).
  - f_equal. rewrite map_map. apply map_ext_in. intros kv I.
    rewrite Forall_forall in K. destruct (K kv I) as [-> _]. reflexivity.
  - apply filter_map_comm. intros r _.
    destruct (fold_spread_statusOnly (patchesFor (rr_id r) us) r
                (patchesFor_Forall _ _ _ F)) as [(_ & S & _) _].
    rewrite S. reflexivity.
Qed.

Lemma wellKeyed_same_id st r1 r2 :
  wellKeyed st ->
  In r1 (Map.values (recordResults st)) ->
  In r2 (Map.values (recordResults st)) ->
  rr_id r1 = rr_id r2 -> r1 = r2.
Proof.
  intros W I1 I2 E.
  pose proof (wellKeyed_lookup _ _ W I1) as G1.
  pose proof (wellKeyed_lookup _ _ W I2) as G2.
  rewrite E in G1. congruence.
Qed.

Lemma getExecutionBatches_appended st st' x bs :
  executionBatches st' = executionBatches st ++ batchEntriesOf bs ->
  MemStorage.getExecutionBatches st' x
  = MemStorage.getExecutionBatches st x
    ++ filter (fun b => Nat.eqb (eb_sessionId b) x) bs.
Proof.
  intros E. unfold MemStorage.getExecutionBatches, Map.values.
  rewrite E, map_app, filter_app. unfold batchEntriesOf.
  rewrite map_map. cbn [snd]. rewrite map_id. reflexivity.
Qed.

(** X10.  What an execution leaves in the storage, whatever the CRM answers
    and whichever entries the request names.  The entries of the session are
    those of before, in the same order; an entry that was selected has status
    "completed" or "error", and differs from what it was in status and error
    message at most; an entry that was not selected is untouched.  Nothing is
    added to or removed from the entries of any session; the other sessions
    keep their entries, their session records and their batches; and the
    session gets [ceil(N / 50)] more batch records, all "pending", for the
    [N] selected entries. *)
Theorem execution_updates_only_the_selected (sid : uuid)
    (requested : option (list uuid)) (domain : option string) (s : State) :
  wellKeyed (storage s) ->
  let results :=
    selectResults requested (MemStorage.getRecordResults (storage s) sid) in
  let s' := snd (executeUpdatesInBackground sid requested domain s) in
  Forall2
    (fun r r' =>
       sameButStatus r r'
       /\ if includes_id (map rr_id results) (rr_id r)
          then status r' = "completed" \/ status r' = "error"
          else r' = r)
    (MemStorage.getRecordResults (storage s) sid)
    (MemStorage.getRecordResults (storage s') sid)
  /\ (forall other, other <> sid ->
        MemStorage.getRecordResults (storage s') other
        = MemStorage.getRecordResults (storage s) other
        /\ MemStorage.getSession (storage s') other
           = MemStorage.getSession (storage s) other
        /\ MemStorage.getExecutionBatches (storage s') other
           = MemStorage.getExecutionBatches (storage s) other)
  /\ (exists bs,
        MemStorage.getExecutionBatches (storage s') sid
        = MemStorage.getExecutionBatches (storage s) sid ++ bs
        /\ map recordIds bs
           = map (batchIds results)
                 (seq 0 (batchCount (List.length results)))
        /\ Forall (fun b => eb_status b = "pending") bs)
  /\ wellKeyed (storage s').
Proof.
  intros W results s'.
  assert (E : executed sid s s').
  { apply (respects_executeUpdatesInBackground (executed sid)
             (executed_refl sid) (executed_trans sid)
             (executed_callBitrixAPI sid) (executed_console_error sid) sid
             (executed_updateSessionStatus sid) (fun _ => True)
             (executed_createExecutionBatch sid)).
    - intros rid _. apply executed_updateRecordResult. left. reflexivity.
    - intros rid message _. apply executed_updateRecordResult.
      right. eexists. reflexivity.
    - intros r _. exact I. }
  destruct E as (new & L & RR & F & SK & B). destruct (B W) as [W' EB].
  destruct (executeUpdatesInBackground_log sid requested domain s)
    as (bs & n2 & outcomes & L' & Ib & P & LO & U2 & B2).
  fold results in Ib, LO, U2. fold s' in L'.
  assert (N : new = map EvCreateExecutionBatch bs ++ n2
                    ++ [EvUpdateSessionStatus sid "completed"])
    by (apply (app_inv_head (log s)); rewrite <- L; exact L').
  assert (U : updated new
              = batchUpdates results
                  (map (batchIds results)
                       (seq 0 (batchCount (List.length results))))
                  outcomes).
  { rewrite N, !updated_app, updated_batchEvents, U2, Ib. cbn.
    apply app_nil_r. }
  assert (C : batchesCreated new = bs).
  { rewrite N, !batchesCreated_app, batchesCreated_batchEvents, B2. cbn.
    apply app_nil_r. }
  rewrite C in EB.
  pose proof (fun x => getRecordResults_updated _ _ _ x W F RR) as G.
  assert (Keys : forall u, In u (updated new) ->
                           In (fst u) (map rr_id results))
    by (intros u Iu; rewrite U in Iu;
        apply (batchUpdates_keys _ _ _ _ Iu)).
  split; [|split; [|split]].
  - rewrite G. apply Forall2_map_same. intros r.
    destruct (fold_spread_statusOnly (patchesFor (rr_id r) (updated new)) r
                (patchesFor_Forall _ _ _ F)) as [S T].
    split; [exact S|].
    destruct (includes_id (map rr_id results) (rr_id r)) eqn:In_.
    + apply T. apply includes_id_In in In_. apply in_map_iff in In_.
      destruct In_ as (r0 & E0 & I0).
      destruct (batchUpdates_cover results outcomes r0 LO I0) as (o & Io).
      rewrite <- U, E0 in Io. exact (patchesFor_In _ _ _ Io).
    + rewrite patchesFor_none; [reflexivity|].
      intros X. apply in_map_iff in X. destruct X as (u & Eu & Iu).
      apply Keys in Iu. rewrite Eu in Iu. apply includes_id_In in Iu.
      congruence.
  - intros other N'. split; [|split].
    + rewrite G. rewrite <- (map_id (MemStorage.getRecordResults _ other)) at 2.
      apply map_ext_in. intros r Ir.
      rewrite patchesFor_none; [reflexivity|].
      intros X. apply in_map_iff in X. destruct X as (u & Eu & Iu).
      apply Keys in Iu. rewrite Eu in Iu. apply in_map_iff in Iu.
      destruct Iu as (r0 & E0 & I0).
      unfold results, selectResults in I0.
      assert (I1 : In r0 (MemStorage.getRecordResults (storage s) sid))
        by (destruct requested; apply filter_In in I0; apply I0).
      unfold MemStorage.getRecordResults in Ir, I1.
      apply filter_In in Ir. apply filter_In in I1.
      destruct Ir as [Ir Sr]. destruct I1 as [I1 S1].
      assert (r0 = r) by (apply (wellKeyed_same_id _ _ _ W I1 Ir E0)).
      subst r0. apply Nat.eqb_eq in Sr, S1. congruence.
    + apply SK. exact N'.
    + rewrite (getExecutionBatches_appended _ _ _ _ EB).
      rewrite filter_none; [apply app_nil_r|].
      intros b Ib'. rewrite Forall_forall in P. destruct (P b Ib') as [-> _].
      apply Nat.eqb_neq. congruence.
  - exists bs. split; [|split; [exact Ib|]].
    + rewrite (getExecutionBatches_appended _ _ _ _ EB).
      rewrite filter_all; [reflexivity|].
      intros b Ib'. rewrite Forall_forall in P. destruct (P b Ib') as [-> _].
      apply Nat.eqb_refl.
    + revert P. apply Forall_impl. intros b H. apply H.
  - exact W'.
Qed.

(** ** The batches of an execution in the storage *)

Lemma batchEvents_inj bs bs' :
  map EvCreateExecutionBatch bs = map EvCreateExecutionBatch bs' -> bs = bs'.
Proof.
  revert bs'. induction bs as [|b bs IH]; intros [|b' bs']; cbn;
    try discriminate; [reflexivity|].
  intros [= -> H]. f_equal. exact (IH _ H).
Qed.

(** The partitioning loop stores each batch record under the identifier
    drawn for it, the next ones in order, and leaves the records kept under
    earlier identifiers as they were. *)
Lemma createBatches_stored sid results fuel :
  forall i s,
  exists bs,
    log (snd (createBatches fuel sid results i s))
    = log s ++ map EvCreateExecutionBatch bs
    /\ (forall x,
          x < randomUUID (storage s) ->
          Map.get (executionBatches
                     (storage (snd (createBatches fuel sid results i s)))) x
          = Map.get (executionBatches (storage s)) x)
    /\ (forall j b,
          nth_error bs j = Some b ->
          eb_id b = randomUUID (storage s) + j
          /\ Map.get (executionBatches
                        (storage (snd (createBatches fuel sid results i s))))
                     (randomUUID (storage s) + j)
             = Some b).
Proof.
  induction fuel as [|fuel IH]; intros i s.
  - exists []. cbn. rewrite app_nil_r. split; [reflexivity|].
    split; [reflexivity|]. intros j b H. destruct j; discriminate H.
  - rewrite createBatches_S.
    destruct (i <? List.length results)%nat.
    2:{ exists []. cbn. rewrite app_nil_r. split; [reflexivity|].
        split; [reflexivity|]. intros j b H. destruct j; discriminate H. }
    rewrite storage_createExecutionBatch_run.
    match goal with
    | |- context [createBatches fuel sid results _ ?s1] => set (s' := s1)
    end.
    destruct (IH (i + batchSize) s') as (bs & L & K & G).
    destruct (createBatches fuel sid results (i + batchSize) s')
      as [[rest|e] s2]; cbn [fst snd] in *.
    + exists (fst (MemStorage.createExecutionBatch sid (i / batchSize + 1)
                     (map rr_id (Js.slice results i (i + batchSize)))
                     "pending" (storage s)) :: bs).
      split; [rewrite L; unfold s'; cbn [log map]; rewrite <- app_assoc;
              reflexivity|].
      split.
      { intros x B. rewrite K by (unfold s'; cbn; unfold uuid in *; lia).
        unfold s'. cbn. apply Map_get_set_ne. unfold uuid in *. lia. }
      intros [|j] b H.
      * injection H as <-. cbn [fst MemStorage.createExecutionBatch eb_id].
        rewrite Nat.add_0_r. split; [reflexivity|].
        rewrite K by (unfold s'; cbn; unfold uuid in *; lia).
        unfold s'. cbn. apply Map_get_set_same.
      * destruct (G j b H) as (I & M'). unfold s' in I, M'. cbn in I, M'.
        replace (randomUUID (storage s) + S j)
          with (S (randomUUID (storage s) + j)) by lia.
        split; assumption.
    + exists (fst (MemStorage.createExecutionBatch sid (i / batchSize + 1)
                     (map rr_id (Js.slice results i (i + batchSize)))
                     "pending" (storage s)) :: bs).
      split; [rewrite L; unfold s'; cbn [log map]; rewrite <- app_assoc;
              reflexivity|].
      split.
      { intros x B. rewrite K by (unfold s'; cbn; unfold uuid in *; lia).
        unfold s'. cbn. apply Map_get_set_ne. unfold uuid in *. lia. }
      intros [|j] b H.
      * injection H as <-. cbn [fst MemStorage.createExecutionBatch eb_id].
        rewrite Nat.add_0_r. split; [reflexivity|].
        rewrite K by (unfold s'; cbn; unfold uuid in *; lia).
        unfold s'. cbn. apply Map_get_set_same.
      * destruct (G j b H) as (I & M'). unfold s' in I, M'. cbn in I, M'.
        replace (randomUUID (storage s) + S j)
          with (S (randomUUID (storage s) + j)) by lia.
        split; assumption.
Qed.

Lemma forEach_update_batches u l :
  forall s,
    executionBatches
      (storage (snd (forEach l
                       (fun r => storage_updateRecordResult (rr_id r) u) s)))
    = executionBatches (storage s).
Proof.
  induction l as [|r l IH]; intros s; [reflexivity|].
  rewrite (forEach_cons_Ok r l _ s _ (storage_updateRecordResult_run _ _ s)).
  rewrite IH. cbn [storage]. apply updateRecordResult_executionBatches.
Qed.

(** The batches leave the batch records alone. *)
Lemma forEach_processBatch_batches results domain batches :
  forall s,
    executionBatches
      (storage (snd (forEach batches (processBatch results domain) s)))
    = executionBatches (storage s).
Proof.
  induction batches as [|ids rest IH]; intros s; [reflexivity|].
  destruct (processBatch_spec results domain ids s) as (R & _).
  destruct (processBatch results domain ids s) as [r s1] eqn:P.
  cbn [fst] in R. subst r.
  rewrite (forEach_cons_Ok ids rest _ s s1 P), IH.
  replace s1 with (snd (processBatch results domain ids s))
    by (rewrite P; reflexivity).
  rewrite processBatch_eq. cbv zeta.
  destruct (bulkCalls_log domain
              (filter (fun r => includes_id ids (rr_id r)) results) s)
    as (n1 & r & s2 & -> & _ & _ & _ & S2).
  destruct r as [[]|e]; rewrite forEach_update_batches;
    cbn [console_error emit snd storage]; rewrite S2; reflexivity.
Qed.

(** The loop over the batches, with what became of each batch. *)
Lemma forEach_processBatch_run results domain batches :
  forall s,
  exists new,
    log (snd (forEach batches (processBatch results domain) s)) = log s ++ new
    /\ updated new
       = batchUpdates results batches
           (batchOutcomes results domain batches s)
    /\ List.length (batchOutcomes results domain batches s)
       = List.length batches.
Proof.
  induction batches as [|ids rest IH]; intros s.
  - exists []. cbn. rewrite app_nil_r. repeat split.
  - destruct (processBatch_spec results domain ids s)
      as (R & n1 & L1 & U1 & _).
    destruct (processBatch results domain ids s) as [r s1] eqn:P.
    cbn [fst snd] in R, L1. subst r.
    rewrite (forEach_cons_Ok ids rest _ s s1 P).
    destruct (IH s1) as (n2 & L2 & U2 & N).
    exists (n1 ++ n2). cbn [batchOutcomes]. rewrite P. cbn [snd].
    split; [rewrite L2, L1, app_assoc; reflexivity|].
    split; [|cbn [List.length]; rewrite N; reflexivity].
    unfold updated in *. rewrite project_app. fold updated.
    fold updated in U1, U2. rewrite U1, U2. reflexivity.
Qed.

(** An entry of the selection is in batch [k] exactly when its place in the
    selection is, when the entries have distinct identifiers. *)
Lemma in_batch results k p r :
  NoDup (map rr_id results) ->
  nth_error results p = Some r ->
  includes_id (map rr_id (batchResultsOf results (batchIds results k)))
    (rr_id r)
  = ((batchSize * k <=? p) && (p <? batchSize * k + batchSize))%nat.
Proof.
  intros N H.
  assert (Lp : p < List.length results)
    by (apply nth_error_Some; congruence).
  assert (Hm : nth_error (map rr_id results) p = Some (rr_id r))
    by (rewrite nth_error_map, H; reflexivity).
  destruct (((batchSize * k <=? p) && (p <? batchSize * k + batchSize))%nat) eqn:C.
  - apply andb_true_iff in C. destruct C as [C1 C2].
    apply Nat.leb_le in C1. apply Nat.ltb_lt in C2.
    apply includes_id_In. apply in_map. unfold batchResultsOf.
    apply filter_In. split; [exact (nth_error_In _ _ H)|].
    apply includes_id_In. unfold batchIds. apply in_map.
    apply (nth_error_In _ (p - batchSize * k)).
    rewrite nth_error_firstn.
    destruct (Nat.ltb_spec (p - batchSize * k) batchSize) as [_|X]; [|lia].
    rewrite nth_error_skipn.
    replace (batchSize * k + (p - batchSize * k)) with p by lia. exact H.
  - destruct (includes_id
                (map rr_id (batchResultsOf results (batchIds results k)))
                (rr_id r)) eqn:I; [|reflexivity].
    exfalso. apply includes_id_In in I. apply in_map_iff in I.
    destruct I as (r' & E' & I). unfold batchResultsOf in I.
    apply filter_In in I. destruct I as [_ I]. rewrite E' in I.
    apply includes_id_In in I. unfold batchIds in I.
    apply in_map_iff in I. destruct I as (r2 & E2 & I).
    apply In_nth_error in I. destruct I as (q & Q).
    rewrite nth_error_firstn in Q.
    destruct (Nat.ltb_spec q batchSize) as [B|B]; [|discriminate].
    rewrite nth_error_skipn in Q.
    assert (Hq : nth_error (map rr_id results) (batchSize * k + q)
                 = Some (rr_id r))
      by (rewrite nth_error_map, Q; cbn; rewrite E2; reflexivity).
    assert (X : p = batchSize * k + q).
    { rewrite NoDup_nth_error in N. apply N.
      - rewrite length_map. exact Lp.
      - rewrite Hm, Hq. reflexivity. }
    apply andb_false_iff in C.
    destruct C as [C|C]; [apply Nat.leb_gt in C|apply Nat.ltb_ge in C]; lia.
Qed.

Lemma batch_of_place p k :
  batchSize * k <= p < batchSize * k + batchSize -> p / batchSize = k.
Proof.
  intros H. symmetry. apply (Nat.div_unique p batchSize k (p - batchSize * k));
    lia.
Qed.

(** What the batches [k], [k + 1], ... leave in the storage for the entries
    of the selection, when these have distinct identifiers: each entry of
    one of these batches carries the update of its batch, the others are as
    they were. *)
Lemma forEach_processBatch_stored results domain :
  NoDup (map rr_id results) ->
  forall n k s p r,
    nth_error results p = Some r ->
    Map.get (recordResults
               (storage (snd (forEach (map (batchIds results) (seq k n))
                                (processBatch results domain) s))))
            (rr_id r)
    = if ((batchSize * k <=? p) && (p <? batchSize * (k + n)))%nat
      then option_map
             (fun r0 =>
                spread r0
                  (batchPatch
                     (nth (p / batchSize - k)
                          (batchOutcomes results domain
                             (map (batchIds results) (seq k n)) s)
                          None)))
             (Map.get (recordResults (storage s)) (rr_id r))
      else Map.get (recordResults (storage s)) (rr_id r).
Proof.
  intros N n. induction n as [|n IH]; intros k s p r H.
  - cbn [seq map forEach ret snd].
    destruct (((batchSize * k <=? p) && (p <? batchSize * (k + 0)))%nat) eqn:C;
      [|reflexivity].
    apply andb_true_iff in C. destruct C as [C1 C2].
    apply Nat.leb_le in C1. apply Nat.ltb_lt in C2. lia.
  - cbn [seq map batchOutcomes].
    destruct (processBatch_spec results domain (batchIds results k) s)
      as (R & _).
    pose proof (processBatch_store results domain (batchIds results k) s
                  (rr_id r)) as G.
    destruct (processBatch results domain (batchIds results k) s)
      as [o s1] eqn:P.
    cbn [fst snd] in R, G. subst o.
    rewrite (forEach_cons_Ok _ _ _ s s1 P).
    rewrite (IH (S k) s1 p r H), G. unfold patched.
    rewrite (in_batch results k p r N H).
    destruct (Nat.leb_spec (batchSize * k) p) as [A|A];
      destruct (Nat.ltb_spec p (batchSize * k + batchSize)) as [B|B];
      destruct (Nat.leb_spec (batchSize * S k) p) as [C|C];
      destruct (Nat.ltb_spec p (batchSize * (S k + n))) as [D|D];
      destruct (Nat.ltb_spec p (batchSize * (k + S n))) as [E|E];
      cbn [andb]; try (exfalso; unfold batchSize in *; lia);
      try reflexivity.
    + (* this batch *)
      rewrite (batch_of_place p k) by lia. rewrite Nat.sub_diag. reflexivity.
    + (* a later batch *)
      assert (Q : S k <= p / batchSize)
        by (apply Nat.div_le_lower_bound; unfold batchSize in *; lia).
      replace (p / batchSize - k) with (S (p / batchSize - S k)) by lia.
      reflexivity.
Qed.

(** C5.  The [N] entries selected for execution are split into
    [ceil(N / 50)] batches; batch [k] (counting from 0, numbered [k + 1])
    holds the entries [50 k, 50 (k + 1)) in their order, so the batches put
    end to end are the selected entries.  The partitioning loop runs first,
    from the state the execution starts in: when it ends, every batch record
    is in the log and in the storage, each under the identifier drawn for
    it, with the session and status "pending" (after the records there were,
    when the keys of the storage are in order).  The batches are executed
    from that state, and what follows (bulk calls, status updates) creates
    no batch record and leaves those of the storage as they are. *)
Theorem executeUpdatesInBackground_partitions (sid : uuid)
    (requested : option (list uuid)) (domain : option string) (s : State) :
  let results :=
    selectResults requested (MemStorage.getRecordResults (storage s) sid) in
  let s' := snd (executeUpdatesInBackground sid requested domain s) in
  exists bs s1 rest,
    createBatches (List.length results) sid results 0 s
    = (Ok (map recordIds bs), s1)
    /\ log s1 = log s ++ map EvCreateExecutionBatch bs
    /\ (forall j b,
          nth_error bs j = Some b ->
          eb_id b = randomUUID (storage s) + j
          /\ eb_sessionId b = sid /\ eb_status b = "pending"
          /\ Map.get (executionBatches (storage s1)) (eb_id b) = Some b)
    /\ (wellKeyed (storage s) ->
        executionBatches (storage s1)
        = executionBatches (storage s) ++ batchEntriesOf bs)
    /\ s' = snd (storage_updateSessionStatus sid "completed"
                   (snd (forEach (map recordIds bs)
                           (processBatch results domain) s1)))
    /\ log s' = log s1 ++ rest
    /\ batchesCreated rest = []
    /\ executionBatches (storage s') = executionBatches (storage s1)
    /\ List.length bs = batchCount (List.length results)
    /\ map batchNumber bs = seq 1 (List.length bs)
    /\ (forall k, k < List.length bs ->
          nth k (map recordIds bs) []
          = map rr_id (firstn batchSize (skipn (batchSize * k) results)))
    /\ List.concat (map recordIds bs) = map rr_id results.
Proof.
  intros results s'. unfold s'.
  rewrite executeUpdatesInBackground_eq. cbv zeta. fold results.
  destruct (createBatches_spec sid results (List.length results) 0 s)
    as (bs & R & L & I & N & P & _ & _); [lia|].
  destruct (createBatches_stored sid results (List.length results) 0 s)
    as (bs' & L' & _ & G).
  assert (W : wellKeyed (storage s) ->
              executionBatches
                (storage (snd (createBatches (List.length results) sid
                                 results 0 s)))
              = executionBatches (storage s) ++ batchEntriesOf bs).
  { intros W.
    assert (E : executed sid s
                  (snd (createBatches (List.length results) sid results 0 s))).
    { apply (respects_createBatches (executed sid) (executed_refl sid)
               (executed_trans sid) sid
               (executed_createExecutionBatch sid)). }
    destruct E as (new & Ln & _ & _ & _ & B). destruct (B W) as [_ EB].
    rewrite EB. f_equal. f_equal.
    rewrite Nat.mul_0_r in L. rewrite L in Ln. apply app_inv_head in Ln.
    subst new. clear. induction bs as [|b bs IH]; cbn; [reflexivity|].
    f_equal. exact IH. }
  rewrite Nat.mul_0_r, Nat.sub_0_r in *.
  rewrite L in L'. apply app_inv_head in L'. apply batchEvents_inj in L'.
  subst bs'.
  destruct (createBatches (List.length results) sid results 0 s)
    as [[batches|e] s1]; cbn [fst snd] in *; [|discriminate].
  injection R as ->.
  destruct (forEach_processBatch results domain (map recordIds bs) s1)
    as (_ & n2 & outcomes & L2 & _ & _ & B2 & _).
  assert (Len : List.length bs = batchCount (List.length results)).
  { rewrite <- (length_map recordIds), I, length_map, length_seq.
    reflexivity. }
  exists bs, s1, (n2 ++ [EvUpdateSessionStatus sid "completed"]).
  split; [reflexivity|]. split; [exact L|].
  split.
  { intros j b H. destruct (G j b H) as (Ej & Mj).
    rewrite Forall_forall in P. destruct (P b (nth_error_In _ _ H)) as [Ps Pt].
    rewrite Ej. repeat split; assumption. }
  split; [exact W|]. split; [reflexivity|].
  split.
  { rewrite storage_updateSessionStatus_run. cbn [snd log].
    rewrite L2, <- app_assoc. reflexivity. }
  split.
  { unfold batchesCreated in *. rewrite project_app. fold batchesCreated.
    fold batchesCreated in B2. rewrite B2. reflexivity. }
  split.
  { rewrite storage_updateSessionStatus_run. cbn [snd storage].
    rewrite updateSessionStatus_executionBatches.
    apply forEach_processBatch_batches. }
  split; [exact Len|].
  split; [rewrite N, Len; reflexivity|].
  split.
  - intros k H. rewrite I.
    rewrite (nth_indep _ [] (batchIds results 0))
      by (rewrite length_map, length_seq; lia).
    rewrite map_nth, seq_nth by lia. reflexivity.
  - rewrite I. unfold batchIds.
    rewrite <- (map_map (fun k => firstn batchSize
                                     (skipn (batchSize * k) results))
                        (map rr_id)).
    rewrite <- concat_map. f_equal. apply chunks_concat.
    unfold batchCount.
    pose proof (Nat.div_mod_eq (List.length results + (batchSize - 1))
                  batchSize) as D.
    pose proof (Nat.mod_upper_bound (List.length results + (batchSize - 1))
                  batchSize) as U.
    unfold batchSize in *. lia.
Qed.

(** C2, amended.  During batch execution every batch is attempted and none
    makes the execution throw.  Each batch writes one and the same update on
    all its entries, of both kinds, in the storage: status "completed" when
    nothing failed, and status "error" with the error message when a bulk
    call of the batch (of either kind) failed or an entry had no identifier;
    the entries that are not of the batch are left as they were.  After the
    last batch the session status is set to "completed", however many entries
    ended in "error".  When the keys of the storage are in order, the entry
    selected at place [p] is, in the end, as it was with the update of batch
    [p / 50] on it, and the entries that were not selected are as they
    were. *)
Theorem executeUpdatesInBackground_marks_batches (sid : uuid)
    (requested : option (list uuid)) (domain : option string) (s : State) :
  MemStorage.getSession (storage s) sid <> None ->
  let results :=
    selectResults requested (MemStorage.getRecordResults (storage s) sid) in
  let batches :=
    map (batchIds results) (seq 0 (batchCount (List.length results))) in
  let s1 := snd (createBatches (List.length results) sid results 0 s) in
  let outcomes := batchOutcomes results domain batches s1 in
  let s' := snd (executeUpdatesInBackground sid requested domain s) in
  fst (executeUpdatesInBackground sid requested domain s) = Ok tt
  /\ (exists new,
        log s' = log s ++ new ++ [EvUpdateSessionStatus sid "completed"]
        /\ List.length outcomes = List.length batches
        /\ updated new = batchUpdates results batches outcomes)
  /\ (exists session,
        MemStorage.getSession (storage s') sid = Some session
        /\ us_status session = "completed")
  /\ (forall ids s0,
        let batch := batchResultsOf results ids in
        let outcome := outcomeOf (fst (bulkCalls domain batch s0)) in
        let s2 := snd (processBatch results domain ids s0) in
        fst (processBatch results domain ids s0) = Ok tt
        /\ (exists new,
              log s2 = log s0 ++ new
              /\ updated new
                 = map (fun r => (rr_id r, batchPatch outcome)) batch)
        /\ (forall r,
              In r batch ->
              Map.get (recordResults (storage s2)) (rr_id r)
              = option_map (fun r0 => spread r0 (batchPatch outcome))
                           (Map.get (recordResults (storage s0)) (rr_id r)))
        /\ (forall x,
              ~ In x (map rr_id batch) ->
              Map.get (recordResults (storage s2)) x
              = Map.get (recordResults (storage s0)) x))
  /\ (wellKeyed (storage s) ->
      (forall p r,
         nth_error results p = Some r ->
         Map.get (recordResults (storage s')) (rr_id r)
         = Some (spread r (batchPatch (nth (p / batchSize) outcomes None))))
      /\ (forall x,
            ~ In x (map rr_id results) ->
            Map.get (recordResults (storage s')) x
            = Map.get (recordResults (storage s)) x)).
Proof.
  intros H results batches s1 outcomes s'.
  assert (PB : forall ids s0,
             let batch := batchResultsOf results ids in
             let outcome := outcomeOf (fst (bulkCalls domain batch s0)) in
             let s2 := snd (processBatch results domain ids s0) in
             fst (processBatch results domain ids s0) = Ok tt
             /\ (exists new,
                   log s2 = log s0 ++ new
                   /\ updated new
                      = map (fun r => (rr_id r, batchPatch outcome)) batch)
             /\ (forall r,
                   In r batch ->
                   Map.get (recordResults (storage s2)) (rr_id r)
                   = option_map (fun r0 => spread r0 (batchPatch outcome))
                       (Map.get (recordResults (storage s0)) (rr_id r)))
             /\ (forall x,
                   ~ In x (map rr_id batch) ->
                   Map.get (recordResults (storage s2)) x
                   = Map.get (recordResults (storage s0)) x)).
  { intros ids s0. cbv zeta.
    destruct (processBatch_spec results domain ids s0)
      as (R & new & L & U & _).
    split; [exact R|]. split; [exists new; split; assumption|].
    split.
    - intros r I. rewrite processBatch_store. unfold patched.
      replace (includes_id (map rr_id (batchResultsOf results ids)) (rr_id r))
        with true; [reflexivity|].
      symmetry. apply includes_id_In. apply in_map. exact I.
    - intros x I. rewrite processBatch_store. unfold patched.
      destruct (includes_id (map rr_id (batchResultsOf results ids)) x) eqn:E;
        [|reflexivity].
      apply includes_id_In in E. contradiction. }
  unfold s', outcomes, s1.
  rewrite executeUpdatesInBackground_eq. cbv zeta. fold results.
  destruct (createBatches_spec sid results (List.length results) 0 s)
    as (bs & R & L & I & _ & _ & SS & RR); [lia|].
  rewrite Nat.mul_0_r, Nat.sub_0_r in *.
  destruct (createBatches (List.length results) sid results 0 s)
    as [[bids|e] s1']; cbn [fst snd] in *; [|discriminate].
  injection R as ->. fold batches in I.
  destruct (forEach_processBatch results domain (map recordIds bs) s1')
    as (_ & _ & _ & _ & _ & _ & _ & S2).
  destruct (forEach_processBatch_run results domain (map recordIds bs) s1')
    as (n2 & L2 & U2 & N2).
  rewrite I in *.
  set (s2 := snd (forEach batches (processBatch results domain) s1')) in *.
  split; [reflexivity|]. split; [|split; [|split; [exact PB|]]].
  - exists (map EvCreateExecutionBatch bs ++ n2).
    split.
    { change (log (snd (storage_updateSessionStatus sid "completed" s2)))
        with (log s2 ++ [EvUpdateSessionStatus sid "completed"]).
      rewrite L2, L, <- !app_assoc. reflexivity. }
    split; [exact N2|].
    unfold updated in *. rewrite project_app. fold updated. fold updated in U2.
    rewrite U2.
    assert (Z : updated (map EvCreateExecutionBatch bs) = []).
    { clear. induction bs as [|b bs IH]; simpl; [reflexivity|exact IH]. }
    rewrite Z. reflexivity.
  - change (storage (snd (storage_updateSessionStatus sid "completed" s2)))
      with (MemStorage.updateSessionStatus sid "completed" (storage s2)).
    apply updateSessionStatus_sets.
    unfold MemStorage.getSession. rewrite S2, SS. exact H.
  - intros W.
    assert (ND : NoDup (map rr_id results)).
    { unfold results, selectResults.
      destruct requested; apply NoDup_map_filter; apply wellKeyed_NoDup;
        exact W. }
    change (storage (snd (storage_updateSessionStatus sid "completed" s2)))
      with (MemStorage.updateSessionStatus sid "completed" (storage s2)).
    rewrite updateSessionStatus_recordResults.
    split.
    + intros p r Hp.
      assert (Lp : p < List.length results)
        by (apply nth_error_Some; congruence).
      unfold s2, batches.
      rewrite (forEach_processBatch_stored results domain ND _ 0 s1' p r Hp).
      pose proof (batchCount_ceiling (List.length results)) as BC.
      destruct (Nat.leb_spec (batchSize * 0) p) as [A|A]; [|lia].
      destruct (Nat.ltb_spec p
                  (batchSize * (0 + batchCount (List.length results))))
        as [B|B]; [|cbn [Nat.add] in B; lia].
      cbn [andb]. rewrite Nat.sub_0_r, RR.
      rewrite (wellKeyed_lookup (storage s) r W); [reflexivity|].
      apply nth_error_In in Hp. unfold results, selectResults in Hp.
      assert (Ir : In r (MemStorage.getRecordResults (storage s) sid))
        by (destruct requested; apply filter_In in Hp; apply Hp).
      unfold MemStorage.getRecordResults in Ir. apply filter_In in Ir.
      apply Ir.
    + intros x Nx. rewrite <- RR. unfold s2. clear - Nx.
      generalize s1'. induction batches as [|ids rest IH]; intros s0;
        [reflexivity|].
      destruct (processBatch_spec results domain ids s0) as (R & _).
      pose proof (processBatch_store results domain ids s0 x) as G.
      destruct (processBatch results domain ids s0) as [o s3] eqn:P.
      cbn [fst snd] in R, G. subst o.
      rewrite (forEach_cons_Ok _ _ _ s0 s3 P), IH, G. unfold patched.
      destruct (includes_id (map rr_id (batchResultsOf results ids)) x) eqn:E;
        [|reflexivity].
      exfalso. apply Nx. apply includes_id_In in E. apply in_map_iff in E.
      destruct E as (r & Er & Ir). apply in_map_iff. exists r.
      split; [exact Er|]. unfold batchResultsOf in Ir.
      apply filter_In in Ir. apply Ir.
Qed.

(** ** Sorting the entries of a batch by kind *)

Lemma groupUpdates_acc l :
  forall cs ps,
    groupUpdates l cs ps
    = if forallb hasId l
      then Ok (cs ++ contactUpdatesOf l, ps ++ companyUpdatesOf l)
      else Throw "Cannot read properties of null (reading 'startsWith')".
Proof.
  induction l as [|r l IH]; intros cs ps.
  - cbn. rewrite !app_nil_r. reflexivity.
  - cbn [groupUpdates forallb contactUpdatesOf companyUpdatesOf flat_map].
    unfold hasId at 1. destruct (bitrixId r) as [b|]; [|reflexivity].
    cbn [andb]. destruct (Js.startsWith b "C"); rewrite IH;
      destruct (forallb hasId l); try reflexivity;
      cbn [app]; rewrite <- ?app_assoc; reflexivity.
Qed.

(** X11.  The loop that sorts the entries of a batch into the commands for
    the contacts and those for the companies: when every entry has an
    identifier, each entry gives one command, a company's when the identifier
    starts with "C" and a contact's otherwise, in the order of the entries;
    when one entry has none, the loop throws and no command is kept, for
    any entry.  The entries of the default selection all have one. *)
Theorem groupUpdates_sorts (l : list RecordResult) :
  groupUpdates l [] []
  = (if forallb hasId l
     then Ok (contactUpdatesOf l, companyUpdatesOf l)
     else Throw "Cannot read properties of null (reading 'startsWith')")
  /\ List.length (contactUpdatesOf l) + List.length (companyUpdatesOf l)
     = List.length (filter hasId l)
  /\ forall all, forallb hasId (selectResults None all) = true.
Proof.
  split; [apply groupUpdates_acc|]. split.
  - induction l as [|r l IH]; [reflexivity|].
    cbn [contactUpdatesOf companyUpdatesOf flat_map filter].
    fold (contactUpdatesOf l). fold (companyUpdatesOf l).
    unfold hasId at 1. rewrite !length_app.
    destruct (bitrixId r) as [b|]; [|exact IH].
    destruct (Js.startsWith b "C"); cbn [List.length]; lia.
  - intros all. apply forallb_forall. intros r I.
    unfold selectResults in I. apply filter_In in I. destruct I as [_ I].
    apply andb_true_iff in I. destruct I as [_ I]. unfold hasId.
    destruct (bitrixId r); [reflexivity|discriminate I].
Qed.

Lemma calls_updateEvents updates l : calls (updateEvents updates l) = [].
Proof. induction l as [|r l IH]; [reflexivity|exact IH]. Qed.

(** X12.  One entry without an identifier fails its whole batch before any
    call: no request is sent, and every entry of the batch, those with an
    identifier too, is set to "error" with the message of the [TypeError]:
    the update is logged for each of them and, in the storage, the entry
    kept under the identifier of each of them carries it, the other entries
    being left as they were.  This happens only to entries named by the
    request: those of the default selection all have an identifier. *)
Theorem batch_with_entry_without_id (results : list RecordResult)
    (domain : option string) (ids : list uuid) (s : State) :
  forallb hasId (batchResultsOf results ids) = false ->
  let batch := batchResultsOf results ids in
  let updates :=
    error_updates "Cannot read properties of null (reading 'startsWith')" in
  let s' := snd (processBatch results domain ids s) in
  (exists new,
     log s' = log s ++ new
     /\ calls new = []
     /\ updated new = map (fun r => (rr_id r, updates)) batch)
  /\ (forall r,
        In r batch ->
        Map.get (recordResults (storage s')) (rr_id r)
        = option_map (fun r0 => spread r0 updates)
                     (Map.get (recordResults (storage s)) (rr_id r)))
  /\ (forall x,
        ~ In x (map rr_id batch) ->
        Map.get (recordResults (storage s')) x
        = Map.get (recordResults (storage s)) x).
Proof.
  intros H. cbv zeta.
  assert (B : bulkCalls domain (batchResultsOf results ids) s
              = (Throw "Cannot read properties of null (reading 'startsWith')",
                 s)).
  { unfold bulkCalls. rewrite bind_lift, groupUpdates_acc, H. reflexivity. }
  pose proof (processBatch_marks results domain ids s) as M'.
  rewrite B in M'. cbn [fst outcomeOf batchPatch] in M'.
  split; [|exact M'].
  rewrite processBatch_eq. cbv zeta.
  fold (batchResultsOf results ids). rewrite B.
  destruct (forEach_update
              (error_updates
                 "Cannot read properties of null (reading 'startsWith')")
              (batchResultsOf results ids)
              (snd (console_error "Batch execution error:" s)))
    as (_ & L & _).
  eexists. split; [rewrite L; cbn [console_error emit snd log];
                   rewrite <- app_assoc; reflexivity|].
  split.
  - unfold calls. rewrite project_app. cbn [project flat_map app].
    apply calls_updateEvents.
  - unfold updated. rewrite project_app. cbn [project flat_map app].
    apply updated_updateEvents.
Qed.

(** ** Undo, entry by entry *)

Lemma forEach_app_Throw {A : Type} (body : A -> M unit) before x after :
  forall s s1 e s2,
    forEach before body s = (Ok tt, s1) ->
    body x s1 = (Throw e, s2) ->
    forEach (before ++ x :: after) body s = (Throw e, s2).
Proof.
  induction before as [|b before IH]; intros s s1 e s2 H1 H2.
  - cbn in H1. injection H1 as <-. cbn [app forEach]. unfold bind.
    rewrite H2. reflexivity.
  - cbn [app forEach] in *. unfold bind in *.
    destruct (body b s) as [[[]|e0] s0]; [|discriminate].
    apply (IH s0 s1); assumption.
Qed.

(** X13.  Undo gives up at the first entry whose revert fails.  When the
    entries before it were reverted and its own call throws (or it has a
    current value and no identifier), [revertChangesInBackground] logs
    the error and returns: the entries after it are not looked at, no call
    is made for them, and nothing tells the caller, to whom the route has
    already answered that the undo started. *)
Theorem undo_stops_at_first_failure (sid : uuid)
    (before after : list RecordResult) (record : RecordResult)
    (domain : option string) (s s1 s2 : State) (e : string) :
  forEach before (revertOne domain) s = (Ok tt, s1) ->
  revertOne domain record s1 = (Throw e, s2) ->
  revertChangesInBackground sid (before ++ record :: after) domain s
  = (Ok tt, snd (console_error "Undo error:" s2))
  /\ log (snd (revertChangesInBackground sid (before ++ record :: after)
                 domain s))
     = log s2 ++ [EvConsoleError "Undo error:"]
  /\ storage (snd (revertChangesInBackground sid (before ++ record :: after)
                     domain s))
     = storage s2.
Proof.
  intros H1 H2. rewrite revertChangesInBackground_eq. unfold try_catch.
  rewrite (forEach_app_Throw _ _ _ _ _ _ _ _ H1 H2).
  repeat split.
Qed.

(** The entries of any session after an execution: those of before, each
    with the executor's updates for it applied. *)
Lemma execution_entries sid requested domain s x :
  wellKeyed (storage s) ->
  exists us,
    Forall (fun u => statusOnly (snd u)) us
    /\ MemStorage.getRecordResults
         (storage (snd (executeUpdatesInBackground sid requested domain s))) x
       = map (fun r => fold_left spread (patchesFor (rr_id r) us) r)
             (MemStorage.getRecordResults (storage s) x).
Proof.
  intros W.
  assert (E : executed sid s
                (snd (executeUpdatesInBackground sid requested domain s))).
  { apply (respects_executeUpdatesInBackground (executed sid)
             (executed_refl sid) (executed_trans sid)
             (executed_callBitrixAPI sid) (executed_console_error sid) sid
             (executed_updateSessionStatus sid) (fun _ => True)
             (executed_createExecutionBatch sid)).
    - intros rid _. apply executed_updateRecordResult. left. reflexivity.
    - intros rid message _. apply executed_updateRecordResult.
      right. eexists. reflexivity.
    - intros r _. exact I. }
  destruct E as (new & _ & RR & F & _).
  exists (updated new). split; [exact F|].
  apply getRecordResults_updated; assumption.
Qed.

(** X14.  The default selection does not look at the status.  After an
    execution, whatever came of it, an execution without record ids selects
    the same entries again, and the commands it builds from them are the
    same: entries already "completed" are sent to the CRM a second time. *)
Theorem execution_selects_the_same_again (sid : uuid)
    (requested : option (list uuid)) (domain : option string) (s : State) :
  wellKeyed (storage s) ->
  let before :=
    selectResults None (MemStorage.getRecordResults (storage s) sid) in
  let after :=
    selectResults None
      (MemStorage.getRecordResults
         (storage (snd (executeUpdatesInBackground sid requested domain s)))
         sid) in
  map rr_id after = map rr_id before
  /\ contactUpdatesOf after = contactUpdatesOf before
  /\ companyUpdatesOf after = companyUpdatesOf before.
Proof.
  intros W before after.
  destruct (execution_entries sid requested domain s sid W) as (us & F & G).
  set (h := fun r => fold_left spread (patchesFor (rr_id r) us) r) in G.
  assert (S : forall r, sameButStatus r (h r)).
  { intros r. apply fold_spread_statusOnly. apply patchesFor_Forall.
    exact F. }
  assert (A : after = map h before).
  { unfold after, before, selectResults. rewrite G.
    apply filter_map_comm. intros r _.
    destruct (S r) as (_ & _ & _ & _ & B & _ & _ & _ & Ac & Se).
    rewrite B, Ac, Se. reflexivity. }
  rewrite A. clearbody before. clear A after G.
  split; [|split].
  - rewrite map_map. apply map_ext. intros r. apply (S r).
  - unfold contactUpdatesOf. rewrite flat_map_concat_map, map_map.
    rewrite <- flat_map_concat_map. apply flat_map_ext. intros r.
    destruct (S r) as (_ & _ & _ & _ & B & Fi & _ & Nv & _).
    rewrite B, Fi, Nv. reflexivity.
  - unfold companyUpdatesOf. rewrite flat_map_concat_map, map_map.
    rewrite <- flat_map_concat_map. apply flat_map_ext. intros r.
    destruct (S r) as (_ & _ & _ & _ & B & Fi & _ & Nv & _).
    rewrite B, Fi, Nv. reflexivity.
Qed.

(** ** The search, call by call *)

Lemma searchInBitrix24_pick results s :
  match results with
  | [] => ret None
  | first :: _ :: _ => ret (Some {| entity := first; isDuplicate := true |})
  | [first] => ret (Some {| entity := first; isDuplicate := false |})
  end s
  = (Ok (firstMatch results), s).
Proof. destruct results as [|first [|second rest]]; reflexivity. Qed.

Lemma bind_Ok {A B : Type} (m : M A) (k : A -> M B) s a s1 :
  m s = (Ok a, s1) -> bind m k s = k a s1.
Proof. intros E. unfold bind. rewrite E. reflexivity. Qed.

(** One call of a search on both kinds: a failure is logged and adds
    nothing to the results. *)
Lemma search_try_catch (call : M (option (list Entity))) acc label s :
  try_catch (r <- call ;; ret (acc ++ result_or_empty r)%list)
            (fun _ => console_error label ;; ret acc) s
  = (Ok (acc ++ match fst (call s) with
                | Ok body => result_or_empty body
                | Throw _ => []
                end),
     match fst (call s) with
     | Ok _ => snd (call s)
     | Throw _ => snd (console_error label (snd (call s)))
     end).
Proof.
  unfold try_catch, bind. destruct (call s) as [[body|e] s1]; cbn [fst snd].
  - reflexivity.
  - rewrite app_nil_r. reflexivity.
Qed.

(** X18.  What a search returns.  On contacts only (and likewise on
    companies only) a failed call makes the search throw, and otherwise the
    results of the call decide.  On both kinds no failure gets out: a failed
    call is logged and counts as no result, the call for the companies is
    made whatever came of the one for the contacts, and the results of the
    contacts come before those of the companies; so when both calls fail
    the search answers as if nothing matched.  In every case the match is the
    first result, flagged as a duplicate when there is more than one. *)
Theorem searchInBitrix24_returns (searchValue : Js.Value)
    (keyColumn : string) (domain : option string) (s : State) :
  let contactCall st :=
    callBitrixAPI domain "crm.contact.list"
      (ListParams keyColumn searchValue) st in
  let companyCall st :=
    callBitrixAPI domain "crm.company.list"
      (ListParams keyColumn searchValue) st in
  let found r :=
    match r with
    | Ok body => result_or_empty body
    | Throw _ => []
    end in
  let logged label (c : Result (option (list Entity)) * State) :=
    match fst c with
    | Ok _ => snd c
    | Throw _ => snd (console_error label (snd c))
    end in
  fst (searchInBitrix24 searchValue keyColumn contacts domain s)
  = match fst (contactCall s) with
    | Ok body => Ok (firstMatch (result_or_empty body))
    | Throw e => Throw e
    end
  /\ fst (searchInBitrix24 searchValue keyColumn companies domain s)
     = match fst (companyCall s) with
       | Ok body => Ok (firstMatch (result_or_empty body))
       | Throw e => Throw e
       end
  /\ let s1 := logged "Contact search error:" (contactCall s) in
     searchInBitrix24 searchValue keyColumn both domain s
     = (Ok (firstMatch (found (fst (contactCall s))
                        ++ found (fst (companyCall s1)))),
        logged "Company search error:" (companyCall s1)).
Proof.
  cbv zeta. unfold searchInBitrix24. split; [|split].
  - unfold bind.
    destruct (callBitrixAPI domain "crm.contact.list" _ s) as [[body|e] s1];
      cbn [fst]; [|reflexivity].
    destruct (result_or_empty body) as [|? [|? ?]]; reflexivity.
  - unfold bind.
    destruct (callBitrixAPI domain "crm.company.list" _ s) as [[body|e] s1];
      cbn [fst]; [|reflexivity].
    destruct (result_or_empty body) as [|? [|? ?]]; reflexivity.
  - erewrite bind_Ok;
      [|erewrite bind_Ok; [apply search_try_catch|apply search_try_catch]].
    rewrite searchInBitrix24_pick. reflexivity.
Qed.

(** ** The preview of duplicates *)

(** X19.  The "duplicates" filter of the preview never shows anything.
    Starting from a storage without "duplicate" entries and whatever
    requests are served (no edit of the preview sending that status
    itself), [GET /api/preview] with [filter=duplicates] answers with no
    entry, a total of 0 and 0 pages, for every page, page size and search:
    the matcher never writes the status the filter looks for. *)
Theorem preview_of_duplicates_is_empty (toLowerCase : string -> string)
    (contains : string -> string -> bool) (ops : list Op) (s : State)
    (sid : uuid) (page limit : option Z) (search : option string) :
  never "duplicate" (storage s) ->
  forallb (clean "duplicate") ops = true ->
  get_api_preview toLowerCase contains (storage (serve ops s)) sid page limit
    (Some "duplicates") search
  = ([], {| pg_page := Js.orInt page 1; pg_limit := Js.orInt limit 50;
            pg_total := 0; pg_totalPages := 0 |}).
Proof.
  intros H C.
  assert (N : never "duplicate" (storage (serve ops s)))
    by (apply never_serve; [exact duplicate_unwritten|exact C|exact H]).
  assert (F : previewFilter (Some "duplicates")
                (MemStorage.getRecordResults (storage (serve ops s)) sid)
              = []).
  { cbn. apply filter_none. intros r I.
    unfold MemStorage.getRecordResults, Map.values in I.
    apply filter_In in I. destruct I as [I _].
    apply in_map_iff in I. destruct I as ([k r'] & <- & I).
    unfold never in N. rewrite Forall_forall in N. specialize (N _ I).
    cbn in N |- *. apply String.eqb_neq. exact N. }
  unfold get_api_preview. rewrite F.
  assert (S : previewSearch toLowerCase contains search [] = []).
  { unfold previewSearch. destruct search as [q|]; [|reflexivity].
    destruct (q =? "")%string; reflexivity. }
  rewrite S. unfold Js.sliceZ. rewrite skipn_nil, firstn_nil.
  reflexivity.
Qed.

(** ** Without a webhook *)

Lemma callBitrixAPI_unconfigured domain method params s :
  Js.truthy (Security.BITRIX_WEBHOOK_URL env) = false ->
  callBitrixAPI domain method params s
  = (Throw "BITRIX_WEBHOOK_URL not configured",
     snd (rateLimiter_wait (snd (emit (EvCall domain method params) s)))).
Proof.
  intros H. unfold callBitrixAPI, bind. cbn [emit rateLimiter_wait fst snd].
  destruct (Security.BITRIX_WEBHOOK_URL env) as [url|]; [|reflexivity].
  cbn in H. apply negb_false_iff in H. rewrite H. reflexivity.
Qed.

Lemma searchInBitrix24_unconfigured searchValue keyColumn target domain s m :
  Js.truthy (Security.BITRIX_WEBHOOK_URL env) = false ->
  fst (searchInBitrix24 searchValue keyColumn target domain s) <> Ok (Some m).
Proof.
  intros H. unfold searchInBitrix24. destruct target.
  - unfold bind at 1. unfold bind at 1.
    rewrite callBitrixAPI_unconfigured by exact H. discriminate.
  - unfold bind at 1. unfold bind at 1.
    rewrite callBitrixAPI_unconfigured by exact H. discriminate.
  - erewrite bind_Ok;
      [|erewrite bind_Ok; [apply search_try_catch|apply search_try_catch]].
    rewrite !callBitrixAPI_unconfigured by exact H. discriminate.
Qed.

Lemma findMatch_unconfigured row target keyCols domain remaining :
  Js.truthy (Security.BITRIX_WEBHOOK_URL env) = false ->
  forall s, fst (findMatch row target keyCols domain remaining s) = Ok None.
Proof.
  intros H. induction remaining as [|k rest IH]; intros s; [reflexivity|].
  cbn [findMatch]. destruct (hasValue row k); [|apply IH].
  pose proof (searchInBitrix24_unconfigured (searchValueOf row k) k target
                domain s) as N.
  destruct (searchInBitrix24 _ k target domain s) as [[[m|]|e] s1];
    try apply IH.
  exfalso. exact (N m H eq_refl).
Qed.

(** X20.  Without [BITRIX_WEBHOOK_URL] every call throws
    'BITRIX_WEBHOOK_URL not configured', after it has been logged and has
    waited its turn at the limiter, and no request is sent.  Processing does
    not stop for it: every key column for which the row has a truthy value
    is still tried, and every row ends up not found, with one "not_found"
    entry per column that is not a key column, each stored under the
    identifier drawn for it; when the keys of the storage are in order the
    entries of the storage are those of before followed by these. *)
Theorem without_webhook_rows_are_not_found (sid : uuid) (target : TargetType)
    (keyCols : list string) (domain : option string) (i : nat) (row : Row)
    (s : State) :
  Js.truthy (Security.BITRIX_WEBHOOK_URL env) = false ->
  let s' := snd (processRow sid target keyCols domain i row s) in
  (forall method params st,
     callBitrixAPI domain method params st
     = (Throw "BITRIX_WEBHOOK_URL not configured",
        snd (rateLimiter_wait (snd (emit (EvCall domain method params) st)))))
  /\ exists new,
       log s' = log s ++ new
       /\ fst (processRow sid target keyCols domain i row s) = Ok tt
       /\ calls new
          = flat_map (fun k => searchCalls target k (searchValueOf row k))
                     (filter (hasValue row) keyCols)
       /\ Forall2 (unmatched_entry sid i row) (fieldsToUpdate row keyCols)
                  (created new)
       /\ (forall j r,
             nth_error (created new) j = Some r ->
             rr_id r = randomUUID (storage s) + j
             /\ Map.get (recordResults (storage s')) (rr_id r) = Some r)
       /\ (wellKeyed (storage s) ->
           recordResults (storage s')
           = recordResults (storage s) ++ entriesOf (created new)).
Proof.
  intros H. cbv zeta.
  split; [intros; apply callBitrixAPI_unconfigured; exact H|].
  destruct (processRow_run sid target keyCols domain i row s)
    as (new & tried & untried & R & L & T & C & D & G & W).
  rewrite (findMatch_unconfigured row target keyCols domain keyCols H s) in D.
  destruct D as (-> & _ & F). rewrite app_nil_r in T.
  exists new. split; [exact L|]. split; [exact R|].
  split; [rewrite T; exact C|]. split; [exact F|]. split; assumption.
Qed.

(** X21.  Without [BITRIX_WEBHOOK_URL] a batch whose entries all have an
    identifier fails at its first bulk call, and every one of its entries is
    set to "error" with the message 'BITRIX_WEBHOOK_URL not configured': the
    update is logged for each of them and, in the storage, the entry kept
    under the identifier of each of them carries it, the other entries being
    left as they were. *)
Theorem without_webhook_batches_fail (results : list RecordResult)
    (domain : option string) (ids : list uuid) (s : State) :
  Js.truthy (Security.BITRIX_WEBHOOK_URL env) = false ->
  batchResultsOf results ids <> [] ->
  forallb hasId (batchResultsOf results ids) = true ->
  let batch := batchResultsOf results ids in
  let updates := error_updates "BITRIX_WEBHOOK_URL not configured" in
  let s' := snd (processBatch results domain ids s) in
  (exists new,
     log s' = log s ++ new
     /\ List.length (calls new) = 1
     /\ updated new = map (fun r => (rr_id r, updates)) batch)
  /\ (forall r,
        In r batch ->
        Map.get (recordResults (storage s')) (rr_id r)
        = option_map (fun r0 => spread r0 updates)
                     (Map.get (recordResults (storage s)) (rr_id r)))
  /\ (forall x,
        ~ In x (map rr_id batch) ->
        Map.get (recordResults (storage s')) x
        = Map.get (recordResults (storage s)) x).
Proof.
  intros H N A. cbv zeta.
  pose proof (processBatch_marks results domain ids s) as M'.
  rewrite processBatch_eq in *. cbv zeta in *.
  fold (batchResultsOf results ids) in *.
  set (batch := batchResultsOf results ids) in *.
  assert (G : groupUpdates batch [] []
              = Ok (contactUpdatesOf batch, companyUpdatesOf batch))
    by (rewrite groupUpdates_acc, A; reflexivity).
  assert (B : exists method params,
             bulkCalls domain batch s
             = (Throw "BITRIX_WEBHOOK_URL not configured",
                snd (rateLimiter_wait
                       (snd (emit (EvCall domain method params) s))))).
  { destruct (contactUpdatesOf batch) as [|c cs] eqn:EC.
    - destruct (companyUpdatesOf batch) as [|p ps] eqn:EP.
      + exfalso. apply N.
        assert (Z : List.length (filter hasId batch) = 0).
        { clear - EC EP. revert EC EP. unfold contactUpdatesOf, companyUpdatesOf.
          induction batch as [|r l IH]; [reflexivity|].
          cbn [flat_map filter]. unfold hasId at 1.
          destruct (bitrixId r) as [b|]; [|exact IH].
          destruct (Js.startsWith b "C"); discriminate. }
        rewrite filter_all in Z by (apply forallb_forall; exact A).
        destruct batch; [reflexivity|discriminate Z].
      + exists "crm.company.batch", (BatchParams (p :: ps)).
        unfold bulkCalls. rewrite bind_lift, G. cbn [fst snd List.length
          Nat.ltb Nat.leb]. unfold bind at 1. cbn [ret].
        unfold bind. rewrite callBitrixAPI_unconfigured by exact H.
        reflexivity.
    - exists "crm.contact.batch", (BatchParams (c :: cs)).
      apply (bulkCalls_contact_fails domain batch (c :: cs)
               (companyUpdatesOf batch)); [exact G|discriminate|].
      apply callBitrixAPI_unconfigured. exact H. }
  destruct B as (method & params & B). rewrite B in *.
  cbn [fst outcomeOf batchPatch] in M'.
  split; [|exact M'].
  destruct (forEach_update
              (error_updates "BITRIX_WEBHOOK_URL not configured") batch
              (snd (console_error "Batch execution error:"
                      (snd (rateLimiter_wait
                              (snd (emit (EvCall domain method params) s)))))))
    as (_ & L & _).
  exists ([EvCall domain method params]
          ++ [EvConsoleError "Batch execution error:"]
          ++ updateEvents
               (error_updates "BITRIX_WEBHOOK_URL not configured") batch).
  split; [rewrite L; cbn [console_error emit rateLimiter_wait snd log];
          rewrite <- !app_assoc; reflexivity|].
  split.
  - unfold calls. rewrite !project_app. fold calls.
    rewrite calls_updateEvents. reflexivity.
  - unfold updated. rewrite !project_app. fold updated.
    rewrite updated_updateEvents. reflexivity.
Qed.

(** ** The upload *)

Lemma includes_In l x : Js.includes l x = true <-> In x l.
Proof.
  unfold Js.includes. rewrite existsb_exists. split.
  - intros (y & I & E). apply String.eqb_eq in E. subst. exact I.
  - intros I. exists x. split; [exact I|apply String.eqb_refl].
Qed.

(** X22.  What [POST /api/upload] lets through.  The handler never throws.
    When it answers 200, a file was sent, the body and the file could be
    parsed, the file has between 1 and 100,000 rows and every key column is
    a column of its first row; the session is then stored under a fresh
    identifier with status "uploaded", the rows as they were parsed and
    their number as [totalRows], and nothing else of the storage changes:
    the sessions kept under other identifiers, the entries and the batches
    are as they were, and the identifier is not drawn again.  When the keys
    of the storage are in order no session was kept under that identifier,
    and the sessions are those of before followed by the new one.  In every
    other case the answer is a 400 and the state is left as it was. *)
Theorem upload_stores_checked_files (file : option (string * nat))
    (body : Result (TargetType * list string)) (parsed : Result (list Row))
    (s : State) :
  let r := post_api_upload_checked file body parsed s in
  (fst r = Ok (JsonReply 200 "uploaded") ->
   exists originalname size target keyCols fileData,
     file = Some (originalname, size)
     /\ body = Ok (target, keyCols)
     /\ parsed = Ok fileData
     /\ 1 <= List.length fileData
     /\ (Z.of_nat (List.length fileData) <= 100000)%Z
     /\ (forall col, In col keyCols -> In col (Js.keys (hd [] fileData)))
     /\ MemStorage.getSession (storage (snd r)) (randomUUID (storage s))
        = Some {| us_id := randomUUID (storage s);
                  fileName := originalname;
                  fileSize := size;
                  totalRows := List.length fileData;
                  targetType := target;
                  keyColumns := keyCols;
                  originalData := fileData;
                  processedData := None;
                  us_status := "uploaded" |}
     /\ (forall other,
           other <> randomUUID (storage s) ->
           MemStorage.getSession (storage (snd r)) other
           = MemStorage.getSession (storage s) other)
     /\ randomUUID (storage (snd r)) = S (randomUUID (storage s))
     /\ (wellKeyed (storage s) ->
         MemStorage.getSession (storage s) (randomUUID (storage s)) = None
         /\ Map.keys (sessions (storage (snd r)))
            = Map.keys (sessions (storage s)) ++ [randomUUID (storage s)]
         /\ wellKeyed (storage (snd r)))
     /\ recordResults (storage (snd r)) = recordResults (storage s)
     /\ executionBatches (storage (snd r)) = executionBatches (storage s))
  /\ (fst r <> Ok (JsonReply 200 "uploaded") ->
      snd r = s /\ exists message, fst r = Ok (JsonReply 400 message)).
Proof.
  cbv zeta. unfold post_api_upload_checked.
  destruct file as [[originalname size]|];
    [|split; [discriminate|intros _; split; [reflexivity|eexists; reflexivity]]].
  unfold try_catch, bind, lift.
  destruct body as [[target keyCols]|e];
    [|split; [discriminate|intros _; split; [reflexivity|eexists; reflexivity]]].
  destruct parsed as [fileData|e];
    [|split; [discriminate|intros _; split; [reflexivity|eexists; reflexivity]]].
  cbn [fst snd].
  destruct (Z.eqb_spec (Z.of_nat (List.length fileData)) 0) as [Z0|Z0];
    [split; [discriminate|intros _; split; [reflexivity|eexists; reflexivity]]|].
  destruct (Z.ltb_spec 100000 (Z.of_nat (List.length fileData))) as [Big|Big];
    [split; [discriminate|intros _; split; [reflexivity|eexists; reflexivity]]|].
  destruct (filter (fun col => negb (Js.includes (Js.keys (hd [] fileData)) col))
                   keyCols) as [|c cs] eqn:Inv; cbn [List.length Nat.ltb Nat.leb];
    [|split; [discriminate|intros _; split; [reflexivity|eexists; reflexivity]]].
  split; [|intros X; exfalso; apply X; reflexivity].
  intros _. exists originalname, size, target, keyCols, fileData.
  split; [reflexivity|]. split; [reflexivity|]. split; [reflexivity|].
  split; [lia|]. split; [lia|].
  split.
  { intros col I. apply includes_In.
    destruct (Js.includes (Js.keys (hd [] fileData)) col) eqn:E;
      [reflexivity|].
    assert (X : In col (filter (fun col => negb (Js.includes
                                  (Js.keys (hd [] fileData)) col)) keyCols))
      by (apply filter_In; split; [exact I|rewrite E; reflexivity]).
    rewrite Inv in X. destruct X. }
  split.
  { cbn. unfold MemStorage.getSession. cbn [sessions].
    apply Map_get_set_same. }
  split.
  { intros other N. cbn. unfold MemStorage.getSession. cbn [sessions].
    apply Map_get_set_ne. exact N. }
  split; [reflexivity|].
  split; [|split; reflexivity].
  intros W. split; [|split].
  - unfold MemStorage.getSession.
    destruct W as (_ & _ & _ & F).
    destruct (Map.get (sessions (storage s)) (randomUUID (storage s)))
      as [u|] eqn:G; [|reflexivity].
    exfalso. apply Map_get_In in G. rewrite Forall_forall in F.
    specialize (F _ G). cbn in F. unfold uuid in *. lia.
  - cbn. destruct W as (_ & _ & _ & F).
    rewrite Map_set_fresh by (apply below_fresh; exact F).
    unfold Map.keys. rewrite map_app. reflexivity.
  - cbn.
    apply (wellKeyed_createSession
             {| us_id := 0; fileName := originalname; fileSize := size;
                totalRows := List.length fileData; targetType := target;
                keyColumns := keyCols; originalData := fileData;
                processedData := None; us_status := "uploaded" |}
             (storage s) W).
Qed.

(** ** Requests about a session that does not exist, and edits *)

(** X25.  A session that does not exist is answered 404 by the routes that
    start a background task, which then start nothing: the state is left as
    it was, log included.  The report routes answer 404 as well, and the two
    status functions return nothing. *)
Theorem missing_session_is_404 (sid : uuid) (s : State) :
  MemStorage.getSession (storage s) sid = None ->
  (forall target keyCols domain,
     post_api_process sid target keyCols domain s
     = (Ok (JsonReply 404 "Session not found"), s))
  /\ (forall requested domain,
        post_api_execute sid requested domain s
        = (Ok (JsonReply 404 "Session not found"), s))
  /\ (forall domain,
        post_api_undo sid domain s
        = (Ok (JsonReply 404 "Session not found"), s))
  /\ (forall type,
        download (storage s) sid type = JsonReply 404 "Session not found")
  /\ MemStorage.getProcessingStatus (storage s) sid = None
  /\ MemStorage.getExecutionProgress (storage s) sid = None.
Proof.
  intros H. repeat split; intros.
  - unfold post_api_process, try_catch, bind, read_storage. rewrite H.
    reflexivity.
  - unfold post_api_execute, try_catch, bind, read_storage. rewrite H.
    reflexivity.
  - unfold post_api_undo, try_catch, bind, read_storage. rewrite H.
    reflexivity.
  - unfold download, MemStorage.getExecutionResults. rewrite H. reflexivity.
  - unfold MemStorage.getProcessingStatus. rewrite H. reflexivity.
  - unfold MemStorage.getExecutionProgress. rewrite H. reflexivity.
Qed.

Lemma updateRecordResult_keys rid u st :
  Map.keys (recordResults (MemStorage.updateRecordResult rid u st))
  = Map.keys (recordResults st).
Proof.
  unfold MemStorage.updateRecordResult.
  destruct (Map.get (recordResults st) rid) as [r|] eqn:G; [|reflexivity].
  cbn [recordResults]. apply (Map_set_keys _ _ _ _ G).
Qed.

Lemma updateRecordResult_get_ne rid u st k :
  k <> rid ->
  Map.get (recordResults (MemStorage.updateRecordResult rid u st)) k
  = Map.get (recordResults st) k.
Proof.
  intros N. unfold MemStorage.updateRecordResult.
  destruct (Map.get (recordResults st) rid) as [r|]; [|reflexivity].
  cbn [recordResults]. apply Map_get_set_ne. exact N.
Qed.

Lemma updateRecordResults_edits updates :
  forall st,
    Map.keys (recordResults (MemStorage.updateRecordResults updates st))
    = Map.keys (recordResults st)
    /\ (forall k, ~ In k (map fst updates) ->
          Map.get (recordResults (MemStorage.updateRecordResults updates st)) k
          = Map.get (recordResults st) k)
    /\ sessions (MemStorage.updateRecordResults updates st) = sessions st
    /\ executionBatches (MemStorage.updateRecordResults updates st)
       = executionBatches st.
Proof.
  induction updates as [|[rid u] rest IH]; intros st.
  - repeat split.
  - cbn [MemStorage.updateRecordResults map fst].
    destruct (IH (MemStorage.updateRecordResult rid u st)) as (K & G & S & B).
    split; [rewrite K; apply updateRecordResult_keys|].
    split.
    { intros k N. rewrite G by (intros X; apply N; right; exact X).
      apply updateRecordResult_get_ne. intros ->. apply N. left. reflexivity. }
    split; [rewrite S; apply updateRecordResult_sessions|].
    rewrite B. apply updateRecordResult_executionBatches.
Qed.

(** X26.  An edit of the preview changes entries and nothing else.  For a
    body that holds a list of updates, whatever they are, [PATCH
    /api/preview] answers 200, adds no entry and removes none, leaves alone
    the entries it does not name, the sessions, the batches and the log, and
    sends no request to the CRM.  It does not look at the session of the
    route: the entries are reached by their identifier alone, and every
    property sent is written. *)
Theorem preview_edits_only_edit (updates : list (uuid * Patch)) (s : State) :
  let s' := snd (patch_api_preview updates s) in
  fst (patch_api_preview updates s)
  = Ok (JsonReply 200 "Records updated successfully")
  /\ Map.keys (recordResults (storage s'))
     = Map.keys (recordResults (storage s))
  /\ (forall k, ~ In k (map fst updates) ->
        Map.get (recordResults (storage s')) k
        = Map.get (recordResults (storage s)) k)
  /\ (forall rid u r,
        updates = [(rid, u)] ->
        Map.get (recordResults (storage s)) rid = Some r ->
        Map.get (recordResults (storage s')) rid = Some (spread r u))
  /\ sessions (storage s') = sessions (storage s)
  /\ executionBatches (storage s') = executionBatches (storage s)
  /\ log s' = log s /\ world s' = world s.
Proof.
  cbv zeta. unfold patch_api_preview, bind, with_storage. cbn [fst snd storage
    log world].
  destruct (updateRecordResults_edits updates (storage s)) as (K & G & S & B).
  repeat split; try assumption.
  intros rid u r -> E. cbn [MemStorage.updateRecordResults].
  unfold MemStorage.updateRecordResult. rewrite E. cbn [recordResults].
  apply Map_get_set_same.
Qed.

(** ** The numbers of the results *)

Lemma never_pending_serve ops s :
  never "pending" (storage s) ->
  forallb (clean "pending") ops = true ->
  never "pending" (storage (serve ops s)).
Proof.
  intros H C.
  apply (invariant_serve (never "pending") (harmless "pending"));
    try reflexivity; try assumption; try (intros; assumption).
  - intros. apply never_createRecordResult; [discriminate|assumption].
  - intros. apply never_createRecordResult; [discriminate|assumption].
  - intros rid u st O N. apply never_updateRecordResult; [|exact N].
    unfold harmless in O. destruct (p_status u) as [v|]; [|discriminate].
    intros [= ->]. discriminate O.
  - intros. apply never_updateSessionStatus. assumption.
Qed.

(** X30.  The status "pending" is the default of [createRecordResult], and
    the server never leaves it out: starting from a storage without
    "pending" entries and whatever requests are served (no edit of the
    preview sending that status itself), no entry is ever "pending", so
    [getExecutionResults] reports [pending: 0]; its [totalRows] and
    [processedRows] are both the number of entries of the session, and
    [failed] the number of those with status "error". *)
Theorem pending_count_is_zero (ops : list Op) (s : State) (sid : uuid)
    (results : list (string * JsVal)) :
  never "pending" (storage s) ->
  forallb (clean "pending") ops = true ->
  MemStorage.getExecutionResults (storage (serve ops s)) sid = Some results ->
  let entries :=
    MemStorage.getRecordResults (storage (serve ops s)) sid in
  Js.get results "pending" = Some (JNumber 0)
  /\ Js.get results "totalRows" = Some (JNumber (List.length entries))
  /\ Js.get results "processedRows" = Some (JNumber (List.length entries))
  /\ Js.get results "failed"
     = Some (JNumber (MemStorage.count_status "error" entries)).
Proof.
  intros H C G entries.
  pose proof (never_pending_serve ops s H C) as N.
  pose proof (never_count "pending" _ sid N) as Z. fold entries in Z.
  unfold MemStorage.getExecutionResults in G.
  destruct (MemStorage.getSession (storage (serve ops s)) sid); [|discriminate].
  injection G as <-. fold entries.
  cbn [Js.get String.eqb Ascii.eqb Bool.eqb]. rewrite Z.
  repeat split.
Qed.

End Facts.

(** ** The security middleware *)

Lemma includesValue_In l d :
  Js.includesValue l d = true <-> exists x, d = Some x /\ In x l.
Proof.
  destruct d as [x|]; simpl.
  - unfold Js.includes. rewrite existsb_exists. split.
    + intros (y & I & E). apply String.eqb_eq in E. subst. eauto.
    + intros (y & [= <-] & I). exists x. split; [exact I|].
      apply String.eqb_refl.
  - split; [discriminate|]. intros (x & E & _). discriminate.
Qed.

(** C8.  With a secret configured, the middleware lets a request through exactly
    when its token equals the secret and, if the allow-list is not empty,
    its domain is in the list.  Any other token is answered 401, a domain
    outside a non-empty allow-list 403, and in neither case does the handler
    run: the state it would work on is left as it was. *)
Theorem validateSecurity_admits (env : Security.Env) (req : Security.Request) :
  let token :=
    Js.or (Security.query_token req) (Security.header_x_auth_token req) in
  let domain :=
    Js.or (Security.query_domain req) (Security.header_x_bitrix_domain req) in
  Js.truthy (Security.APP_SECRET_TOKEN env) = true ->
  (forall d,
     Security.validateSecurity env req = Security.Next d
     <-> (token = Security.APP_SECRET_TOKEN env
          /\ (Security.allowedDomains env = []
              \/ exists x, domain = Some x
                           /\ In x (Security.allowedDomains env))
          /\ d = domain))
  /\ (token <> Security.APP_SECRET_TOKEN env ->
      Security.validateSecurity env req
      = Security.Reply 401 "Invalid or missing token")
  /\ (token = Security.APP_SECRET_TOKEN env ->
      Security.allowedDomains env <> [] ->
      ~ (exists x, domain = Some x /\ In x (Security.allowedDomains env)) ->
      Security.validateSecurity env req
      = Security.Reply 403 "Domain not authorized")
  /\ (forall (S A : Type) (handler : option string -> S -> A * S)
             (rejected : nat -> string -> A) (s : S),
        (forall d, Security.validateSecurity env req <> Security.Next d) ->
        snd (Security.guarded env handler rejected req s) = s).
Proof.
  intros token domain H.
  assert (T : (match token, Security.APP_SECRET_TOKEN env with
               | Some t, Some s => (t =? s)%string
               | _, _ => false
               end) = true <-> token = Security.APP_SECRET_TOKEN env).
  { destruct (Security.APP_SECRET_TOKEN env) as [s|]; [|discriminate].
    destruct token as [t|]; [|split; discriminate].
    rewrite String.eqb_eq. split; congruence. }
  assert (D : ((0 <? List.length (Security.allowedDomains env))%nat
               && negb (Js.includesValue (Security.allowedDomains env) domain))
              = false
              <-> (Security.allowedDomains env = []
                   \/ exists x, domain = Some x
                                /\ In x (Security.allowedDomains env))).
  { rewrite <- includesValue_In.
    destruct (Security.allowedDomains env) as [|a l]; simpl.
    - split; auto.
    - destruct (Js.includesValue (a :: l) domain); simpl; split; auto.
      intros [E|E]; discriminate. }
  unfold Security.validateSecurity. fold token. fold domain. rewrite H.
  cbn [negb].
  destruct (match token, Security.APP_SECRET_TOKEN env with
            | Some t, Some s => (t =? s)%string
            | _, _ => false
            end) eqn:ET; cbn [negb].
  - apply proj1 in T. specialize (T eq_refl).
    destruct ((0 <? List.length (Security.allowedDomains env))%nat
              && negb (Js.includesValue (Security.allowedDomains env) domain))
      eqn:ED.
    + assert (ND : ~ (Security.allowedDomains env = []
                      \/ exists x, domain = Some x
                                   /\ In x (Security.allowedDomains env)))
        by (intros X; apply D in X; discriminate).
      split; [|split; [|split]].
      * intros d. split; [discriminate|]. intros (_ & X & _). tauto.
      * tauto.
      * reflexivity.
      * intros S A handler rejected s _. unfold Security.guarded,
          Security.validateSecurity. fold token. fold domain.
        rewrite H, ET, ED. reflexivity.
    + apply proj1 in D. specialize (D eq_refl).
      split; [|split; [|split]].
      * intros d. split; [intros [= <-]; auto|].
        intros (_ & _ & ->). reflexivity.
      * tauto.
      * intros _ N X. destruct D as [D|D]; contradiction.
      * intros S A handler rejected s N. exfalso. apply (N domain).
        reflexivity.
  - assert (NT : token <> Security.APP_SECRET_TOKEN env)
      by (intros X; apply T in X; discriminate).
    split; [|split; [|split]].
    + intros d. split; [discriminate|]. intros (X & _). contradiction.
    + reflexivity.
    + intros X. contradiction.
    + intros S A handler rejected s _. unfold Security.guarded,
        Security.validateSecurity. fold token. fold domain.
      rewrite H, ET. reflexivity.
Qed.

(** Without a secret configured nothing gets through. *)
Lemma validateSecurity_unconfigured (env : Security.Env) req :
  Js.truthy (Security.APP_SECRET_TOKEN env) = false ->
  Security.validateSecurity env req
  = Security.Reply 500 "APP_SECRET_TOKEN not configured".
Proof. intros H. unfold Security.validateSecurity. rewrite H. reflexivity. Qed.

(** ** Report download *)

(** For a session that exists, each of the three reports is answered with a
    500: [getExecutionResults] builds an object without [notFoundRecords],
    [duplicateRecords] or [errorRecords], so the handler reads [.length] of
    [undefined], whatever entries the session has. *)
Lemma download_existing_session s sid type :
  MemStorage.getSession s sid <> None ->
  In type ["not-found"; "duplicates"; "errors"] ->
  download s sid type
  = JsonReply 500 "Cannot read properties of undefined (reading 'length')".
Proof.
  intros H I. unfold download, MemStorage.getExecutionResults.
  destruct (MemStorage.getSession s sid) as [session|]; [|congruence].
  simpl in I. destruct I as [<-|[<-|[<-|[]]]]; reflexivity.
Qed.

(** ** The rate limiter, one caller at a time *)

(** A lone caller's request starts no earlier than [minInterval] after the
    limiter's last stamp, and the limiter is stamped with that start. *)
Lemma wait_spaced rl now late :
  (0 <= late)%Z ->
  (RateLimiter.lastCall rl + RateLimiter.minInterval rl
   <= snd (RateLimiter.wait rl now late))%Z
  /\ RateLimiter.lastCall (fst (RateLimiter.wait rl now late))
     = snd (RateLimiter.wait rl now late)
  /\ RateLimiter.minInterval (fst (RateLimiter.wait rl now late))
     = RateLimiter.minInterval rl.
Proof.
  intros H. unfold RateLimiter.wait, RateLimiter.waitTime.
  destruct (now - RateLimiter.lastCall rl <? RateLimiter.minInterval rl)%Z
    eqn:E; simpl.
  - repeat split. lia.
  - apply Z.ltb_ge in E. repeat split. lia.
Qed.

(** X29.  With a timer that is not late a lone caller waits just the
    remaining time, and not at all when the interval has passed: its request
    starts at the later of now and the last stamp plus [minInterval]. *)
Lemma wait_no_extra_delay rl now :
  snd (RateLimiter.wait rl now 0)
  = Z.max now (RateLimiter.lastCall rl + RateLimiter.minInterval rl).
Proof.
  unfold RateLimiter.wait, RateLimiter.waitTime.
  destruct (now - RateLimiter.lastCall rl <? RateLimiter.minInterval rl)%Z
    eqn:E; simpl.
  - apply Z.ltb_lt in E. lia.
  - apply Z.ltb_ge in E. lia.
Qed.

(** X4.  Requests made one after the other, each invoked once the one before
    has been sent, start at least [minInterval] apart, and the first of them
    at least [minInterval] after the limiter's last stamp, when no timer
    fires early. *)
Lemma callBitrixAPI_series_spaced calls :
  forall rl now,
    Forall (fun c => (0 <= RateLimiter.late c)%Z) calls ->
    RateLimiter.spaced (RateLimiter.minInterval rl)
      (fst (RateLimiter.callBitrixAPI_series rl now calls))
    /\ (forall a rest,
          fst (RateLimiter.callBitrixAPI_series rl now calls) = a :: rest ->
          (RateLimiter.lastCall rl + RateLimiter.minInterval rl <= a)%Z).
Proof.
  induction calls as [|c rest IH]; intros rl now F.
  - split; [exact I|]. intros a r [=].
  - inversion F as [|? ? Hc Hr]; subst.
    cbn [RateLimiter.callBitrixAPI_series].
    destruct (wait_spaced rl (now + RateLimiter.idle c)
                (RateLimiter.late c) Hc) as (W1 & W2 & W3).
    destruct (RateLimiter.wait rl (now + RateLimiter.idle c)%Z
                (RateLimiter.late c)) as [rl1 started].
    cbn [fst snd] in W1, W2, W3.
    destruct (IH rl1 started Hr) as (S1 & S2).
    destruct (RateLimiter.callBitrixAPI_series rl1 started rest)
      as [starts rl2].
    cbn [fst] in *. split.
    + destruct starts as [|b more]; [exact I|].
      split; [|rewrite <- W3; exact S1].
      specialize (S2 b more eq_refl). lia.
    + intros a r [= <- _]. exact W1.
Qed.

(** The matcher skips [A], empty in the row, and searches on [B]. *)
Example second_key_is_searched :
  calls (log Scenario.second_key)
  = [("crm.contact.list", ListParams "B" "b1")].
Proof. vm_compute. reflexivity. Qed.

(** The search on [A] throws; it is logged, and the matcher goes on to
    [B], whose match gives the entry. *)
Example first_key_throws_next_is_searched :
  calls (log Scenario.first_key_throws)
  = [("crm.contact.list", ListParams "A" "a1");
     ("crm.contact.list", ListParams "B" "b1")]
  /\ In (EvConsoleError "Error searching for a1:")
        (log Scenario.first_key_throws)
  /\ map (fun r => (searchKey r, bitrixId r, status r))
         (Scenario.entries Scenario.first_key_throws)
     = [("B: b1", Some "12", "found")].
Proof. vm_compute. repeat split; try reflexivity. tauto. Qed.

(** Lone calls: the second waits the 400 ms that remain, the third does not
    wait. *)
Example lone_calls_starts :
  fst (RateLimiter.callBitrixAPI_series RateLimiter.initial 1000
         Scenario.lone_calls)
  = [1000%Z; 1500%Z; 2200%Z].
Proof. vm_compute. reflexivity. Qed.

(** The scenario of the specification, row 1: one entry, found, to update
    from "Old" to "New"; executed, it is completed. *)
Example one_found_entry :
  map (fun r => (currentValue r, newValue r, action r, status r, selected r))
      (Scenario.entries Scenario.one_found)
  = [(Some "Old", "New", "update", "found", true)]
  /\ map status (Scenario.entries Scenario.one_executed) = ["completed"].
Proof. vm_compute. split; reflexivity. Qed.

(** C1.  A row whose search returns two contacts is matched to the first of
    them and the search marks it as a duplicate, yet its entry is stored
    with status "found". *)
Theorem duplicate_row_stored_as_found :
  fst (searchInBitrix24 "c@x" "EMAIL" contacts Scenario.domain
         (Scenario.boot [Script.found_reply
                           [Scenario.contact12; Scenario.contact13]]))
  = Ok (Some {| entity := Scenario.contact12; isDuplicate := true |})
  /\ map (fun r => (bitrixId r, currentValue r, status r))
         (Scenario.entries Scenario.two_matches)
     = [(Some "12", Some "Old", "found")].
Proof. vm_compute. split; reflexivity. Qed.

(** C3.  After a successful execution the entry has status "completed", an
    identifier and a recorded current value; the undo route, which looks
    for status "updated", selects nothing: no call is made and nothing is
    reverted. *)
Theorem undo_after_execution_reverts_nothing :
  map (fun r => (bitrixId r, currentValue r, newValue r, status r))
      (Scenario.entries Scenario.one_executed)
  = [(Some "12", Some "Old", "New", "completed")]
  /\ updatedRecordsOf
       (MemStorage.getRecordResults (storage Scenario.one_executed) 0)
     = []
  /\ log Scenario.one_undone = log Scenario.one_executed
  /\ storage Scenario.one_undone = storage Scenario.one_executed.
Proof. vm_compute. repeat split; reflexivity. Qed.

(** C2, as stated, fails: the bulk call for the contacts went through (the
    call for the companies that follows it was made) and the one for the
    companies failed, yet the contact entry is set to "error" along with the
    company entry. *)
Lemma contact_entry_marked_error_by_company_failure :
  calls (Scenario.since Scenario.mixed_found Scenario.mixed_executed)
  = [("crm.contact.batch",
      BatchParams [{| u_id := "12"; u_field := "NAME"; u_value := "New" |}]);
     ("crm.company.batch",
      BatchParams [{| u_id := "C14"; u_field := "NAME"; u_value := "Bee" |}])]
  /\ map (fun r => (bitrixId r, status r, errorMessage r))
         (Scenario.entries Scenario.mixed_executed)
     = [(Some "12", "error",
         Some "Bitrix API error: 500 Internal Server Error");
        (Some "C14", "error",
         Some "Bitrix API error: 500 Internal Server Error")]
  /\ Js.startsWith "12" "C" = false.
Proof. vm_compute. repeat split; reflexivity. Qed.



(** C10, as stated, fails: an edit of the preview that sends the status
    "success" is stored as it is sent, and the count is 1. *)
Lemma preview_edit_writes_success :
  never "success" (storage Scenario.one_found)
  /\ map status (Scenario.entries Scenario.edited_success) = ["success"]
  /\ option_map (fun results => Js.get results "successful")
       (MemStorage.getExecutionResults (storage Scenario.edited_success) 0)
     = Some (Some (JNumber 1)).
Proof.
  split; [|vm_compute; split; reflexivity].
  repeat (constructor; [vm_compute; discriminate|]). constructor.
Qed.

(** C7.  Two background tasks share the limiter.  The first sends a request
    at 1000 and, done with it, asks for the next at 1050; the second asks
    for its first at 1100.  Both read the stamp 1000, both sleep until
    1500, and both requests start at 1500, none of the 500 ms apart. *)
Theorem overlapping_callers_start_together :
  option_map RateLimiter.started
    (RateLimiter.run RateLimiter.boot
       [RateLimiter.Invoke 1 1000; RateLimiter.Invoke 1 1050;
        RateLimiter.Invoke 2 1100; RateLimiter.TimerFires 1 1500;
        RateLimiter.TimerFires 2 1500])
  = Some [(1, 1000%Z); (1, 1500%Z); (2, 1500%Z)]
  /\ ~ RateLimiter.spaced 500 [1000%Z; 1500%Z; 1500%Z].
Proof.
  split; [vm_compute; reflexivity|].
  simpl. intros (_ & H & _). lia.
Qed.

(** C8, on a request with the wrong token: a secret is configured, and the
    answer is 401. *)
Lemma validateSecurity_admits_witness :
  Js.truthy (Security.APP_SECRET_TOKEN Scenario.environment) = true
  /\ Security.validateSecurity Scenario.environment
       {| Security.query_token := Some "guess";
          Security.header_x_auth_token := None;
          Security.query_domain := Some "a.bitrix24.com";
          Security.header_x_bitrix_domain := None |}
     = Security.Reply 401 "Invalid or missing token".
Proof.
  split; [reflexivity|].
  apply (validateSecurity_admits Scenario.environment
           {| Security.query_token := Some "guess";
              Security.header_x_auth_token := None;
              Security.query_domain := Some "a.bitrix24.com";
              Security.header_x_bitrix_domain := None |} eq_refl).
  simpl. discriminate.
Defined.

(** Other requests: the right token from an allowed domain goes
    through, from another domain it is answered 403. *)
Example validateSecurity_examples :
  Security.validateSecurity Scenario.environment
    {| Security.query_token := Some "s3cret";
       Security.header_x_auth_token := None;
       Security.query_domain := None;
       Security.header_x_bitrix_domain := Some "b.bitrix24.com" |}
  = Security.Next (Some "b.bitrix24.com")
  /\ Security.validateSecurity Scenario.environment
       {| Security.query_token := Some "s3cret";
          Security.header_x_auth_token := None;
          Security.query_domain := Some "evil.example";
          Security.header_x_bitrix_domain := None |}
     = Security.Reply 403 "Domain not authorized".
Proof. vm_compute. split; reflexivity. Qed.

(** C9.  The session exists and has no entry that was not found, no
    duplicate and no error; each of the three reports is answered with a 500
    carrying a [TypeError] message, not with the 404 "No data available for
    download". *)
Theorem download_of_empty_report_is_500 :
  MemStorage.getSession (storage Scenario.one_executed) 0 <> None
  /\ map status (Scenario.entries Scenario.one_executed) = ["completed"]
  /\ map (download (storage Scenario.one_executed) 0)
         ["not-found"; "duplicates"; "errors"]
     = [JsonReply 500
          "Cannot read properties of undefined (reading 'length')";
        JsonReply 500
          "Cannot read properties of undefined (reading 'length')";
        JsonReply 500
          "Cannot read properties of undefined (reading 'length')"].
Proof.
  split; [vm_compute; discriminate|]. split; vm_compute; reflexivity.
Qed.

(** C10, on a run that uploads, processes, edits a new value, executes and
    undoes: the count is 0. *)
Lemma successful_count_is_zero_witness :
  never "success" (storage Scenario.whole_run_boot)
  /\ forallb (clean "success") Scenario.whole_run = true
  /\ match MemStorage.getExecutionResults
             (storage
                (serve Scenario.whole_run
                   Scenario.whole_run_boot))
             0 with
     | Some results => Js.get results "successful" = Some (JNumber 0)
     | None => False
     end.
Proof.
  assert (H : never "success" (storage Scenario.whole_run_boot))
    by (constructor).
  split; [exact H|]. split; [reflexivity|].
  destruct (MemStorage.getExecutionResults
              (storage
                 (serve Scenario.whole_run
                    Scenario.whole_run_boot)) 0)
    as [results|] eqn:G.
  - exact (proj2
             (successful_count_is_zero Scenario.whole_run Scenario.whole_run_boot
                0 results H eq_refl G)).
  - vm_compute in G. discriminate.
Defined.

(** ** The allow-list and the validation endpoint *)

Lemma split_comma_nonempty s : Js.split_comma s <> [].
Proof.
  destruct s as [|c rest]; simpl; [discriminate|].
  destruct (Ascii.eqb c ","); [discriminate|].
  destruct (Js.split_comma rest); discriminate.
Qed.

(** X1.  [ALLOWED_DOMAINS.split(',')] cuts at the commas and nowhere else:
    joining the pieces with commas gives the variable back, no piece holds a
    comma, and there is always at least one piece (the empty one for an
    empty variable).  Nothing is trimmed, so a domain is allowed only when it
    stands between two commas character for character. *)
Theorem split_comma_join (s : string) :
  String.concat "," (Js.split_comma s) = s
  /\ Forall (fun piece => ~ In ","%char (list_ascii_of_string piece))
            (Js.split_comma s)
  /\ Js.split_comma s <> [].
Proof.
  split; [|split; [|apply split_comma_nonempty]].
  - induction s as [|c rest IH]; [reflexivity|].
    pose proof (split_comma_nonempty rest) as N.
    cbn [Js.split_comma]. destruct (Ascii.eqb c ",") eqn:E.
    + apply Ascii.eqb_eq in E. subst c.
      destruct (Js.split_comma rest) as [|h t]; [congruence|].
      change (String.concat "," ("" :: h :: t))
        with (String "," (String.concat "," (h :: t))).
      rewrite IH. reflexivity.
    + destruct (Js.split_comma rest) as [|h t]; [congruence|].
      rewrite <- IH. destruct t as [|h2 t2]; reflexivity.
  - induction s as [|c rest IH].
    + constructor; [simpl; tauto|constructor].
    + pose proof (split_comma_nonempty rest) as N.
      cbn [Js.split_comma]. destruct (Ascii.eqb c ",") eqn:E.
      * constructor; [simpl; tauto|exact IH].
      * destruct (Js.split_comma rest) as [|h t]; [congruence|].
        inversion IH as [|? ? Hh Ht]; subst.
        constructor; [|exact Ht].
        cbn [list_ascii_of_string]. intros [X|X]; [|contradiction].
        subst c. discriminate E.
Qed.

(** X2.  The validation endpoint and the middleware agree on who gets in: for
    a token and a domain that are not empty, sent as query parameters as the
    client does, [POST /api/validate-security] answers [valid: true] exactly
    when [validateSecurity] calls [next()], whatever the headers.  They differ
    in how they refuse when no secret is configured: the endpoint says 401,
    the middleware 500. *)
Theorem validate_security_agrees (env : Security.Env)
    (token domain : string) (headerToken headerDomain : option string) :
  token <> "" -> domain <> "" ->
  let req :=
    {| Security.query_token := Some token;
       Security.header_x_auth_token := headerToken;
       Security.query_domain := Some domain;
       Security.header_x_bitrix_domain := headerDomain |} in
  (Security.post_api_validate_security env (Some (token, domain))
   = Security.Valid
   <-> Security.validateSecurity env req = Security.Next (Some domain))
  /\ (Js.truthy (Security.APP_SECRET_TOKEN env) = true ->
      forall code message,
        Security.post_api_validate_security env (Some (token, domain))
        = Security.Invalid code message ->
        exists message',
          Security.validateSecurity env req = Security.Reply code message')
  /\ (Js.truthy (Security.APP_SECRET_TOKEN env) = false ->
      Security.post_api_validate_security env (Some (token, domain))
      = Security.Invalid 401 "Invalid token"
      /\ Security.validateSecurity env req
         = Security.Reply 500 "APP_SECRET_TOKEN not configured").
Proof.
  intros HT HD req.
  assert (ET : Js.or (Some token) headerToken = Some token).
  { unfold Js.or, Js.truthy. destruct (String.eqb_spec token ""); [contradiction|].
    reflexivity. }
  assert (ED : Js.or (Some domain) headerDomain = Some domain).
  { unfold Js.or, Js.truthy. destruct (String.eqb_spec domain ""); [contradiction|].
    reflexivity. }
  unfold Security.post_api_validate_security, Security.validateSecurity, req.
  cbn [Security.query_token Security.header_x_auth_token
       Security.query_domain Security.header_x_bitrix_domain].
  rewrite ET, ED. cbn [Js.includesValue].
  destruct (Js.truthy (Security.APP_SECRET_TOKEN env)) eqn:S; cbn [negb orb].
  - destruct (Security.APP_SECRET_TOKEN env) as [secret|]; [|discriminate S].
    destruct (token =? secret)%string; cbn [negb].
    + destruct ((0 <? List.length (Security.allowedDomains env))%nat
                && negb (Js.includes (Security.allowedDomains env) domain)).
      * split; [split; discriminate|]. split; [|discriminate].
        intros _ code message [= <- <-]. eauto.
      * split; [split; reflexivity|]. split; [|discriminate].
        intros _ code message [=].
    + split; [split; discriminate|]. split; [|discriminate].
      intros _ code message [= <- <-]. eauto.
  - split; [split; discriminate|]. split; [discriminate|]. auto.
Qed.

(** ** Report download, every case *)

(** X3.  [GET /api/download/:sessionId/:type] never sends a file and never
    says 'No data available for download': it answers 404 when the session
    does not exist, 400 for a type other than the three reports, and 500 in
    every other case. *)
Theorem download_never_sends_a_file (s : Storage) (sid : uuid)
    (type : string) :
  (MemStorage.getSession s sid = None
   /\ download s sid type = JsonReply 404 "Session not found")
  \/ (MemStorage.getSession s sid <> None
      /\ ~ In type ["not-found"; "duplicates"; "errors"]
      /\ download s sid type = JsonReply 400 "Invalid download type")
  \/ (MemStorage.getSession s sid <> None
      /\ In type ["not-found"; "duplicates"; "errors"]
      /\ download s sid type
         = JsonReply 500
             "Cannot read properties of undefined (reading 'length')").
Proof.
  unfold download, MemStorage.getExecutionResults.
  destruct (MemStorage.getSession s sid) as [session|]; [right|left; auto].
  destruct (String.eqb_spec type "not-found") as [->|N1];
    [right; repeat split; [discriminate|simpl; auto]|].
  destruct (String.eqb_spec type "duplicates") as [->|N2];
    [right; repeat split; [discriminate|simpl; auto]|].
  destruct (String.eqb_spec type "errors") as [->|N3];
    [right; repeat split; [discriminate|simpl; auto]|].
  left. repeat split; [discriminate|].
  simpl. intros [E|[E|[E|[]]]]; congruence.
Qed.

(** ** The rate limiter in the pipeline and under the event loop *)

(** X5.  In the pipeline, when timers never fire early, every use of
    [callBitrixAPI] leaves the limiter stamped at least [minInterval] after
    the stamp it found, whether the request then succeeds, is refused or
    throws; the interval itself is never changed. *)
Theorem callBitrixAPI_waits {outside : Outside} (domain : option string)
    (method : string) (params : Params) (s : State) :
  (forall d w, (Date_now w + d <= Date_now (setTimeout d w))%Z) ->
  (RateLimiter.lastCall (rateLimiter s)
   + RateLimiter.minInterval (rateLimiter s)
   <= RateLimiter.lastCall
        (rateLimiter (snd (callBitrixAPI domain method params s))))%Z
  /\ RateLimiter.minInterval
       (rateLimiter (snd (callBitrixAPI domain method params s)))
     = RateLimiter.minInterval (rateLimiter s).
Proof.
  intros T. rewrite callBitrixAPI_stamps. cbn [RateLimiter.stamp
    RateLimiter.lastCall RateLimiter.minInterval].
  split; [|reflexivity].
  unfold RateLimiter.waitTime.
  destruct (Date_now (world s) - RateLimiter.lastCall (rateLimiter s)
            <? RateLimiter.minInterval (rateLimiter s))%Z eqn:E.
  - specialize (T (RateLimiter.minInterval (rateLimiter s)
                   - (Date_now (world s)
                      - RateLimiter.lastCall (rateLimiter s)))%Z (world s)).
    lia.
  - apply Z.ltb_ge in E. lia.
Qed.

Lemma spaced_snoc gap x :
  forall l,
    RateLimiter.spaced gap l ->
    (forall a, In a l -> (gap <= x - a)%Z) ->
    RateLimiter.spaced gap (l ++ [x]).
Proof.
  induction l as [|a rest IH]; intros S B; [exact I|].
  destruct rest as [|b more].
  - simpl. split; [apply B; left; reflexivity|exact I].
  - destruct S as [S1 S2]. change ((a :: b :: more) ++ [x])
      with (a :: b :: (more ++ [x])). split; [exact S1|].
    apply IH; [exact S2|]. intros c Hc. apply B. right. exact Hc.
Qed.

Lemma in_turn_step l s l' :
  RateLimiter.in_turn l ->
  RateLimiter.oneAtATime l [s] = true ->
  RateLimiter.step l s = Some l' ->
  RateLimiter.in_turn l'.
Proof.
  intros (M & S & B & Z) A R.
  destruct s as [caller now|caller now]; cbn [RateLimiter.step] in R.
  - cbn [RateLimiter.oneAtATime] in A.
    destruct (RateLimiter.sleeping l) as [|e more] eqn:SL; [|discriminate A].
    destruct (now <? RateLimiter.clock l)%Z; [discriminate R|].
    cbn [RateLimiter.due] in R. unfold RateLimiter.waitTime in R.
    destruct (now - RateLimiter.lastCall (RateLimiter.limiter l)
              <? RateLimiter.minInterval (RateLimiter.limiter l))%Z eqn:E;
      injection R as <-; unfold RateLimiter.in_turn; cbn.
    + repeat split; auto.
      right. exists caller. eexists. split; [reflexivity|]. lia.
    + apply Z.ltb_ge in E. rewrite map_app. cbn [map snd].
      repeat split; auto.
      * apply spaced_snoc; [exact S|]. intros a Ha. specialize (B a Ha). lia.
      * intros a Ha. apply in_app_or in Ha. destruct Ha as [Ha|[<-|[]]];
          [specialize (B a Ha)|]; lia.
  - destruct (now <? RateLimiter.clock l)%Z; [discriminate R|].
    destruct Z as [Z|(c & d & Z & D)]; rewrite Z in R; cbn [RateLimiter.due] in R;
      [discriminate R|].
    destruct (Nat.eqb c caller) eqn:EC; [|discriminate R].
    destruct (now <? d)%Z eqn:E; [discriminate R|].
    apply Z.ltb_ge in E. injection R as <-. unfold RateLimiter.in_turn; cbn.
    rewrite map_app. cbn [map snd]. repeat split; auto.
    + apply spaced_snoc; [exact S|]. intros a Ha. specialize (B a Ha). lia.
    + intros a Ha. apply in_app_or in Ha. destruct Ha as [Ha|[<-|[]]];
        [specialize (B a Ha)|]; lia.
    + left. unfold RateLimiter.wake. cbn [filter fst]. rewrite EC. reflexivity.
Qed.

(** X6.  The limiter does its work as long as callers do not overlap: in any
    schedule of the event loop in which no task invokes [callBitrixAPI] while
    another is suspended inside [wait()], whatever the number of tasks, the
    requests start at least 500 ms apart. *)
Theorem callers_in_turn_are_spaced (schedule : list RateLimiter.Step)
    (l : RateLimiter.Loop) :
  RateLimiter.run RateLimiter.boot schedule = Some l ->
  RateLimiter.oneAtATime RateLimiter.boot schedule = true ->
  RateLimiter.spaced 500 (map snd (RateLimiter.started l)).
Proof.
  assert (G : forall sched l0,
             RateLimiter.in_turn l0 ->
             RateLimiter.run l0 sched = Some l ->
             RateLimiter.oneAtATime l0 sched = true ->
             RateLimiter.in_turn l).
  { induction sched as [|s rest IH]; intros l0 I0 R A.
    - injection R as <-. exact I0.
    - cbn [RateLimiter.run] in R.
      destruct (RateLimiter.step l0 s) as [l1|] eqn:E; [|discriminate R].
      assert (A1 : RateLimiter.oneAtATime l0 [s] = true
                   /\ RateLimiter.oneAtATime l1 rest = true).
      { cbn [RateLimiter.oneAtATime] in *.
        destruct s; destruct (RateLimiter.sleeping l0); try discriminate A;
          rewrite ?E in *; auto. }
      apply (IH l1); [|exact R|apply A1].
      apply (in_turn_step l0 s); [exact I0|apply A1|exact E]. }
  intros R A.
  apply (G schedule RateLimiter.boot) in R; [apply R| |exact A].
  unfold RateLimiter.in_turn, RateLimiter.boot; cbn. repeat split; auto.
  intros a [].
Qed.

(** ** Deleting a session *)

Lemma filter_twice {A : Type} (p q : A -> bool) l :
  filter p (filter q l) = filter (fun x => q x && p x) l.
Proof.
  induction l as [|a l IH]; [reflexivity|].
  cbn [filter]. destruct (q a); cbn [filter andb]; rewrite IH; reflexivity.
Qed.

(** Deleting key by key is filtering on the keys. *)
Lemma fold_delete {V W : Type} (ks : list (uuid * W)) :
  forall m : list (uuid * V),
    fold_left (fun m kv => Map.delete m (fst kv)) ks m
    = filter (fun kv => negb (existsb (Nat.eqb (fst kv)) (map fst ks))) m.
Proof.
  induction ks as [|k ks IH]; intros m.
  - cbn. symmetry. apply filter_all. reflexivity.
  - cbn [fold_left map existsb]. rewrite IH. unfold Map.delete.
    rewrite filter_twice. apply filter_ext. intros kv.
    rewrite negb_orb. reflexivity.
Qed.

Lemma Map_get_delete {V : Type} (m : list (uuid * V)) k :
  Map.get (Map.delete m k) k = None.
Proof.
  induction m as [|[k0 v0] m IH]; [reflexivity|].
  unfold Map.delete in *. cbn [filter fst].
  destruct (Nat.eqb k0 k) eqn:E; cbn [negb]; [exact IH|].
  cbn [Map.get]. rewrite E. exact IH.
Qed.

Lemma Map_get_delete_ne {V : Type} (m : list (uuid * V)) k k' :
  k' <> k -> Map.get (Map.delete m k) k' = Map.get m k'.
Proof.
  intros N. induction m as [|[k0 v0] m IH]; [reflexivity|].
  unfold Map.delete in *. cbn [filter fst].
  destruct (Nat.eqb_spec k0 k) as [->|N0]; cbn [negb Map.get].
  - destruct (Nat.eqb_spec k k'); [congruence|exact IH].
  - rewrite IH. reflexivity.
Qed.

(** What is left of the values of a [Map] when the keys of the values that
    satisfy [doomed] are deleted: no such value. *)
Lemma delete_doomed {V : Type} (doomed : V -> bool) (m : list (uuid * V)) :
  filter doomed
    (Map.values
       (fold_left (fun m kv => Map.delete m (fst kv))
          (filter (fun kv => doomed (snd kv)) m) m))
  = [].
Proof.
  rewrite fold_delete. apply filter_none. intros v I.
  unfold Map.values in I. apply in_map_iff in I.
  destruct I as ([k v'] & E & I). cbn in E. subst v'.
  apply filter_In in I. destruct I as [I K]. cbn [fst] in K.
  destruct (doomed v) eqn:D; [|reflexivity].
  apply negb_true_iff in K.
  assert (X : existsb (Nat.eqb k)
                (map fst (filter (fun kv => doomed (snd kv)) m)) = true).
  { apply existsb_exists. exists k. split; [|apply Nat.eqb_refl].
    apply in_map_iff. exists (k, v). split; [reflexivity|].
    apply filter_In. split; [exact I|exact D]. }
  congruence.
Qed.

(** With distinct keys, the values that do not satisfy [doomed] all stay,
    in their order. *)
Lemma delete_spares {V : Type} (doomed keep : V -> bool)
    (m : list (uuid * V)) :
  NoDup (Map.keys m) ->
  (forall v, keep v = true -> doomed v = false) ->
  filter keep
    (Map.values
       (fold_left (fun m kv => Map.delete m (fst kv))
          (filter (fun kv => doomed (snd kv)) m) m))
  = filter keep (Map.values m).
Proof.
  intros N H. rewrite fold_delete.
  set (ks := map fst (filter (fun kv => doomed (snd kv)) m)).
  assert (K : forall k v, In (k, v) m -> keep v = true ->
                          existsb (Nat.eqb k) ks = false).
  { intros k v I Kv. destruct (existsb (Nat.eqb k) ks) eqn:X; [|reflexivity].
    apply existsb_exists in X. destruct X as (k' & Ik & E).
    apply Nat.eqb_eq in E. subst k'. unfold ks in Ik.
    apply in_map_iff in Ik. destruct Ik as ([k' v'] & E & Iv).
    cbn in E. subst k'. apply filter_In in Iv. destruct Iv as [Iv D].
    cbn in D.
    assert (v' = v).
    { pose proof (Map_get_NoDup _ _ _ N I) as G1.
      pose proof (Map_get_NoDup _ _ _ N Iv) as G2. congruence. }
    subst v'. rewrite (H v Kv) in D. discriminate. }
  clearbody ks. clear N.
  induction m as [|[k v] m IH]; [reflexivity|].
  cbn [filter fst Map.values map snd].
  assert (IH' : filter keep
                  (Map.values
                     (filter (fun kv => negb (existsb (Nat.eqb (fst kv)) ks))
                             m))
                = filter keep (Map.values m))
    by (apply IH; intros k' v' I; apply (K k' v'); right; exact I).
  destruct (keep v) eqn:Kv.
  - rewrite (K k v (or_introl eq_refl) Kv). cbn [negb Map.values map snd filter].
    rewrite Kv. f_equal. exact IH'.
  - destruct (existsb (Nat.eqb k) ks); cbn [negb]; [exact IH'|].
    cbn [Map.values map snd filter]. rewrite Kv. exact IH'.
Qed.

(** X15.  [deleteSession] takes with the session all that names it: after
    it the session is not found, and it has no entries and no batches left.
    No identifier is given back. *)
Theorem deleteSession_cascades (sid : uuid) (st : Storage) :
  MemStorage.getSession (MemStorage.deleteSession sid st) sid = None
  /\ MemStorage.getRecordResults (MemStorage.deleteSession sid st) sid = []
  /\ MemStorage.getExecutionBatches (MemStorage.deleteSession sid st) sid = []
  /\ randomUUID (MemStorage.deleteSession sid st) = randomUUID st.
Proof.
  split; [apply Map_get_delete|]. split; [|split; [|reflexivity]].
  - apply (delete_doomed (fun r => Nat.eqb (sessionId r) sid)).
  - apply (delete_doomed (fun b => Nat.eqb (eb_sessionId b) sid)).
Qed.

(** X16.  [deleteSession] touches nothing of the other sessions: in a storage
    whose entries and batches have distinct keys, every other session keeps
    its session record, its entries and its batches, in their order. *)
Theorem deleteSession_spares_the_others (sid other : uuid) (st : Storage) :
  NoDup (Map.keys (recordResults st)) ->
  NoDup (Map.keys (executionBatches st)) ->
  other <> sid ->
  MemStorage.getSession (MemStorage.deleteSession sid st) other
  = MemStorage.getSession st other
  /\ MemStorage.getRecordResults (MemStorage.deleteSession sid st) other
     = MemStorage.getRecordResults st other
  /\ MemStorage.getExecutionBatches (MemStorage.deleteSession sid st) other
     = MemStorage.getExecutionBatches st other.
Proof.
  intros N1 N2 O. split; [apply Map_get_delete_ne; exact O|]. split.
  - apply (delete_spares (fun r => Nat.eqb (sessionId r) sid)
             (fun r => Nat.eqb (sessionId r) other)); [exact N1|].
    intros r E. apply Nat.eqb_eq in E. apply Nat.eqb_neq. congruence.
  - apply (delete_spares (fun b => Nat.eqb (eb_sessionId b) sid)
             (fun b => Nat.eqb (eb_sessionId b) other)); [exact N2|].
    intros b E. apply Nat.eqb_eq in E. apply Nat.eqb_neq. congruence.
Qed.

(** ** The pages of the preview *)

Lemma firstn_min_length {A : Type} n (l : list A) :
  firstn (Nat.min n (List.length l)) l = firstn n l.
Proof.
  destruct (Nat.le_gt_cases n (List.length l)) as [H|H].
  - rewrite Nat.min_l by exact H. reflexivity.
  - rewrite Nat.min_r by lia. rewrite !firstn_all2 by lia. reflexivity.
Qed.

(** [slice] between two indices that are not negative. *)
Lemma sliceZ_from {A : Type} (l : list A) (a c : nat) :
  Js.sliceZ l (Z.of_nat a) (Z.of_nat a + Z.of_nat c)
  = firstn c (skipn a l).
Proof.
  unfold Js.sliceZ.
  destruct (Z.ltb_spec (Z.of_nat a) 0); [lia|].
  destruct (Z.ltb_spec (Z.of_nat a + Z.of_nat c) 0); [lia|].
  replace (Z.to_nat (Z.min (Z.of_nat a) (Z.of_nat (List.length l))))
    with (Nat.min a (List.length l)) by lia.
  replace (Z.to_nat
             (Z.min (Z.of_nat a + Z.of_nat c) (Z.of_nat (List.length l))
              - Z.min (Z.of_nat a) (Z.of_nat (List.length l))))
    with (Nat.min (a + c) (List.length l) - Nat.min a (List.length l))
    by lia.
  destruct (Nat.le_gt_cases (List.length l) a) as [L|L].
  - rewrite (Nat.min_r a) by exact L. rewrite skipn_all.
    rewrite (skipn_all2 l (n := a)) by exact L.
    rewrite !firstn_nil. reflexivity.
  - rewrite (Nat.min_l a) by lia.
    rewrite <- (firstn_min_length c). rewrite length_skipn. f_equal. lia.
Qed.

Lemma ceilDiv_nat (n l : nat) :
  0 < l ->
  Js.ceilDiv (Z.of_nat n) (Z.of_nat l) = Z.of_nat ((n + l - 1) / l).
Proof.
  intros H. unfold Js.ceilDiv. rewrite Nat2Z.inj_div.
  replace (Z.of_nat (n + l - 1)) with (Z.of_nat n + Z.of_nat l - 1)%Z by lia.
  set (N := Z.of_nat n). set (L := Z.of_nat l).
  assert (HL : (0 < L)%Z) by (unfold L; lia).
  pose proof (Z.mul_div_le (- N) L HL) as A1.
  pose proof (Z.mul_succ_div_gt (- N) L HL) as A2.
  pose proof (Z.mul_div_le (N + L - 1) L HL) as B1.
  pose proof (Z.mul_succ_div_gt (N + L - 1) L HL) as B2.
  nia.
Qed.

(** X17.  The pages of [GET /api/preview], for a page size [limit] of at
    least 1: page [p], counted from 1, holds the [limit] entries from
    [(p - 1) limit] on of the filtered and searched entries, the reply
    counts [ceil(total / limit)] pages, and these pages put end to end are
    the filtered and searched entries, each once and in order. *)
Theorem preview_pages (toLowerCase : string -> string)
    (contains : string -> string -> bool) (s : Storage) (sid : uuid)
    (filter search : option string) (limit : nat) :
  0 < limit ->
  let all :=
    previewSearch toLowerCase contains search
      (previewFilter filter (MemStorage.getRecordResults s sid)) in
  let reply p :=
    get_api_preview toLowerCase contains s sid (Some (Z.of_nat p))
      (Some (Z.of_nat limit)) filter search in
  let pages := (List.length all + limit - 1) / limit in
  (forall p, 0 < p ->
     fst (reply p) = firstn limit (skipn ((p - 1) * limit) all)
     /\ pg_total (snd (reply p)) = List.length all
     /\ pg_totalPages (snd (reply p)) = Z.of_nat pages)
  /\ List.concat (map (fun p => fst (reply p)) (seq 1 pages)) = all.
Proof.
  intros H all reply pages.
  assert (P : forall p, 0 < p ->
                fst (reply p) = firstn limit (skipn ((p - 1) * limit) all)).
  { intros p Hp. unfold reply, get_api_preview, Js.orInt. fold all.
    destruct (Z.eqb_spec (Z.of_nat p) 0); [lia|].
    destruct (Z.eqb_spec (Z.of_nat limit) 0); [lia|].
    cbn [fst].
    replace ((Z.of_nat p - 1) * Z.of_nat limit)%Z
      with (Z.of_nat ((p - 1) * limit)) by nia.
    apply sliceZ_from. }
  split.
  - intros p Hp. split; [exact (P p Hp)|].
    unfold reply, get_api_preview, Js.orInt. fold all.
    destruct (Z.eqb_spec (Z.of_nat limit) 0); [lia|].
    cbn [snd pg_total pg_totalPages]. split; [reflexivity|].
    apply ceilDiv_nat. exact H.
  - rewrite <- seq_shift, map_map.
    transitivity
      (List.concat
         (map (fun k => firstn limit (skipn (limit * k) all)) (seq 0 pages)));
      [|apply chunks_concat].
    + f_equal. apply map_ext_in. intros k _. rewrite P by lia.
      replace (S k - 1) with k by lia. rewrite Nat.mul_comm. reflexivity.
    + unfold pages.
      pose proof (Nat.div_mod_eq (List.length all + limit - 1) limit) as D.
      pose proof (Nat.mod_upper_bound (List.length all + limit - 1) limit) as U.
      nia.
Qed.

(** ** The two storages *)

Lemma delete_is_filter {V : Type} (doomed : V -> bool) (m : list (uuid * V)) :
  NoDup (Map.keys m) ->
  fold_left (fun m kv => Map.delete m (fst kv))
    (filter (fun kv => doomed (snd kv)) m) m
  = filter (fun kv => negb (doomed (snd kv))) m.
Proof.
  intros N. rewrite fold_delete. apply filter_ext_in. intros [k v] I.
  cbn [fst snd]. f_equal.
  destruct (doomed v) eqn:D.
  - apply existsb_exists. exists k. split; [|apply Nat.eqb_refl].
    apply in_map_iff. exists (k, v). split; [reflexivity|].
    apply filter_In. split; [exact I|exact D].
  - destruct (existsb _ _) eqn:X; [|reflexivity].
    apply existsb_exists in X. destruct X as (k' & Ik & E).
    apply Nat.eqb_eq in E. subst k'. apply in_map_iff in Ik.
    destruct Ik as ([k' v'] & E & Iv). cbn in E. subst k'.
    apply filter_In in Iv. destruct Iv as [Iv D']. cbn in D'.
    assert (v' = v).
    { pose proof (Map_get_NoDup _ _ _ N I) as G1.
      pose proof (Map_get_NoDup _ _ _ N Iv) as G2. congruence. }
    subst v'. congruence.
Qed.

(** X24.  The two implementations of [deleteSession] do the same on a
    storage whose entries and batches have distinct keys: deleting, key by
    key, what names the session ([MemStorage]) leaves what filtering it out
    ([FileStorage]) leaves. *)
Theorem storages_agree_on_deleteSession (sid : uuid) (st : Storage) :
  NoDup (Map.keys (recordResults st)) ->
  NoDup (Map.keys (executionBatches st)) ->
  FileStorage.deleteSession sid st = MemStorage.deleteSession sid st.
Proof.
  intros N1 N2. unfold FileStorage.deleteSession, MemStorage.deleteSession.
  rewrite (delete_is_filter (fun r => Nat.eqb (sessionId r) sid)) by exact N1.
  rewrite (delete_is_filter (fun b => Nat.eqb (eb_sessionId b) sid))
    by exact N2.
  reflexivity.
Qed.

(** ** The properties above on given runs *)

Ltac distinct :=
  repeat (constructor; [simpl; intuition discriminate|]); constructor.

Ltac keyed :=
  vm_compute; repeat split;
  repeat (constructor; [simpl; first [lia | intuition discriminate
                                      | split; [reflexivity|lia]]|]);
  try constructor.

(** X2, for the secret and an allowed domain. *)
Lemma validate_security_agrees_witness :
  Security.post_api_validate_security Scenario.environment
    (Some ("s3cret", "a.bitrix24.com"))
  = Security.Valid
  <-> Security.validateSecurity Scenario.environment
        {| Security.query_token := Some "s3cret";
           Security.header_x_auth_token := None;
           Security.query_domain := Some "a.bitrix24.com";
           Security.header_x_bitrix_domain := None |}
      = Security.Next (Some "a.bitrix24.com").
Proof.
  exact (proj1 (validate_security_agrees Scenario.environment "s3cret"
                  "a.bitrix24.com" None None
                  ltac:(discriminate) ltac:(discriminate))).
Defined.

(** X4, on three lone calls. *)
Lemma callBitrixAPI_series_spaced_witness :
  RateLimiter.spaced (RateLimiter.minInterval RateLimiter.initial)
    (fst (RateLimiter.callBitrixAPI_series RateLimiter.initial 1000
            Scenario.lone_calls)).
Proof.
  assert (H : Forall (fun c => (0 <= RateLimiter.late c)%Z)
                     Scenario.lone_calls)
    by (repeat (constructor; [simpl; lia|]); constructor).
  exact (proj1 (callBitrixAPI_series_spaced Scenario.lone_calls
                  RateLimiter.initial 1000 H)).
Defined.

(** X5, with the timers of the scripted world, which fire on time. *)
Lemma callBitrixAPI_waits_witness :
  (RateLimiter.lastCall (rateLimiter Scenario.whole_run_boot)
   + RateLimiter.minInterval (rateLimiter Scenario.whole_run_boot)
   <= RateLimiter.lastCall
        (rateLimiter
           (snd (callBitrixAPI Scenario.domain "crm.contact.list"
                   (ListParams "EMAIL" "a@x") Scenario.whole_run_boot))))%Z.
Proof.
  assert (H : forall d (w : @World Scenario.crm),
             (@Date_now Scenario.crm w + d
              <= @Date_now Scenario.crm (@setTimeout Scenario.crm d w))%Z)
    by (intros d w; change (Script.time w + d <= Script.time w + d)%Z; lia).
  exact (proj1 (callBitrixAPI_waits Scenario.domain "crm.contact.list"
                  (ListParams "EMAIL" "a@x") Scenario.whole_run_boot H)).
Defined.

(** X6, on two tasks that take turns. *)
Lemma callers_in_turn_are_spaced_witness :
  RateLimiter.spaced 500
    (map snd (RateLimiter.started Scenario.in_turn_end)).
Proof.
  exact (callers_in_turn_are_spaced Scenario.in_turn Scenario.in_turn_end
           eq_refl eq_refl).
Defined.

(** X7, on a run that uploads, processes, edits, executes and undoes. *)
Lemma completed_batches_is_zero_witness :
  batchesPending (storage (serve Scenario.whole_run Scenario.whole_run_boot)).
Proof.
  exact (proj1 (completed_batches_is_zero Scenario.whole_run
                  Scenario.whole_run_boot 0 (Forall_nil _))).
Defined.

(** X8, on the same run. *)
Lemma entries_keep_their_identity_witness :
  wellKeyed (storage (serve Scenario.whole_run Scenario.whole_run_boot)).
Proof.
  assert (W : wellKeyed (storage Scenario.whole_run_boot))
    by (repeat split; constructor).
  exact (proj1 (entries_keep_their_identity Scenario.whole_run
                  Scenario.whole_run_boot 0 W eq_refl)).
Defined.

(** X9, on a file of one row with one column besides the key. *)
Lemma processing_appends_entries_witness :
  executionBatches
    (storage (snd (post_api_process 0 contacts ["EMAIL"] Scenario.domain
                     Scenario.uploaded)))
  = executionBatches (storage Scenario.uploaded).
Proof.
  assert (W : wellKeyed (storage Scenario.uploaded)) by keyed.
  exact (proj1 (proj2 (proj2
           (processing_appends_entries 0 contacts ["EMAIL"] Scenario.domain
              Scenario.uploaded Scenario.uploaded_session W eq_refl)))).
Defined.

(** X10, on the execution of one matched entry. *)
Lemma execution_updates_only_the_selected_witness :
  wellKeyed
    (storage (snd (executeUpdatesInBackground 0 None Scenario.domain
                     Scenario.one_found))).
Proof.
  assert (W : wellKeyed (storage Scenario.one_found)) by keyed.
  exact (proj2 (proj2 (proj2
           (execution_updates_only_the_selected 0 None Scenario.domain
              Scenario.one_found W)))).
Defined.

(** X12, on the entry of a row that was not found, named by the request:
    it is in the batch, and after the batch the entry kept under its
    identifier carries the error. *)
Lemma batch_with_entry_without_id_witness :
  Map.get
    (recordResults
       (storage (snd (processBatch [Scenario.lost_entry] Scenario.domain [1]
                        Scenario.not_found_row))))
    (rr_id Scenario.lost_entry)
  = option_map
      (fun r0 =>
         spread r0
           (error_updates
              "Cannot read properties of null (reading 'startsWith')"))
      (Map.get (recordResults (storage Scenario.not_found_row))
               (rr_id Scenario.lost_entry)).
Proof.
  exact (proj1 (proj2
           (batch_with_entry_without_id [Scenario.lost_entry] Scenario.domain
              [1] Scenario.not_found_row eq_refl))
           Scenario.lost_entry (or_introl eq_refl)).
Defined.

(** X13, on one entry whose revert is answered 500. *)
Lemma undo_stops_at_first_failure_witness :
  revertChangesInBackground 0 ([] ++ Scenario.updated_entry :: [Scenario.unmatched])
    Scenario.domain Scenario.failing
  = (Ok tt,
     snd (console_error "Undo error:"
            (snd (revertOne Scenario.domain Scenario.updated_entry
                    Scenario.failing)))).
Proof.
  exact (proj1 (undo_stops_at_first_failure 0 [] [Scenario.unmatched]
                  Scenario.updated_entry Scenario.domain Scenario.failing
                  Scenario.failing
                  (snd (revertOne Scenario.domain Scenario.updated_entry
                          Scenario.failing))
                  "Bitrix API error: 500 Internal Server Error"
                  eq_refl eq_refl)).
Defined.

(** X14, on the execution of one matched entry. *)
Lemma execution_selects_the_same_again_witness :
  map rr_id
    (selectResults None
       (MemStorage.getRecordResults
          (storage (snd (executeUpdatesInBackground 0 None Scenario.domain
                           Scenario.one_found))) 0))
  = map rr_id
      (selectResults None
         (MemStorage.getRecordResults (storage Scenario.one_found) 0)).
Proof.
  assert (W : wellKeyed (storage Scenario.one_found)) by keyed.
  exact (proj1 (execution_selects_the_same_again 0 None Scenario.domain
                  Scenario.one_found W)).
Defined.

(** X16, on a storage with two sessions. *)
Lemma deleteSession_spares_the_others_witness :
  MemStorage.getSession (MemStorage.deleteSession 0 Scenario.two_sessions) 5
  = MemStorage.getSession Scenario.two_sessions 5
  /\ MemStorage.getRecordResults
       (MemStorage.deleteSession 0 Scenario.two_sessions) 5
     = MemStorage.getRecordResults Scenario.two_sessions 5
  /\ MemStorage.getExecutionBatches
       (MemStorage.deleteSession 0 Scenario.two_sessions) 5
     = MemStorage.getExecutionBatches Scenario.two_sessions 5.
Proof.
  assert (N1 : NoDup (Map.keys (recordResults Scenario.two_sessions)))
    by (vm_compute; distinct).
  assert (N2 : NoDup (Map.keys (executionBatches Scenario.two_sessions)))
    by (vm_compute; distinct).
  exact (deleteSession_spares_the_others 0 5 Scenario.two_sessions N1 N2
           ltac:(discriminate)).
Defined.

(** X17, for pages of one entry. *)
Lemma preview_pages_witness :
  pg_total
    (snd (get_api_preview (fun x => x) String.prefix Scenario.two_sessions 0
            (Some (Z.of_nat 1)) (Some (Z.of_nat 1)) None None))
  = List.length
      (previewSearch (fun x => x) String.prefix None
         (previewFilter None
            (MemStorage.getRecordResults Scenario.two_sessions 0))).
Proof.
  exact (proj1 (proj2
           (proj1 (preview_pages (fun x => x) String.prefix
                     Scenario.two_sessions 0 None None 1 ltac:(lia))
              1 ltac:(lia)))).
Defined.

(** X19, on a run that uploads, processes, edits, executes and undoes. *)
Lemma preview_of_duplicates_is_empty_witness :
  get_api_preview (fun x => x) String.prefix
    (storage (serve Scenario.whole_run Scenario.whole_run_boot)) 0 None None
    (Some "duplicates") None
  = ([], {| pg_page := Js.orInt None 1; pg_limit := Js.orInt None 50;
            pg_total := 0; pg_totalPages := 0 |}).
Proof.
  exact (preview_of_duplicates_is_empty (fun x => x) String.prefix
           Scenario.whole_run Scenario.whole_run_boot 0 None None None
           (Forall_nil _) eq_refl).
Defined.

(** X20, on a row of a server that has no webhook. *)
Lemma without_webhook_rows_are_not_found_witness :
  exists new,
    log (snd (processRow 0 contacts ["EMAIL"] None 0 Scenario.a_row
                Scenario.offline_boot))
    = log Scenario.offline_boot ++ new
    /\ fst (processRow 0 contacts ["EMAIL"] None 0 Scenario.a_row
              Scenario.offline_boot)
       = Ok tt
    /\ calls new
       = flat_map
           (fun k => searchCalls contacts k (searchValueOf Scenario.a_row k))
           (filter (hasValue Scenario.a_row) ["EMAIL"])
    /\ Forall2 (unmatched_entry 0 0 Scenario.a_row)
               (fieldsToUpdate Scenario.a_row ["EMAIL"]) (created new).
Proof.
  destruct (proj2 (without_webhook_rows_are_not_found
                     (outside := Scenario.offline)
                     0 contacts ["EMAIL"] None 0 Scenario.a_row
                     Scenario.offline_boot eq_refl))
    as (new & L & R & C & F & _).
  exists new. repeat split; assumption.
Defined.

(** X21, on a batch of one entry of a server that has no webhook: the entry
    is in the batch, and after the batch the entry kept under its identifier
    carries the error. *)
Lemma without_webhook_batches_fail_witness :
  Map.get
    (recordResults
       (storage (snd (processBatch [Scenario.updated_entry] None [1]
                        Scenario.offline_two))))
    (rr_id Scenario.updated_entry)
  = option_map
      (fun r0 =>
         spread r0 (error_updates "BITRIX_WEBHOOK_URL not configured"))
      (Map.get (recordResults (storage Scenario.offline_two))
               (rr_id Scenario.updated_entry)).
Proof.
  exact (proj1 (proj2
           (without_webhook_batches_fail (outside := Scenario.offline)
              [Scenario.updated_entry] None [1] Scenario.offline_two eq_refl
              ltac:(vm_compute; discriminate) eq_refl))
           Scenario.updated_entry (or_introl eq_refl)).
Defined.

(** X24, on a storage with two sessions. *)
Lemma storages_agree_on_deleteSession_witness :
  FileStorage.deleteSession 0 Scenario.two_sessions
  = MemStorage.deleteSession 0 Scenario.two_sessions.
Proof.
  assert (N1 : NoDup (Map.keys (recordResults Scenario.two_sessions)))
    by (vm_compute; distinct).
  assert (N2 : NoDup (Map.keys (executionBatches Scenario.two_sessions)))
    by (vm_compute; distinct).
  exact (storages_agree_on_deleteSession 0 Scenario.two_sessions N1 N2).
Defined.

(** X25, on a server just started. *)
Lemma missing_session_is_404_witness :
  post_api_process 7 contacts ["EMAIL"] Scenario.domain
    Scenario.whole_run_boot
  = (Ok (JsonReply 404 "Session not found"), Scenario.whole_run_boot).
Proof.
  exact (proj1 (missing_session_is_404 7 Scenario.whole_run_boot eq_refl)
           contacts ["EMAIL"] Scenario.domain).
Defined.

(** X27, on a run that uploads, processes, edits, executes and undoes. *)
Lemma undo_never_selects_witness :
  updatedRecordsOf
    (MemStorage.getRecordResults
       (storage (serve Scenario.whole_run Scenario.whole_run_boot)) 0)
  = [].
Proof.
  exact (undo_never_selects Scenario.whole_run Scenario.whole_run_boot 0
           (Forall_nil _) eq_refl).
Defined.

(** X28, on two entries. *)
Lemma batchResultsOf_batch_witness :
  batchResultsOf [Scenario.updated_entry; Scenario.unmatched]
    (batchIds [Scenario.updated_entry; Scenario.unmatched] 0)
  = firstn batchSize
      (skipn (batchSize * 0) [Scenario.updated_entry; Scenario.unmatched]).
Proof.
  assert (N : NoDup (map rr_id [Scenario.updated_entry; Scenario.unmatched]))
    by (vm_compute; distinct).
  exact (batchResultsOf_batch [Scenario.updated_entry; Scenario.unmatched] 0
           N).
Defined.

(** X30, on a run that uploads, processes, edits, executes and undoes. *)
Lemma pending_count_is_zero_witness :
  match MemStorage.getExecutionResults
          (storage (serve Scenario.whole_run Scenario.whole_run_boot)) 0 with
  | Some results => Js.get results "pending" = Some (JNumber 0)
  | None => False
  end.
Proof.
  destruct (MemStorage.getExecutionResults
              (storage (serve Scenario.whole_run Scenario.whole_run_boot)) 0)
    as [results|] eqn:G.
  - exact (proj1 (pending_count_is_zero Scenario.whole_run
                    Scenario.whole_run_boot 0 results (Forall_nil _)
                    eq_refl G)).
  - vm_compute in G. discriminate.
Defined.

(** C2, amended, on the run of two rows whose second bulk call fails: the
    session exists, the keys of the storage are in order and the contact
    entry is the first of the selection; in the end it is in the storage
    with the update of the first batch on it. *)
Lemma executeUpdatesInBackground_marks_batches_witness :
  MemStorage.getSession (storage Scenario.mixed_found) 0 <> None
  /\ wellKeyed (storage Scenario.mixed_found)
  /\ nth_error Scenario.mixed_results 0 = Some Scenario.contact_entry
  /\ Map.get
       (recordResults
          (storage
             (snd (executeUpdatesInBackground 0 None
                     Scenario.domain Scenario.mixed_found))))
       (rr_id Scenario.contact_entry)
     = Some (spread Scenario.contact_entry
               (batchPatch (nth (0 / batchSize) Scenario.mixed_outcomes None))).
Proof.
  assert (H : MemStorage.getSession (storage Scenario.mixed_found) 0 <> None)
    by (vm_compute; discriminate).
  assert (W : wellKeyed (storage Scenario.mixed_found)) by keyed.
  assert (E : nth_error Scenario.mixed_results 0 = Some Scenario.contact_entry)
    by (vm_compute; reflexivity).
  split; [exact H|]. split; [exact W|]. split; [exact E|].
  exact (proj1
           (proj2 (proj2 (proj2 (proj2
              (executeUpdatesInBackground_marks_batches 0 None Scenario.domain
                 Scenario.mixed_found H)))) W)
           0 Scenario.contact_entry E).
Defined.
